(** * A block of the shallow-water solver: fields, boundaries, fluxes, halos

    Shallow embedding of [SWE_Block] (blocks/SWE_Block.hh) and of its
    Charm++ subclass [SWE_DimensionalSplittingCharm]
    (blocks/SWE_DimensionalSplittingCharm.{hh,cpp}).

    Conventions of the embedding:
    - a C [float] is an IEEE 754 binary32 number and a [double] a binary64
      number, both with round-to-nearest-even, computed by the
      Standard Library's [SpecFloat];
    - cell counts and array indices are [nat] (the fields are allocated with
      [(nx+2)*(ny+2)] elements, so no index leaves the range of [int]);
    - a loop is a left fold of its body over the list of its indices; the
      OpenMP pragmas are read as in a serial build, so a [collapse(2)] nest
      is one loop over the pairs of indices in source order;
    - [assert] is the one of a build without [NDEBUG]: a failed assertion
      stops the program in the state it has reached;
    - the timers ([clock], [clock_gettime]) are not part of the model. *)

From Stdlib Require Import ZArith List Lia Bool FinFun.
From Stdlib Require Import Floats.SpecFloat.
From stdpp Require Import base list.

(** ** Floating-point numbers *)

Definition float : Type := spec_float.
Definition double : Type := spec_float.

Module F32.
Definition prec : Z := 24.
Definition emax : Z := 128.
Definition zero : float := S754_zero false.
Definition add : float -> float -> float := SFadd prec emax.
Definition sub : float -> float -> float := SFsub prec emax.
Definition mul : float -> float -> float := SFmul prec emax.
Definition div : float -> float -> float := SFdiv prec emax.
Definition opp : float -> float := SFopp.
Definition abs : float -> float := SFabs.
Definition ltb : float -> float -> bool := SFltb.
(** rounding of a number of another format to the nearest binary32 one *)
Definition round (x : spec_float) : float :=
  match x with
  | S754_finite s m e => binary_round prec emax s m e
  | _ => x
  end.
Definition of_int (i : Z) : float := binary_normalize prec emax i 0 false.
End F32.

Module F64.
Definition prec : Z := 53.
Definition emax : Z := 1024.
Definition add : double -> double -> double := SFadd prec emax.
Definition sub : double -> double -> double := SFsub prec emax.
Definition mul : double -> double -> double := SFmul prec emax.
Definition div : double -> double -> double := SFdiv prec emax.
Definition ltb : double -> double -> bool := SFltb.
Definition round (x : spec_float) : double :=
  match x with
  | S754_finite s m e => binary_round prec emax s m e
  | _ => x
  end.
Definition of_int (i : Z) : double := binary_normalize prec emax i 0 false.
(** the decimal literal [n/d], correctly rounded *)
Definition literal (n d : Z) : double := div (of_int n) (of_int d).
End F64.

(** implicit conversions [float -> double] (exact) and [double -> float] *)
Definition to_double (x : float) : double := F64.round x.
Definition to_float (x : double) : float := F32.round x.

(** [std::max(a, b)] is [(a < b) ? b : a], [std::min(a, b)] is [(b < a) ? b : a] *)
Definition std_max (a c : float) : float := if F32.ltb a c then c else a.
Definition std_min (a c : float) : float := if F32.ltb c a then c else a.

#[global] Instance float_inhabited : Inhabited float := populate F32.zero.

(** ** Loops *)

Definition for_each {I S : Type} (l : list I) (body : I -> S -> S) (s : S) : S :=
  fold_left (fun acc i => body i acc) l s.

(** indices of [for (i = lo; i < hi; i++)] *)
Definition range (lo hi : nat) : list nat := seq lo (hi - lo).

(** index pairs of two nested loops under [collapse(2)], outer index first *)
Definition collapse2 (xlo xhi ylo yhi : nat) : list (nat * nat) :=
  flat_map (fun x => map (pair x) (range ylo yhi)) (range xlo xhi).

(** ** Assertions *)

Inductive outcome (A : Type) : Type :=
| Done (a : A)
| Aborted (a : A).
Arguments Done {A} a.
Arguments Aborted {A} a.

Definition assert {A : Type} (c : bool) (a : A) : outcome A :=
  if c then Done a else Aborted a.

Definition bind {A : Type} (o : outcome A) (k : A -> outcome A) : outcome A :=
  match o with
  | Done a => k a
  | Aborted a => Aborted a
  end.

Definition state_of {A : Type} (o : outcome A) : A :=
  match o with
  | Done a => a
  | Aborted a => a
  end.

(** ** Grid buffers *)

(** Modelled from the spec: tools/Float2DNative.hh is not among the sources.
    A field is a column-major array: the element [(x, y)] lies at the linear
    offset [x * rows + y], the constructor allocates [cols * rows] zeros, and
    [operator[]] and [getRawPointer] address that one storage. An access past
    the end is undefined in C++; here a read past the end gives zero and a
    write past the end does nothing, and the theorems are about allocated
    fields. *)
Module Float2D.
Record t : Type := mk { cols : nat; rows : nat; elem : list float }.

Definition new (c r : nat) : t := mk c r (replicate (c * r) F32.zero).

Definition index (f : t) (x y : nat) : nat := x * rows f + y.

(** [f[x][y]] as a value *)
Definition get (f : t) (x y : nat) : float := elem f !!! index f x y.

(** [f[x][y] = v] *)
Definition set (f : t) (x y : nat) (v : float) : t :=
  mk (cols f) (rows f) (<[index f x y := v]> (elem f)).

(** [memcpy(f[xd], f[xs], sizeof(float) * n)] *)
Definition memcpy (f : t) (xd xs n : nat) : t :=
  mk (cols f) (rows f)
     (list_inserts (index f xd 0) (take n (drop (index f xs 0) (elem f))) (elem f)).

Definition allocated (f : t) (c r : nat) : Prop :=
  cols f = c /\ rows f = r /\ length (elem f) = c * r.
End Float2D.
Abbreviation Float2D := Float2D.t.

(** ** Boundaries *)

(** Modelled from the spec: types/Boundary.hh is not among the sources; the
    edges and the boundary types are the ones the spec and the switches of
    applyBoundaryConditions name. *)
Inductive Boundary : Type := BND_LEFT | BND_RIGHT | BND_BOTTOM | BND_TOP.
Inductive BoundaryType : Type := OUTFLOW | WALL | CONNECT | PASSIVE.

#[global] Instance Boundary_eq_dec : EqDecision Boundary.
Proof. solve_decision. Defined.
#[global] Instance BoundaryType_eq_dec : EqDecision BoundaryType.
Proof. solve_decision. Defined.

(** ** External collaborators *)

(** The Riemann solver (solvers/Hybrid.hpp) is not among the sources: the
    model takes it as a function of the six inputs of an edge. *)
Record RiemannSolution : Type := mkRiemannSolution {
  hUpdateLeft : float;
  hUpdateRight : float;
  huUpdateLeft : float;
  huUpdateRight : float;
  waveSpeed : float
}.

Definition Hybrid : Type :=
  float -> float -> float -> float -> float -> float -> RiemannSolution.

Record NetUpdates : Type := mkNetUpdates {
  o_hUpdateLeft : float;
  o_hUpdateRight : float;
  o_huUpdateLeft : float;
  o_huUpdateRight : float;
  o_maxWaveSpeed : float
}.

(** Modelled from the spec: what solver.computeNetUpdates does with its
    in-out argument. It writes the four updates of the edge and sets the
    reduction variable to [max(., wavespeed)]. *)
Definition computeNetUpdates (solver : Hybrid) (hL hR huL huR bL bR : float)
    (maxWaveSpeed : float) : NetUpdates :=
  let r := solver hL hR huL huR bL bR in
  mkNetUpdates (hUpdateLeft r) (hUpdateRight r) (huUpdateLeft r) (huUpdateRight r)
               (std_max maxWaveSpeed (waveSpeed r)).

(** scenarios/SWE_Scenario.hh is not among the sources: four functions of a
    point *)
Record SWE_Scenario : Type := mkScenario {
  getBathymetry : float -> float -> float;
  getWaterHeight : float -> float -> float;
  getVeloc_u : float -> float -> float;
  getVeloc_v : float -> float -> float
}.

(** Modelled from the spec: writer/NetCdfWriter.hh is not among the sources;
    [writeTimeStep(h, hu, hv, t)] appends a time slice, so the writer is the
    list of the slices written so far. *)
Record TimeSlice : Type := mkTimeSlice {
  slice_h : Float2D;
  slice_hu : Float2D;
  slice_hv : Float2D;
  slice_time : float
}.
Definition NetCdfWriter : Type := list TimeSlice.
Definition writeTimeStep (w : NetCdfWriter) (fh fhu fhv : Float2D) (t : float)
    : NetCdfWriter :=
  w ++ [mkTimeSlice fh fhu fhv t].

(** ** Copy-layer messages *)

Module copyLayer.
Record t : Type := mk {
  boundary : Boundary;
  containsBathymetry : bool;
  b : list float;
  h : list float;
  hu : list float;
  hv : list float
}.
Definition set_b (v : list float) (m : t) : t :=
  mk (boundary m) (containsBathymetry m) v (h m) (hu m) (hv m).
Definition set_h (v : list float) (m : t) : t :=
  mk (boundary m) (containsBathymetry m) (b m) v (hu m) (hv m).
Definition set_hu (v : list float) (m : t) : t :=
  mk (boundary m) (containsBathymetry m) (b m) (h m) v (hv m).
Definition set_hv (v : list float) (m : t) : t :=
  mk (boundary m) (containsBathymetry m) (b m) (h m) (hu m) v.
End copyLayer.
Abbreviation copyLayer := copyLayer.t.

(** ** The block *)

Record Block : Type := mkBlock {
  (* SWE_Block *)
  nx : nat;
  ny : nat;
  dx : float;
  dy : float;
  originX : float;
  originY : float;
  maxTimestep : float;
  h : Float2D;
  hu : Float2D;
  hv : Float2D;
  b : Float2D;
  boundaryType : Boundary -> BoundaryType;
  (* SWE_DimensionalSplittingCharm *)
  solver : Hybrid;
  checkpointInstantOfTime : list float;
  writer : NetCdfWriter;
  currentSimulationTime : float;
  currentCheckpoint : nat;
  hNetUpdatesLeft : Float2D;
  hNetUpdatesRight : Float2D;
  huNetUpdatesLeft : Float2D;
  huNetUpdatesRight : Float2D;
  hNetUpdatesBelow : Float2D;
  hNetUpdatesAbove : Float2D;
  hvNetUpdatesBelow : Float2D;
  hvNetUpdatesAbove : Float2D;
  neighbourIndex : Boundary -> Z
}.

Definition set_maxTimestep (v : float) (s : Block) : Block :=
  mkBlock (nx s) (ny s) (dx s) (dy s) (originX s) (originY s) v
    (h s) (hu s) (hv s) (b s) (boundaryType s)
    (solver s) (checkpointInstantOfTime s) (writer s) (currentSimulationTime s) (currentCheckpoint s)
    (hNetUpdatesLeft s) (hNetUpdatesRight s) (huNetUpdatesLeft s) (huNetUpdatesRight s)
    (hNetUpdatesBelow s) (hNetUpdatesAbove s) (hvNetUpdatesBelow s) (hvNetUpdatesAbove s)
    (neighbourIndex s).

Definition set_h (v : Float2D) (s : Block) : Block :=
  mkBlock (nx s) (ny s) (dx s) (dy s) (originX s) (originY s) (maxTimestep s)
    v (hu s) (hv s) (b s) (boundaryType s)
    (solver s) (checkpointInstantOfTime s) (writer s) (currentSimulationTime s) (currentCheckpoint s)
    (hNetUpdatesLeft s) (hNetUpdatesRight s) (huNetUpdatesLeft s) (huNetUpdatesRight s)
    (hNetUpdatesBelow s) (hNetUpdatesAbove s) (hvNetUpdatesBelow s) (hvNetUpdatesAbove s)
    (neighbourIndex s).

Definition set_hu (v : Float2D) (s : Block) : Block :=
  mkBlock (nx s) (ny s) (dx s) (dy s) (originX s) (originY s) (maxTimestep s)
    (h s) v (hv s) (b s) (boundaryType s)
    (solver s) (checkpointInstantOfTime s) (writer s) (currentSimulationTime s) (currentCheckpoint s)
    (hNetUpdatesLeft s) (hNetUpdatesRight s) (huNetUpdatesLeft s) (huNetUpdatesRight s)
    (hNetUpdatesBelow s) (hNetUpdatesAbove s) (hvNetUpdatesBelow s) (hvNetUpdatesAbove s)
    (neighbourIndex s).

Definition set_hv (v : Float2D) (s : Block) : Block :=
  mkBlock (nx s) (ny s) (dx s) (dy s) (originX s) (originY s) (maxTimestep s)
    (h s) (hu s) v (b s) (boundaryType s)
    (solver s) (checkpointInstantOfTime s) (writer s) (currentSimulationTime s) (currentCheckpoint s)
    (hNetUpdatesLeft s) (hNetUpdatesRight s) (huNetUpdatesLeft s) (huNetUpdatesRight s)
    (hNetUpdatesBelow s) (hNetUpdatesAbove s) (hvNetUpdatesBelow s) (hvNetUpdatesAbove s)
    (neighbourIndex s).

Definition set_b (v : Float2D) (s : Block) : Block :=
  mkBlock (nx s) (ny s) (dx s) (dy s) (originX s) (originY s) (maxTimestep s)
    (h s) (hu s) (hv s) v (boundaryType s)
    (solver s) (checkpointInstantOfTime s) (writer s) (currentSimulationTime s) (currentCheckpoint s)
    (hNetUpdatesLeft s) (hNetUpdatesRight s) (huNetUpdatesLeft s) (huNetUpdatesRight s)
    (hNetUpdatesBelow s) (hNetUpdatesAbove s) (hvNetUpdatesBelow s) (hvNetUpdatesAbove s)
    (neighbourIndex s).

Definition set_boundaryType (v : Boundary -> BoundaryType) (s : Block) : Block :=
  mkBlock (nx s) (ny s) (dx s) (dy s) (originX s) (originY s) (maxTimestep s)
    (h s) (hu s) (hv s) (b s) v
    (solver s) (checkpointInstantOfTime s) (writer s) (currentSimulationTime s) (currentCheckpoint s)
    (hNetUpdatesLeft s) (hNetUpdatesRight s) (huNetUpdatesLeft s) (huNetUpdatesRight s)
    (hNetUpdatesBelow s) (hNetUpdatesAbove s) (hvNetUpdatesBelow s) (hvNetUpdatesAbove s)
    (neighbourIndex s).

Definition set_writer (v : NetCdfWriter) (s : Block) : Block :=
  mkBlock (nx s) (ny s) (dx s) (dy s) (originX s) (originY s) (maxTimestep s)
    (h s) (hu s) (hv s) (b s) (boundaryType s)
    (solver s) (checkpointInstantOfTime s) v (currentSimulationTime s) (currentCheckpoint s)
    (hNetUpdatesLeft s) (hNetUpdatesRight s) (huNetUpdatesLeft s) (huNetUpdatesRight s)
    (hNetUpdatesBelow s) (hNetUpdatesAbove s) (hvNetUpdatesBelow s) (hvNetUpdatesAbove s)
    (neighbourIndex s).

Definition set_currentSimulationTime (v : float) (s : Block) : Block :=
  mkBlock (nx s) (ny s) (dx s) (dy s) (originX s) (originY s) (maxTimestep s)
    (h s) (hu s) (hv s) (b s) (boundaryType s)
    (solver s) (checkpointInstantOfTime s) (writer s) v (currentCheckpoint s)
    (hNetUpdatesLeft s) (hNetUpdatesRight s) (huNetUpdatesLeft s) (huNetUpdatesRight s)
    (hNetUpdatesBelow s) (hNetUpdatesAbove s) (hvNetUpdatesBelow s) (hvNetUpdatesAbove s)
    (neighbourIndex s).

Definition set_currentCheckpoint (v : nat) (s : Block) : Block :=
  mkBlock (nx s) (ny s) (dx s) (dy s) (originX s) (originY s) (maxTimestep s)
    (h s) (hu s) (hv s) (b s) (boundaryType s)
    (solver s) (checkpointInstantOfTime s) (writer s) (currentSimulationTime s) v
    (hNetUpdatesLeft s) (hNetUpdatesRight s) (huNetUpdatesLeft s) (huNetUpdatesRight s)
    (hNetUpdatesBelow s) (hNetUpdatesAbove s) (hvNetUpdatesBelow s) (hvNetUpdatesAbove s)
    (neighbourIndex s).

Definition set_hNetUpdatesLeft (v : Float2D) (s : Block) : Block :=
  mkBlock (nx s) (ny s) (dx s) (dy s) (originX s) (originY s) (maxTimestep s)
    (h s) (hu s) (hv s) (b s) (boundaryType s)
    (solver s) (checkpointInstantOfTime s) (writer s) (currentSimulationTime s) (currentCheckpoint s)
    v (hNetUpdatesRight s) (huNetUpdatesLeft s) (huNetUpdatesRight s)
    (hNetUpdatesBelow s) (hNetUpdatesAbove s) (hvNetUpdatesBelow s) (hvNetUpdatesAbove s)
    (neighbourIndex s).

Definition set_hNetUpdatesRight (v : Float2D) (s : Block) : Block :=
  mkBlock (nx s) (ny s) (dx s) (dy s) (originX s) (originY s) (maxTimestep s)
    (h s) (hu s) (hv s) (b s) (boundaryType s)
    (solver s) (checkpointInstantOfTime s) (writer s) (currentSimulationTime s) (currentCheckpoint s)
    (hNetUpdatesLeft s) v (huNetUpdatesLeft s) (huNetUpdatesRight s)
    (hNetUpdatesBelow s) (hNetUpdatesAbove s) (hvNetUpdatesBelow s) (hvNetUpdatesAbove s)
    (neighbourIndex s).

Definition set_huNetUpdatesLeft (v : Float2D) (s : Block) : Block :=
  mkBlock (nx s) (ny s) (dx s) (dy s) (originX s) (originY s) (maxTimestep s)
    (h s) (hu s) (hv s) (b s) (boundaryType s)
    (solver s) (checkpointInstantOfTime s) (writer s) (currentSimulationTime s) (currentCheckpoint s)
    (hNetUpdatesLeft s) (hNetUpdatesRight s) v (huNetUpdatesRight s)
    (hNetUpdatesBelow s) (hNetUpdatesAbove s) (hvNetUpdatesBelow s) (hvNetUpdatesAbove s)
    (neighbourIndex s).

Definition set_huNetUpdatesRight (v : Float2D) (s : Block) : Block :=
  mkBlock (nx s) (ny s) (dx s) (dy s) (originX s) (originY s) (maxTimestep s)
    (h s) (hu s) (hv s) (b s) (boundaryType s)
    (solver s) (checkpointInstantOfTime s) (writer s) (currentSimulationTime s) (currentCheckpoint s)
    (hNetUpdatesLeft s) (hNetUpdatesRight s) (huNetUpdatesLeft s) v
    (hNetUpdatesBelow s) (hNetUpdatesAbove s) (hvNetUpdatesBelow s) (hvNetUpdatesAbove s)
    (neighbourIndex s).

Definition set_hNetUpdatesBelow (v : Float2D) (s : Block) : Block :=
  mkBlock (nx s) (ny s) (dx s) (dy s) (originX s) (originY s) (maxTimestep s)
    (h s) (hu s) (hv s) (b s) (boundaryType s)
    (solver s) (checkpointInstantOfTime s) (writer s) (currentSimulationTime s) (currentCheckpoint s)
    (hNetUpdatesLeft s) (hNetUpdatesRight s) (huNetUpdatesLeft s) (huNetUpdatesRight s)
    v (hNetUpdatesAbove s) (hvNetUpdatesBelow s) (hvNetUpdatesAbove s)
    (neighbourIndex s).

Definition set_hNetUpdatesAbove (v : Float2D) (s : Block) : Block :=
  mkBlock (nx s) (ny s) (dx s) (dy s) (originX s) (originY s) (maxTimestep s)
    (h s) (hu s) (hv s) (b s) (boundaryType s)
    (solver s) (checkpointInstantOfTime s) (writer s) (currentSimulationTime s) (currentCheckpoint s)
    (hNetUpdatesLeft s) (hNetUpdatesRight s) (huNetUpdatesLeft s) (huNetUpdatesRight s)
    (hNetUpdatesBelow s) v (hvNetUpdatesBelow s) (hvNetUpdatesAbove s)
    (neighbourIndex s).

Definition set_hvNetUpdatesBelow (v : Float2D) (s : Block) : Block :=
  mkBlock (nx s) (ny s) (dx s) (dy s) (originX s) (originY s) (maxTimestep s)
    (h s) (hu s) (hv s) (b s) (boundaryType s)
    (solver s) (checkpointInstantOfTime s) (writer s) (currentSimulationTime s) (currentCheckpoint s)
    (hNetUpdatesLeft s) (hNetUpdatesRight s) (huNetUpdatesLeft s) (huNetUpdatesRight s)
    (hNetUpdatesBelow s) (hNetUpdatesAbove s) v (hvNetUpdatesAbove s)
    (neighbourIndex s).

Definition set_hvNetUpdatesAbove (v : Float2D) (s : Block) : Block :=
  mkBlock (nx s) (ny s) (dx s) (dy s) (originX s) (originY s) (maxTimestep s)
    (h s) (hu s) (hv s) (b s) (boundaryType s)
    (solver s) (checkpointInstantOfTime s) (writer s) (currentSimulationTime s) (currentCheckpoint s)
    (hNetUpdatesLeft s) (hNetUpdatesRight s) (huNetUpdatesLeft s) (huNetUpdatesRight s)
    (hNetUpdatesBelow s) (hNetUpdatesAbove s) (hvNetUpdatesBelow s) v
    (neighbourIndex s).

(** the fields as the constructors allocate them *)
Record allocated (s : Block) : Prop := mkAllocated {
  alloc_h : Float2D.allocated (h s) (nx s + 2) (ny s + 2);
  alloc_hu : Float2D.allocated (hu s) (nx s + 2) (ny s + 2);
  alloc_hv : Float2D.allocated (hv s) (nx s + 2) (ny s + 2);
  alloc_b : Float2D.allocated (b s) (nx s + 2) (ny s + 2);
  alloc_hNetUpdatesLeft : Float2D.allocated (hNetUpdatesLeft s) (nx s + 2) (ny s + 2);
  alloc_hNetUpdatesRight : Float2D.allocated (hNetUpdatesRight s) (nx s + 2) (ny s + 2);
  alloc_huNetUpdatesLeft : Float2D.allocated (huNetUpdatesLeft s) (nx s + 2) (ny s + 2);
  alloc_huNetUpdatesRight : Float2D.allocated (huNetUpdatesRight s) (nx s + 2) (ny s + 2);
  alloc_hNetUpdatesBelow : Float2D.allocated (hNetUpdatesBelow s) (nx s + 1) (ny s + 2);
  alloc_hNetUpdatesAbove : Float2D.allocated (hNetUpdatesAbove s) (nx s + 1) (ny s + 2);
  alloc_hvNetUpdatesBelow : Float2D.allocated (hvNetUpdatesBelow s) (nx s + 1) (ny s + 2);
  alloc_hvNetUpdatesAbove : Float2D.allocated (hvNetUpdatesAbove s) (nx s + 1) (ny s + 2)
}.

(** ** SWE_Block *)

Definition setBoundaryType (boundary : Boundary) (type : BoundaryType) (s : Block)
    : Block :=
  set_boundaryType
    (fun e => if decide (e = boundary) then type else boundaryType s e) s.

Definition isOutflowOrWall (t : BoundaryType) : bool :=
  bool_decide (t = OUTFLOW) || bool_decide (t = WALL).

(** the four conditionals of applyBoundaryBathymetry and its corner block,
    in source order *)
Definition leftBathymetry (s : Block) : Block :=
  if isOutflowOrWall (boundaryType s BND_LEFT)
  then set_b (Float2D.memcpy (b s) 0 1 (ny s + 2)) s
  else s.

Definition rightBathymetry (s : Block) : Block :=
  if isOutflowOrWall (boundaryType s BND_RIGHT)
  then set_b (Float2D.memcpy (b s) (nx s + 1) (nx s) (ny s + 2)) s
  else s.

Definition bottomBathymetry (s : Block) : Block :=
  if isOutflowOrWall (boundaryType s BND_BOTTOM)
  then for_each (range 0 (nx s + 2))
         (fun i s => set_b (Float2D.set (b s) i 0 (Float2D.get (b s) i 1)) s) s
  else s.

Definition topBathymetry (s : Block) : Block :=
  let m := ny s in
  if isOutflowOrWall (boundaryType s BND_TOP)
  then for_each (range 0 (nx s + 2))
         (fun i s => set_b (Float2D.set (b s) i (m + 1) (Float2D.get (b s) i m)) s) s
  else s.

Definition cornerBathymetry (s : Block) : Block :=
  let n := nx s in
  let m := ny s in
  let s := set_b (Float2D.set (b s) 0 0 (Float2D.get (b s) 1 1)) s in
  let s := set_b (Float2D.set (b s) 0 (m + 1) (Float2D.get (b s) 1 m)) s in
  let s := set_b (Float2D.set (b s) (n + 1) 0 (Float2D.get (b s) n 1)) s in
  set_b (Float2D.set (b s) (n + 1) (m + 1) (Float2D.get (b s) n m)) s.

Definition applyBoundaryBathymetry (s : Block) : Block :=
  let s := leftBathymetry s in
  let s := rightBathymetry s in
  let s := bottomBathymetry s in
  let s := topBathymetry s in
  cornerBathymetry s.

(** one pass of a ghost-strip loop: the ghost cell [(xg, yg)] takes [h] and
    the two momenta of the cell [(xi, yi)]; [fu] and [fv] are the identity
    [keep] or the negation, as the boundary type asks *)
Definition copyCell (fu fv : float -> float) (xg yg xi yi : nat) (s : Block) : Block :=
  let s := set_h (Float2D.set (h s) xg yg (Float2D.get (h s) xi yi)) s in
  let s := set_hu (Float2D.set (hu s) xg yg (fu (Float2D.get (hu s) xi yi))) s in
  set_hv (Float2D.set (hv s) xg yg (fv (Float2D.get (hv s) xi yi))) s.

Definition keep (v : float) : float := v.

(** The four switches of applyBoundaryConditions and its corner block, in
    source order. The boundary types are the four of [BoundaryType], so the
    [default: assert(false)] branches have no counterpart. *)
Definition leftBoundary (s : Block) : Block :=
  match boundaryType s BND_LEFT with
  | WALL => for_each (range 1 (ny s + 1)) (fun j => copyCell F32.opp keep 0 j 1 j) s
  | OUTFLOW => for_each (range 1 (ny s + 1)) (fun j => copyCell keep keep 0 j 1 j) s
  | CONNECT | PASSIVE => s
  end.

Definition rightBoundary (s : Block) : Block :=
  match boundaryType s BND_RIGHT with
  | WALL =>
      for_each (range 1 (ny s + 1))
        (fun j => copyCell F32.opp keep (nx s + 1) j (nx s) j) s
  | OUTFLOW =>
      for_each (range 1 (ny s + 1))
        (fun j => copyCell keep keep (nx s + 1) j (nx s) j) s
  | CONNECT | PASSIVE => s
  end.

Definition bottomBoundary (s : Block) : Block :=
  match boundaryType s BND_BOTTOM with
  | WALL => for_each (range 1 (nx s + 1)) (fun i => copyCell keep F32.opp i 0 i 1) s
  | OUTFLOW => for_each (range 1 (nx s + 1)) (fun i => copyCell keep keep i 0 i 1) s
  | CONNECT | PASSIVE => s
  end.

Definition topBoundary (s : Block) : Block :=
  match boundaryType s BND_TOP with
  | WALL =>
      for_each (range 1 (nx s + 1))
        (fun i => copyCell keep F32.opp i (ny s + 1) i (ny s)) s
  | OUTFLOW =>
      for_each (range 1 (nx s + 1))
        (fun i => copyCell keep keep i (ny s + 1) i (ny s)) s
  | CONNECT | PASSIVE => s
  end.

Definition cornerGhostCells (s : Block) : Block :=
  let n := nx s in
  let m := ny s in
  let s := copyCell keep keep 0 0 1 1 s in
  let s := copyCell keep keep 0 (m + 1) 1 m s in
  let s := copyCell keep keep (n + 1) 0 n 1 s in
  copyCell keep keep (n + 1) (m + 1) n m s.

Definition applyBoundaryConditions (s : Block) : Block :=
  let s := leftBoundary s in
  let s := rightBoundary s in
  let s := bottomBoundary s in
  let s := topBoundary s in
  cornerGhostCells s.

(** the constructor: the four fields are allocated with zeros, every boundary
    is PASSIVE. [maxTimestep] is left uninitialised by both constructors;
    [uninit] stands for the value its storage holds. *)
Definition SWE_Block_new (uninit : float) (slv : Hybrid)
    (cellCountHorizontal cellCountVertical : nat)
    (cellSizeHorizontal cellSizeVertical oX oY : float) : Block :=
  let field := Float2D.new (cellCountHorizontal + 2) (cellCountVertical + 2) in
  let empty := Float2D.mk 0 0 [] in
  mkBlock cellCountHorizontal cellCountVertical cellSizeHorizontal cellSizeVertical
    oX oY uninit
    field field field field (fun _ => PASSIVE)
    slv [] [] F32.zero 0
    empty empty empty empty
    empty empty empty empty (fun _ => (-1)%Z).

(** centre of the cell with index [k] along an axis:
    [(float) origin + (k - 0.5) * d], computed in double precision and stored
    in a [float] *)
Definition cellCentre (origin d : float) (k : nat) : float :=
  to_float
    (F64.add (to_double origin)
       (F64.mul (F64.sub (F64.of_int (Z.of_nat k)) (F64.literal 5 10)) (to_double d))).

Definition initScenarioCell (scenario : SWE_Scenario) (ij : nat * nat) (s : Block)
    : Block :=
  let i := fst ij in
  let j := snd ij in
  let x := cellCentre (originX s) (dx s) j in
  let y := cellCentre (originY s) (dy s) i in
  let s := set_b (Float2D.set (b s) j i (getBathymetry scenario x y)) s in
  let s := set_h (Float2D.set (h s) j i (getWaterHeight scenario x y)) s in
  let s :=
    set_hu (Float2D.set (hu s) j i
              (F32.mul (getVeloc_u scenario x y) (Float2D.get (h s) j i))) s in
  set_hv (Float2D.set (hv s) j i
            (F32.mul (getVeloc_v scenario x y) (Float2D.get (h s) j i))) s.

Definition initScenario (scenario : SWE_Scenario)
    (boundaries : Boundary -> BoundaryType) (s : Block) : Block :=
  let s :=
    for_each (collapse2 1 (ny s + 1) 1 (nx s + 1)) (initScenarioCell scenario) s in
  let s := set_boundaryType boundaries s in
  let s := applyBoundaryConditions s in
  applyBoundaryBathymetry s.

(** ** SWE_DimensionalSplittingCharm *)

Definition writeTimestep (s : Block) : Block :=
  set_writer (writeTimeStep (writer s) (h s) (hu s) (hv s) (currentSimulationTime s)) s.

Definition setGhostLayer (s : Block) : Block := applyBoundaryConditions s.

(** the checkpoint instants, as the constructor fills the new array *)
Definition checkpointSchedule (simulationDuration : float) (checkpointCount : nat)
    : list float :=
  let checkpointInstantOfTime := replicate checkpointCount F32.zero in
  let checkpointTimeDelta :=
    F32.div simulationDuration (F32.of_int (Z.of_nat checkpointCount)) in
  let checkpointInstantOfTime := <[0 := checkpointTimeDelta]> checkpointInstantOfTime in
  for_each (range 1 checkpointCount)
    (fun i a => <[i := F32.add (a !!! (i - 1)) checkpointTimeDelta]> a)
    checkpointInstantOfTime.

(** the globals of the launcher that the constructor reads, and the index of
    the chare *)
Record Launcher : Type := mkLauncher {
  thisIndex : Z;
  blockCountX : Z;
  blockCountY : Z;
  simulationDuration : float;
  checkpointCount : nat
}.

(** the largest [int] *)
Definition INT_MAX : Z := 2147483647.

(** the result of a sum or a difference of [int]s: the 32 bits of an [int],
    read in two's complement *)
Definition int_wrap (z : Z) : Z :=
  ((z + 2147483648) mod 4294967296 - 2147483648)%Z.

Definition neighbours (g : Launcher) (posX posY : Z) (e : Boundary) : Z :=
  match e with
  | BND_LEFT =>
      if (0 <? posX)%Z then int_wrap (thisIndex g - blockCountY g) else (-1)%Z
  | BND_RIGHT =>
      if (posX <? int_wrap (blockCountX g - 1))%Z
      then int_wrap (thisIndex g + blockCountY g) else (-1)%Z
  | BND_BOTTOM => if (0 <? posY)%Z then int_wrap (thisIndex g - 1) else (-1)%Z
  | BND_TOP =>
      if (posY <? int_wrap (blockCountY g - 1))%Z
      then int_wrap (thisIndex g + 1) else (-1)%Z
  end.

Definition SWE_DimensionalSplittingCharm_new (g : Launcher) (uninit : float)
    (slv : Hybrid) (scenario : SWE_Scenario)
    (cellCountHorizontal cellCountVertical : nat)
    (cellSizeHorizontal cellSizeVertical oX oY : float) (posX posY : Z)
    (boundaries : Boundary -> BoundaryType) : Block :=
  let s :=
    SWE_Block_new uninit slv cellCountHorizontal cellCountVertical
      cellSizeHorizontal cellSizeVertical oX oY in
  let xfield := Float2D.new (cellCountHorizontal + 2) (cellCountVertical + 2) in
  let yfield := Float2D.new (cellCountHorizontal + 1) (cellCountVertical + 2) in
  let s :=
    mkBlock (nx s) (ny s) (dx s) (dy s) (originX s) (originY s) (maxTimestep s)
      (h s) (hu s) (hv s) (b s) (boundaryType s)
      (solver s) [] [] F32.zero 0
      xfield xfield xfield xfield
      yfield yfield yfield yfield
      (neighbours g posX posY) in
  let s :=
    mkBlock (nx s) (ny s) (dx s) (dy s) (originX s) (originY s) (maxTimestep s)
      (h s) (hu s) (hv s) (b s) (boundaryType s)
      (solver s) (checkpointSchedule (simulationDuration g) (checkpointCount g))
      (writer s) (currentSimulationTime s) (currentCheckpoint s)
      (hNetUpdatesLeft s) (hNetUpdatesRight s) (huNetUpdatesLeft s) (huNetUpdatesRight s)
      (hNetUpdatesBelow s) (hNetUpdatesAbove s) (hvNetUpdatesBelow s)
      (hvNetUpdatesAbove s) (neighbourIndex s) in
  let s := initScenario scenario boundaries s in
  (* output at t=0 *)
  writeTimestep s.

(** one edge of the x-sweep, between the cells [(x, y)] and [(x+1, y)] *)
Definition xSweepEdge (xy : nat * nat) (st : Block * float) : Block * float :=
  let x := fst xy in
  let y := snd xy in
  let s := fst st in
  let maxHorizontalWaveSpeed := snd st in
  let u :=
    computeNetUpdates (solver s)
      (Float2D.get (h s) x y) (Float2D.get (h s) (x + 1) y)
      (Float2D.get (hu s) x y) (Float2D.get (hu s) (x + 1) y)
      (Float2D.get (b s) x y) (Float2D.get (b s) (x + 1) y)
      maxHorizontalWaveSpeed in
  let s := set_hNetUpdatesLeft (Float2D.set (hNetUpdatesLeft s) x y (o_hUpdateLeft u)) s in
  let s :=
    set_hNetUpdatesRight
      (Float2D.set (hNetUpdatesRight s) (x + 1) y (o_hUpdateRight u)) s in
  let s :=
    set_huNetUpdatesLeft (Float2D.set (huNetUpdatesLeft s) x y (o_huUpdateLeft u)) s in
  let s :=
    set_huNetUpdatesRight
      (Float2D.set (huNetUpdatesRight s) (x + 1) y (o_huUpdateRight u)) s in
  (s, o_maxWaveSpeed u).

(** one edge of the y-sweep, between the cells [(x, y)] and [(x, y+1)] *)
Definition ySweepEdge (xy : nat * nat) (st : Block * float) : Block * float :=
  let x := fst xy in
  let y := snd xy in
  let s := fst st in
  let maxVerticalWaveSpeed := snd st in
  let u :=
    computeNetUpdates (solver s)
      (Float2D.get (h s) x y) (Float2D.get (h s) x (y + 1))
      (Float2D.get (hv s) x y) (Float2D.get (hv s) x (y + 1))
      (Float2D.get (b s) x y) (Float2D.get (b s) x (y + 1))
      maxVerticalWaveSpeed in
  let s :=
    set_hNetUpdatesBelow (Float2D.set (hNetUpdatesBelow s) x y (o_hUpdateLeft u)) s in
  let s :=
    set_hNetUpdatesAbove
      (Float2D.set (hNetUpdatesAbove s) x (y + 1) (o_hUpdateRight u)) s in
  let s :=
    set_hvNetUpdatesBelow (Float2D.set (hvNetUpdatesBelow s) x y (o_huUpdateLeft u)) s in
  let s :=
    set_hvNetUpdatesAbove
      (Float2D.set (hvNetUpdatesAbove s) x (y + 1) (o_huUpdateRight u)) s in
  (s, o_maxWaveSpeed u).

Definition xSweep (s : Block) : Block * float :=
  for_each (collapse2 0 (nx s + 1) 1 (ny s + 1)) xSweepEdge (s, F32.zero).

Definition ySweep (s : Block) : Block * float :=
  for_each (collapse2 1 (nx s + 1) 0 (ny s + 1)) ySweepEdge (s, F32.zero).

(** the time step of the cautious CFL condition, as the source computes it
    from the two maximal wave speeds: [.4] and the product are [double]s *)
Definition cflTimestep (cellSizeHorizontal cellSizeVertical : float)
    (maxHorizontalWaveSpeed maxVerticalWaveSpeed : float) : float :=
  let maxWaveSpeed := std_max maxHorizontalWaveSpeed maxVerticalWaveSpeed in
  let maxTimestep :=
    std_min (F32.div cellSizeHorizontal maxWaveSpeed)
            (F32.div cellSizeVertical maxWaveSpeed) in
  to_float (F64.mul (to_double maxTimestep) (F64.literal 4 10)).

(** the value the block contributes to the minimum reduction is the
    [maxTimestep] of the resulting state *)
Definition computeNumericalFluxes (s : Block) : outcome Block :=
  let xs := xSweep s in
  let maxHorizontalWaveSpeed := snd xs in
  let ys := ySweep (fst xs) in
  let maxVerticalWaveSpeed := snd ys in
  let s := fst ys in
  let s :=
    set_maxTimestep
      (cflTimestep (dx s) (dy s) maxHorizontalWaveSpeed maxVerticalWaveSpeed) s in
  (* check if the cfl condition holds in the y-direction *)
  assert
    (F32.ltb (maxTimestep s)
       (F32.mul (to_float (F64.literal 5 10)) (F32.div (dy s) maxVerticalWaveSpeed)))
    s.

Definition reduceWaveSpeed (maxWaveSpeed : float) (s : Block) : Block :=
  set_maxTimestep maxWaveSpeed s.

(** [std::abs(dt - maxTimestep) < 0.00001]: the difference and its absolute
    value are [float]s, the comparison with the literal is in [double] *)
Definition timestepAgrees (dt : float) (s : Block) : bool :=
  F64.ltb (to_double (F32.abs (F32.sub dt (maxTimestep s)))) (F64.literal 1 100000).

Definition updateUnknownsCell (dt : float) (xy : nat * nat) (s : Block) : Block :=
  let x := fst xy in
  let y := snd xy in
  let s :=
    set_h
      (Float2D.set (h s) x y
         (F32.sub (Float2D.get (h s) x y)
            (F32.add
               (F32.mul (F32.div dt (dx s))
                  (F32.add (Float2D.get (hNetUpdatesRight s) x y)
                           (Float2D.get (hNetUpdatesLeft s) x y)))
               (F32.mul (F32.div dt (dy s))
                  (F32.add (Float2D.get (hNetUpdatesAbove s) x y)
                           (Float2D.get (hNetUpdatesBelow s) x y)))))) s in
  let s :=
    set_hu
      (Float2D.set (hu s) x y
         (F32.sub (Float2D.get (hu s) x y)
            (F32.mul (F32.div dt (dx s))
               (F32.add (Float2D.get (huNetUpdatesRight s) x y)
                        (Float2D.get (huNetUpdatesLeft s) x y))))) s in
  set_hv
    (Float2D.set (hv s) x y
       (F32.sub (Float2D.get (hv s) x y)
          (F32.mul (F32.div dt (dy s))
             (F32.add (Float2D.get (hvNetUpdatesAbove s) x y)
                      (Float2D.get (hvNetUpdatesBelow s) x y))))) s.

Definition updateUnknowns (dt : float) (s : Block) : outcome Block :=
  bind (assert (timestepAgrees dt s) s)
    (fun s => Done (for_each (collapse2 1 (nx s + 1) 1 (ny s + 1))
                      (updateUnknownsCell dt) s)).

(** one pass of an unpacking loop: the ghost cell [(xg, yg)] takes the
    [i]-th sample of the message *)
Definition unpackCell (msg : copyLayer) (i xg yg : nat) (s : Block) : Block :=
  let s :=
    if copyLayer.containsBathymetry msg
    then set_b (Float2D.set (b s) xg yg (copyLayer.b msg !!! i)) s
    else s in
  let s := set_h (Float2D.set (h s) xg yg (copyLayer.h msg !!! i)) s in
  let s := set_hu (Float2D.set (hu s) xg yg (copyLayer.hu msg !!! i)) s in
  set_hv (Float2D.set (hv s) xg yg (copyLayer.hv msg !!! i)) s.

Definition processCopyLayer (msg : copyLayer) (s : Block) : Block :=
  (* LEFT ghost layer consists of values from the left neighbours RIGHT copy
     layer etc. *)
  if bool_decide (copyLayer.boundary msg = BND_RIGHT)
     && bool_decide (boundaryType s BND_LEFT = CONNECT)
  then for_each (range 0 (ny s)) (fun i => unpackCell msg i 0 (i + 1)) s
  else if bool_decide (copyLayer.boundary msg = BND_LEFT)
          && bool_decide (boundaryType s BND_RIGHT = CONNECT)
  then for_each (range 0 (ny s)) (fun i => unpackCell msg i (nx s + 1) (i + 1)) s
  else if bool_decide (copyLayer.boundary msg = BND_TOP)
          && bool_decide (boundaryType s BND_BOTTOM = CONNECT)
  then for_each (range 0 (nx s)) (fun i => unpackCell msg i (i + 1) 0) s
  else if bool_decide (copyLayer.boundary msg = BND_BOTTOM)
          && bool_decide (boundaryType s BND_TOP = CONNECT)
  then for_each (range 0 (nx s)) (fun i => unpackCell msg i (i + 1) (ny s + 1)) s
  else s.

(** a message on its way: the chare it goes to, the entry method
    [receiveGhostLeft/Right/Bottom/Top] it invokes, named by its side, and
    the copy layer *)
Record Send : Type := mkSend {
  dest : Z;
  entry : Boundary;
  payload : copyLayer
}.

(** [new(sizes, 0) copyLayer()] followed by the assignments of the flag and
    of the tag; [sizes] are the lengths of [b], [h], [hu], [hv] *)
Definition copyLayer_new (sizes : list nat) (sendBathymetry : bool) (tag : Boundary)
    : copyLayer :=
  copyLayer.mk tag sendBathymetry
    (replicate (sizes !!! 0) F32.zero) (replicate (sizes !!! 1) F32.zero)
    (replicate (sizes !!! 2) F32.zero) (replicate (sizes !!! 3) F32.zero).

(** [std::copy(raw + first, raw + last, dst)] *)
Definition std_copy (raw : list float) (first last : nat) (dst : list float)
    : list float :=
  list_inserts 0 (take (last - first) (drop first raw)) dst.

(** the filling of a left or right copy layer: stride 1 *)
Definition fillContiguous (s : Block) (sendBathymetry : bool) (startIndex size : nat)
    (m : copyLayer) : copyLayer :=
  let endIndex := startIndex + size in
  let m :=
    if sendBathymetry
    then copyLayer.set_b
           (std_copy (Float2D.elem (b s)) startIndex endIndex (copyLayer.b m)) m
    else m in
  let m :=
    copyLayer.set_h (std_copy (Float2D.elem (h s)) startIndex endIndex (copyLayer.h m)) m in
  let m :=
    copyLayer.set_hu
      (std_copy (Float2D.elem (hu s)) startIndex endIndex (copyLayer.hu m)) m in
  copyLayer.set_hv (std_copy (Float2D.elem (hv s)) startIndex endIndex (copyLayer.hv m)) m.

(** the filling of a bottom or top copy layer: one sample per column *)
Definition fillStrided (s : Block) (sendBathymetry : bool) (startIndex stride size : nat)
    (m : copyLayer) : copyLayer :=
  for_each (range 0 size)
    (fun i m =>
       let m :=
         if sendBathymetry
         then copyLayer.set_b
                (<[i := Float2D.elem (b s) !!! (startIndex + i * stride)]>
                   (copyLayer.b m)) m
         else m in
       let m :=
         copyLayer.set_h
           (<[i := Float2D.elem (h s) !!! (startIndex + i * stride)]> (copyLayer.h m)) m in
       let m :=
         copyLayer.set_hu
           (<[i := Float2D.elem (hu s) !!! (startIndex + i * stride)]> (copyLayer.hu m))
           m in
       copyLayer.set_hv
         (<[i := Float2D.elem (hv s) !!! (startIndex + i * stride)]> (copyLayer.hv m)) m)
    m.

(** [assert(neighbourIndex[e] > -1)] and the invocation of the neighbour's
    entry method *)
Definition sendTo (s : Block) (e : Boundary) (receiver : Boundary) (m : copyLayer)
    (sent : list Send) : outcome (list Send) :=
  bind (assert (-1 <? neighbourIndex s e)%Z sent)
    (fun sent => Done (sent ++ [mkSend (neighbourIndex s e) receiver m])).

Definition sendCopyLayers (sendBathymetry : bool) (s : Block) : outcome (list Send) :=
  let sizesVertical := [if sendBathymetry then ny s else 0; ny s; ny s; ny s] in
  let sizesHorizontal := [if sendBathymetry then nx s else 0; nx s; nx s; nx s] in
  let left sent :=
    if bool_decide (boundaryType s BND_LEFT = CONNECT)
    then sendTo s BND_LEFT BND_RIGHT
           (fillContiguous s sendBathymetry (ny s + 2 + 1) (ny s)
              (copyLayer_new sizesVertical sendBathymetry BND_LEFT)) sent
    else Done sent in
  let right sent :=
    if bool_decide (boundaryType s BND_RIGHT = CONNECT)
    then sendTo s BND_RIGHT BND_LEFT
           (fillContiguous s sendBathymetry (nx s * (ny s + 2) + 1) (ny s)
              (copyLayer_new sizesVertical sendBathymetry BND_RIGHT)) sent
    else Done sent in
  let bottom sent :=
    if bool_decide (boundaryType s BND_BOTTOM = CONNECT)
    then sendTo s BND_BOTTOM BND_TOP
           (fillStrided s sendBathymetry (ny s + 2 + 1) (ny s + 2) (nx s)
              (copyLayer_new sizesHorizontal sendBathymetry BND_BOTTOM)) sent
    else Done sent in
  let top sent :=
    if bool_decide (boundaryType s BND_TOP = CONNECT)
    then sendTo s BND_TOP BND_BOTTOM
           (fillStrided s sendBathymetry (ny s + 2 + ny s) (ny s + 2) (nx s)
              (copyLayer_new sizesHorizontal sendBathymetry BND_TOP)) sent
    else Done sent in
  bind (bind (bind (left []) right) bottom) top.

(** equality of index pairs, to count how often a loop visits one *)
Definition edge_eq_dec (p q : nat * nat) : {p = q} + {p <> q} := decide (p = q).

(** ** Vocabulary of the statements *)

(** [s'] differs from [s] in the unknowns [h], [hu], [hv], [b] at most *)
Definition sameButUnknowns (s s' : Block) : Prop :=
  set_b (b s) (set_hv (hv s) (set_hu (hu s) (set_h (h s) s'))) = s.

(** [s'] differs from [s] in the eight net-update buffers at most *)
Definition sameButNetUpdates (s s' : Block) : Prop :=
  set_hvNetUpdatesAbove (hvNetUpdatesAbove s)
    (set_hvNetUpdatesBelow (hvNetUpdatesBelow s)
       (set_hNetUpdatesAbove (hNetUpdatesAbove s)
          (set_hNetUpdatesBelow (hNetUpdatesBelow s)
             (set_huNetUpdatesRight (huNetUpdatesRight s)
                (set_huNetUpdatesLeft (huNetUpdatesLeft s)
                   (set_hNetUpdatesRight (hNetUpdatesRight s)
                      (set_hNetUpdatesLeft (hNetUpdatesLeft s) s'))))))) = s.

(** [s'] differs from [s] in the bathymetry at most *)
Definition sameButBathymetry (s s' : Block) : Prop := set_b (b s) s' = s.

(** the cell [(x, y)] lies in the interior [[1, nx] x [1, ny]] *)
Definition interior (s : Block) (x y : nat) : Prop :=
  1 <= x <= nx s /\ 1 <= y <= ny s.

(** the value [val i] that pass [i] of a loop writes into [dst i] depends on
    no cell of the field [f] that another pass writes *)
Definition stable {I : Type} (c r : nat) (l : list I) (dst : I -> nat * nat)
    (val : I -> Float2D -> float) (f : Float2D) : Prop :=
  forall i f', In i l -> Float2D.allocated f' c r ->
    (forall x y, y < r -> (x, y) = dst i \/ ~ In (x, y) (map dst l) ->
       Float2D.get f' x y = Float2D.get f x y) ->
    val i f' = val i f.

(** [f'] is [f] with [val i] written into the cell [dst i], for every [i] of [l] *)
Definition written {I : Type} (c r : nat) (l : list I) (dst : I -> nat * nat)
    (val : I -> float) (f f' : Float2D) : Prop :=
  Float2D.allocated f' c r /\
  (forall i, In i l -> Float2D.get f' (fst (dst i)) (snd (dst i)) = val i) /\
  (forall x y, y < r -> ~ In (x, y) (map dst l) ->
     Float2D.get f' x y = Float2D.get f x y).

(** cell by cell, the unknowns of [s'] are those of [s], but a cell [(x, y)]
    selected by [sel] holds [h], [fu hu] and [fv hv] of the cell [src x y] *)
Definition cellwise (s s' : Block) (sel : nat -> nat -> bool)
    (src : nat -> nat -> nat * nat) (fu fv : float -> float) : Prop :=
  forall x y, y < ny s + 2 ->
    Float2D.get (h s') x y
    = (if sel x y then Float2D.get (h s) (fst (src x y)) (snd (src x y))
       else Float2D.get (h s) x y) /\
    Float2D.get (hu s') x y
    = (if sel x y then fu (Float2D.get (hu s) (fst (src x y)) (snd (src x y)))
       else Float2D.get (hu s) x y) /\
    Float2D.get (hv s') x y
    = (if sel x y then fv (Float2D.get (hv s) (fst (src x y)) (snd (src x y)))
       else Float2D.get (hv s) x y).

(** what one stage of a boundary operation does to the block *)
Definition ghostStage (s s' : Block) (sel : nat -> nat -> bool)
    (src : nat -> nat -> nat * nat) (fu fv : float -> float) : Prop :=
  sameButUnknowns s s' /\ b s' = b s /\ allocated s' /\ cellwise s s' sel src fu fv.

(** the boundary types that fill their ghost strip, and what they do to the
    momentum normal to the edge *)
Definition fillsGhost (t : BoundaryType) : bool :=
  match t with
  | WALL | OUTFLOW => true
  | CONNECT | PASSIVE => false
  end.

Definition normalMomentum (t : BoundaryType) : float -> float :=
  match t with
  | WALL => F32.opp
  | _ => keep
  end.

(** the relation between the ghost cell [(xg, yg)] and the interior cell
    [(xi, yi)] next to it after applyBoundaryConditions has taken [s] to
    [s'], on an edge of type [t]; [fu] and [fv] are what a wall does to
    [hu] and [hv] *)
Definition ghostRule (t : BoundaryType) (fu fv : float -> float) (s s' : Block)
    (xg yg xi yi : nat) : Prop :=
  match t with
  | WALL =>
      Float2D.get (h s') xg yg = Float2D.get (h s') xi yi /\
      Float2D.get (hu s') xg yg = fu (Float2D.get (hu s') xi yi) /\
      Float2D.get (hv s') xg yg = fv (Float2D.get (hv s') xi yi)
  | OUTFLOW =>
      Float2D.get (h s') xg yg = Float2D.get (h s') xi yi /\
      Float2D.get (hu s') xg yg = Float2D.get (hu s') xi yi /\
      Float2D.get (hv s') xg yg = Float2D.get (hv s') xi yi
  | CONNECT | PASSIVE =>
      Float2D.get (h s') xg yg = Float2D.get (h s) xg yg /\
      Float2D.get (hu s') xg yg = Float2D.get (hu s) xg yg /\
      Float2D.get (hv s') xg yg = Float2D.get (hv s) xg yg
  end.

(** the three unknowns of a cell *)
Definition unknownsAt (s : Block) (x y : nat) : float * float * float :=
  (Float2D.get (h s) x y, Float2D.get (hu s) x y, Float2D.get (hv s) x y).

(** ** Sample data *)

(** a stand-in for the Riemann solver: the updates are the jumps of the
    height and of the momentum across the edge, the wave speed is the
    absolute value of the momentum on the left of the edge *)
Definition jumpSolver : Hybrid :=
  fun hL hR huL huR bL bR =>
    mkRiemannSolution (F32.sub hL hR) (F32.sub hR hL) (F32.sub huL huR)
      (F32.sub huR huL) (F32.abs huL).

(** a flat bed under water of height 1 that moves with velocity (1, 2) *)
Definition streamScenario : SWE_Scenario :=
  mkScenario (fun _ _ => F32.zero) (fun _ _ => F32.of_int 1)
    (fun _ _ => F32.of_int 1) (fun _ _ => F32.of_int 2).

(** a single block, one second of simulation, ten checkpoints *)
Definition soloLauncher : Launcher := mkLauncher 0 1 1 (F32.of_int 1) 10.

Definition allOf (t : BoundaryType) : Boundary -> BoundaryType := fun _ => t.

(** a block of [cx] by [cy] cells of size 1 by 4, every boundary of type [t] *)
Definition sampleBlock (cx cy : nat) (t : BoundaryType) : Block :=
  SWE_DimensionalSplittingCharm_new soloLauncher F32.zero jumpSolver streamScenario
    cx cy (F32.of_int 1) (F32.of_int 4) F32.zero F32.zero 0 0 (allOf t).

(** the edge across from [e] *)
Definition opposite (e : Boundary) : Boundary :=
  match e with
  | BND_LEFT => BND_RIGHT
  | BND_RIGHT => BND_LEFT
  | BND_BOTTOM => BND_TOP
  | BND_TOP => BND_BOTTOM
  end.

(** [s'] is [s] with the message unpacked into the [n] cells [cell 0], ...,
    [cell (n-1)]: sample [i] of [h], [hu], [hv] lies in [cell i], and so does
    sample [i] of [b] when the message carries bathymetry; nothing else has
    changed *)
Definition unpacked (msg : copyLayer) (s s' : Block) (cell : nat -> nat * nat)
    (n : nat) : Prop :=
  sameButUnknowns s s' /\
  (forall i, i < n ->
     Float2D.get (h s') (fst (cell i)) (snd (cell i)) = copyLayer.h msg !!! i /\
     Float2D.get (hu s') (fst (cell i)) (snd (cell i)) = copyLayer.hu msg !!! i /\
     Float2D.get (hv s') (fst (cell i)) (snd (cell i)) = copyLayer.hv msg !!! i /\
     Float2D.get (b s') (fst (cell i)) (snd (cell i))
     = if copyLayer.containsBathymetry msg then copyLayer.b msg !!! i
       else Float2D.get (b s) (fst (cell i)) (snd (cell i))) /\
  (forall x y, y < ny s + 2 -> (forall i, i < n -> cell i <> (x, y)) ->
     Float2D.get (h s') x y = Float2D.get (h s) x y /\
     Float2D.get (hu s') x y = Float2D.get (hu s) x y /\
     Float2D.get (hv s') x y = Float2D.get (hv s) x y /\
     Float2D.get (b s') x y = Float2D.get (b s) x y) /\
  (copyLayer.containsBathymetry msg = false -> b s' = b s).

(** the cell [(x, y)] of [s'] holds the unknowns of [s] updated with the net
    updates of [s] under the time step [dt] *)
Definition updatedCell (dt : float) (s s' : Block) (x y : nat) : Prop :=
  Float2D.get (h s') x y
  = F32.sub (Float2D.get (h s) x y)
      (F32.add
         (F32.mul (F32.div dt (dx s))
            (F32.add (Float2D.get (hNetUpdatesRight s) x y)
                     (Float2D.get (hNetUpdatesLeft s) x y)))
         (F32.mul (F32.div dt (dy s))
            (F32.add (Float2D.get (hNetUpdatesAbove s) x y)
                     (Float2D.get (hNetUpdatesBelow s) x y)))) /\
  Float2D.get (hu s') x y
  = F32.sub (Float2D.get (hu s) x y)
      (F32.mul (F32.div dt (dx s))
         (F32.add (Float2D.get (huNetUpdatesRight s) x y)
                  (Float2D.get (huNetUpdatesLeft s) x y))) /\
  Float2D.get (hv s') x y
  = F32.sub (Float2D.get (hv s) x y)
      (F32.mul (F32.div dt (dy s))
         (F32.add (Float2D.get (hvNetUpdatesAbove s) x y)
                  (Float2D.get (hvNetUpdatesBelow s) x y))).

(** the solution of the Riemann problem at the edge between the cells
    [(x, y)] and [(x+1, y)], and between [(x, y)] and [(x, y+1)] *)
Definition xEdge (s : Block) (x y : nat) : RiemannSolution :=
  solver s
    (Float2D.get (h s) x y) (Float2D.get (h s) (x + 1) y)
    (Float2D.get (hu s) x y) (Float2D.get (hu s) (x + 1) y)
    (Float2D.get (b s) x y) (Float2D.get (b s) (x + 1) y).

Definition yEdge (s : Block) (x y : nat) : RiemannSolution :=
  solver s
    (Float2D.get (h s) x y) (Float2D.get (h s) x (y + 1))
    (Float2D.get (hv s) x y) (Float2D.get (hv s) x (y + 1))
    (Float2D.get (b s) x y) (Float2D.get (b s) x (y + 1)).

(** the maximum-reduction of the wave speeds of the edges [l], from [m] on *)
Definition maxReduce (speed : nat * nat -> float) (l : list (nat * nat)) (m : float)
    : float :=
  for_each l (fun xy acc => std_max acc (speed xy)) m.

(** Following the spec's words: the time step with the two quotients
    [dx/maxHorizontalWaveSpeed] and [dy/maxVerticalWaveSpeed] computed
    separately, their minimum taken and scaled by 0.4 *)
Definition separateQuotientsTimestep (cellSizeHorizontal cellSizeVertical : float)
    (maxHorizontalWaveSpeed maxVerticalWaveSpeed : float) : float :=
  to_float
    (F64.mul
       (to_double
          (std_min (F32.div cellSizeHorizontal maxHorizontalWaveSpeed)
                   (F32.div cellSizeVertical maxVerticalWaveSpeed)))
       (F64.literal 4 10)).

(** ** The operations of a run *)

(** Modelled from the spec: the driver of the step loop (the SDAG code of
    examples/swe_charm.ci) is not among the sources. By the spec a step is
    made of the operations of the block, of the advance of the clock
    [currentSimulationTime += dt] and of the move to the next checkpoint. *)
Definition advanceClock (dt : float) (s : Block) : Block :=
  set_currentSimulationTime (F32.add (currentSimulationTime s) dt) s.

Definition nextCheckpoint (s : Block) : Block :=
  set_currentCheckpoint (currentCheckpoint s + 1) s.

(** one operation on the block; a failed assertion ends the run, so the
    asserting operations appear with their completed result *)
Inductive operation : Block -> Block -> Prop :=
| op_setBoundaryType e t s : operation s (setBoundaryType e t s)
| op_applyBoundaryBathymetry s : operation s (applyBoundaryBathymetry s)
| op_setGhostLayer s : operation s (setGhostLayer s)
| op_processCopyLayer msg s : operation s (processCopyLayer msg s)
| op_computeNumericalFluxes s s' :
    computeNumericalFluxes s = Done s' -> operation s s'
| op_reduceWaveSpeed v s : operation s (reduceWaveSpeed v s)
| op_updateUnknowns dt s s' : updateUnknowns dt s = Done s' -> operation s s'
| op_advanceClock dt s : operation s (advanceClock dt s)
| op_writeTimestep s : operation s (writeTimestep s)
| op_nextCheckpoint s : operation s (nextCheckpoint s).

(** any sequence of operations *)
Inductive run : Block -> Block -> Prop :=
| run_done s : run s s
| run_next s1 s2 s3 : operation s1 s2 -> run s2 s3 -> run s1 s3.

(** the bathymetry of [s'] agrees with that of [s] on the interior of [s] *)
Definition sameInteriorBathymetry (s s' : Block) : Prop :=
  forall x y, interior s x y -> Float2D.get (b s') x y = Float2D.get (b s) x y.

(** what one stage of applyBoundaryBathymetry does to the block *)
Definition bathymetryStage (s s' : Block) : Prop :=
  sameButBathymetry s s' /\
  Float2D.allocated (b s') (nx s + 2) (ny s + 2) /\
  sameInteriorBathymetry s s'.

(** ** The layout of a copy layer *)

(** Following the spec's words: the linear offset of sample [i] of the copy
    layer of edge [e] in a field of the block. LEFT and RIGHT are contiguous
    runs that start at [(ny+2)+1] and at [nx*(ny+2)+1]; BOTTOM and TOP are
    gathers with stride [ny+2] that start at [(ny+2)+1] and at [(ny+2)+ny]. *)
Definition copyLayerOffset (s : Block) (e : Boundary) (i : nat) : nat :=
  match e with
  | BND_LEFT => (ny s + 2) + 1 + i
  | BND_RIGHT => nx s * (ny s + 2) + 1 + i
  | BND_BOTTOM => (ny s + 2) + 1 + i * (ny s + 2)
  | BND_TOP => (ny s + 2) + ny s + i * (ny s + 2)
  end.

(** the number of samples: [ny] for LEFT and RIGHT, [nx] for BOTTOM and TOP *)
Definition copyLayerLength (s : Block) (e : Boundary) : nat :=
  match e with
  | BND_LEFT | BND_RIGHT => ny s
  | BND_BOTTOM | BND_TOP => nx s
  end.

(** the interior cell that sample [i] comes from: column [x = 1] or [x = nx],
    row [y = 1] or [y = ny] *)
Definition copyLayerCell (s : Block) (e : Boundary) (i : nat) : nat * nat :=
  match e with
  | BND_LEFT => (1, i + 1)
  | BND_RIGHT => (nx s, i + 1)
  | BND_BOTTOM => (i + 1, 1)
  | BND_TOP => (i + 1, ny s)
  end.

(** the samples of the field [f] at the offsets of the copy layer of [e] *)
Definition gather (s : Block) (e : Boundary) (f : Float2D) : list float :=
  map (fun i => Float2D.elem f !!! copyLayerOffset s e i) (seq 0 (copyLayerLength s e)).

(** [m] is the copy layer of the edge [e] of [s] *)
Definition packedLayer (sendBathymetry : bool) (s : Block) (e : Boundary)
    (m : copyLayer) : Prop :=
  copyLayer.boundary m = e /\
  copyLayer.containsBathymetry m = sendBathymetry /\
  copyLayer.h m = gather s e (h s) /\
  copyLayer.hu m = gather s e (hu s) /\
  copyLayer.hv m = gather s e (hv s) /\
  copyLayer.b m = (if sendBathymetry then gather s e (b s) else []).

(** ** The checkpoint schedule *)

(** the sum [delta + delta + ... + delta] of [k + 1] terms, added one by one
    in single precision *)
Fixpoint runningSum (delta : float) (k : nat) : float :=
  match k with
  | 0 => delta
  | S k' => F32.add (runningSum delta k') delta
  end.

(** Following the spec's words: the checkpoint instant
    [(k+1) * simulationDuration / checkpointCount], evaluated in single
    precision from left to right *)
Definition closedFormInstant (duration : float) (count k : nat) : float :=
  F32.div (F32.mul (F32.of_int (Z.of_nat (k + 1))) duration)
          (F32.of_int (Z.of_nat count)).

(** the same product with the quotient [simulationDuration / checkpointCount]
    taken first *)
Definition closedFormInstant' (duration : float) (count k : nat) : float :=
  F32.mul (F32.of_int (Z.of_nat (k + 1)))
          (F32.div duration (F32.of_int (Z.of_nat count))).

(** ** More sample data *)

(** the launcher of a lattice of 3 by 3 blocks, seen from its central block *)
Definition latticeLauncher : Launcher := mkLauncher 4 3 3 (F32.of_int 1) 10.

(** the central block of the lattice, [cx] by [cy] cells, every boundary of
    type [t] *)
Definition centralBlock (cx cy : nat) (t : BoundaryType) : Block :=
  SWE_DimensionalSplittingCharm_new latticeLauncher F32.zero jumpSolver streamScenario
    cx cy (F32.of_int 1) (F32.of_int 4) F32.zero F32.zero 1 1 (allOf t).

(** the sample block after its fluxes have been computed *)
Definition fluxedBlock : Block :=
  state_of (computeNumericalFluxes (sampleBlock 1 1 OUTFLOW)).

(** a copy layer of two samples per field, sent over the edge [tag] *)
Definition sampleLayer (tag : Boundary) (withBathymetry : bool) : copyLayer :=
  copyLayer.mk tag withBathymetry
    [F32.of_int 7; F32.of_int 8] [F32.of_int 1; F32.of_int 2]
    [F32.of_int 3; F32.of_int 4] [F32.of_int 5; F32.of_int 6].

(** a flat bed under water whose height is the abscissa of the point and
    that moves with velocity (1, 2) *)
Definition rampScenario : SWE_Scenario :=
  mkScenario (fun _ _ => F32.zero) (fun x _ => x)
    (fun _ _ => F32.of_int 1) (fun _ _ => F32.of_int 2).

(** a block of two cells in a row between walls over that scenario: the
    water is 0.5 high in the cell [(1, 1)] and 1.5 high in the cell [(2, 1)] *)
Definition rampBlock : Block :=
  SWE_DimensionalSplittingCharm_new soloLauncher F32.zero jumpSolver rampScenario
    2 1 (F32.of_int 1) (F32.of_int 4) F32.zero F32.zero 0 0 (allOf WALL).

(** that block after its fluxes have been computed *)
Definition rampFluxed : Block := state_of (computeNumericalFluxes rampBlock).


(** * Further definitions *)

(** ** Vocabulary of the further properties *)

(** cell by cell, the bathymetry of [s'] is that of [s], but a cell selected
    by [sel] holds the bathymetry of the cell [src x y] *)
Definition bathymetryCells (s s' : Block) (sel : nat -> nat -> bool)
    (src : nat -> nat -> nat * nat) : Prop :=
  forall x y, x < nx s + 2 -> y < ny s + 2 ->
    Float2D.get (b s') x y
    = if sel x y then Float2D.get (b s) (fst (src x y)) (snd (src x y))
      else Float2D.get (b s) x y.

(** what one stage of applyBoundaryBathymetry does, cell by cell *)
Definition bathymetryEffect (s s' : Block) (sel : nat -> nat -> bool)
    (src : nat -> nat -> nat * nat) : Prop :=
  sameButBathymetry s s' /\ allocated s' /\ bathymetryCells s s' sel src.

(** the edges in the order in which sendCopyLayers visits them *)
Definition edges : list Boundary := [BND_LEFT; BND_RIGHT; BND_BOTTOM; BND_TOP].

(** the CONNECT edges among [l], in the order of [l] *)
Definition connectedAmong (s : Block) (l : list Boundary) : list Boundary :=
  List.filter (fun e => bool_decide (boundaryType s e = CONNECT)) l.

Definition connected (s : Block) : list Boundary := connectedAmong s edges.

(** the message [m] carries the copy layer of the edge [e] to the neighbour
    at that edge, for the entry method of the opposite side *)
Definition layerOf (sendBathymetry : bool) (s : Block) (e : Boundary) (m : Send)
    : Prop :=
  dest m = neighbourIndex s e /\ entry m = opposite e /\
  packedLayer sendBathymetry s e (payload m).

(** how far sendCopyLayers has come after the edges [pre]: either every
    CONNECT edge among them has a neighbour and has been served, or the
    assertion has failed at the first CONNECT edge without a neighbour, after
    the edges before it had been served *)
Definition progress (sendBathymetry : bool) (s : Block) (pre : list Boundary)
    (o : outcome (list Send)) : Prop :=
  match o with
  | Done sent =>
      (forall e, In e (connectedAmong s pre) -> (-1 < neighbourIndex s e)%Z) /\
      Forall2 (layerOf sendBathymetry s) (connectedAmong s pre) sent
  | Aborted sent =>
      exists l1 e l2,
        connectedAmong s pre = l1 ++ e :: l2 /\
        (neighbourIndex s e <= -1)%Z /\
        (forall e', In e' l1 -> (-1 < neighbourIndex s e')%Z) /\
        Forall2 (layerOf sendBathymetry s) l1 sent
  end.

(** the ghost cell of the edge [e] that sample [i] of a copy layer goes to:
    column [x = 0] or [x = nx + 1], row [y = 0] or [y = ny + 1] *)
Definition ghostCell (s : Block) (e : Boundary) (i : nat) : nat * nat :=
  match e with
  | BND_LEFT => (0, i + 1)
  | BND_RIGHT => (nx s + 1, i + 1)
  | BND_BOTTOM => (i + 1, 0)
  | BND_TOP => (i + 1, ny s + 1)
  end.

(** [std::isfinite]: neither an infinity nor NaN *)
Definition isfinite (x : float) : bool :=
  match x with
  | S754_zero _ | S754_finite _ _ _ => true
  | S754_infinity _ | S754_nan => false
  end.

(** ** Sample data of the further properties *)

(** a solver that reports no wave and no update *)
Definition stillSolver : Hybrid :=
  fun _ _ _ _ _ _ => mkRiemannSolution F32.zero F32.zero F32.zero F32.zero F32.zero.

(** a block of one cell of size 1 by 4 with that solver *)
Definition stillBlock : Block :=
  SWE_DimensionalSplittingCharm_new soloLauncher F32.zero stillSolver streamScenario
    1 1 (F32.of_int 1) (F32.of_int 4) F32.zero F32.zero 0 0 (allOf OUTFLOW).

(** ** The lattice of the blocks *)

(** the numbering of the chares that the neighbour arithmetic of the
    constructor presupposes: column after column, [blockCountY] to a column *)
Definition chareAt (g : Launcher) (x y : Z) : Z := (x * blockCountY g + y)%Z.

(** the position [(x, y)] lies on the lattice of the blocks *)
Definition onLattice (g : Launcher) (x y : Z) : bool :=
  (0 <=? x)%Z && (x <? blockCountX g)%Z && (0 <=? y)%Z && (y <? blockCountY g)%Z.

(** the position across the edge [e] *)
Definition across (e : Boundary) (x y : Z) : Z * Z :=
  match e with
  | BND_LEFT => ((x - 1)%Z, y)
  | BND_RIGHT => ((x + 1)%Z, y)
  | BND_BOTTOM => (x, (y - 1)%Z)
  | BND_TOP => (x, (y + 1)%Z)
  end.

(** the launcher as the chare with index [i] sees it *)
Definition seenFrom (i : Z) (g : Launcher) : Launcher :=
  mkLauncher i (blockCountX g) (blockCountY g) (simulationDuration g)
    (checkpointCount g).

(** the scenario values of the cell [(x, y)] of the block: the bathymetry,
    the water height and the two momenta at the centre of the cell *)
Definition scenarioCell (scenario : SWE_Scenario) (s : Block) (x y : nat)
    : float * float * float * float :=
  let px := cellCentre (originX s) (dx s) x in
  let py := cellCentre (originY s) (dy s) y in
  (getBathymetry scenario px py,
   getWaterHeight scenario px py,
   F32.mul (getVeloc_u scenario px py) (getWaterHeight scenario px py),
   F32.mul (getVeloc_v scenario px py) (getWaterHeight scenario px py)).

(** the bathymetry and the unknowns of the cell [(x, y)] *)
Definition cellOf (s : Block) (x y : nat) : float * float * float * float :=
  (Float2D.get (b s) x y, Float2D.get (h s) x y,
   Float2D.get (hu s) x y, Float2D.get (hv s) x y).

(** the setting of a block: its size, the size and the origin of its cells,
    its solver, its neighbours and its checkpoints *)
Definition setting (s : Block)
    : nat * nat * float * float * float * float * Hybrid * (Boundary -> Z)
      * list float :=
  (nx s, ny s, dx s, dy s, originX s, originY s, solver s, neighbourIndex s,
   checkpointInstantOfTime s).

(** the sample of a copy layer that goes to the cell [(x, y)] when the layer
    is unpacked at the edge [e] of the block, if the cell lies in the ghost
    strip of that edge *)
Definition stripIndex (s : Block) (e : Boundary) (x y : nat) : option nat :=
  match e with
  | BND_LEFT =>
      if (x =? 0) && (1 <=? y) && (y <=? ny s) then Some (y - 1) else None
  | BND_RIGHT =>
      if (x =? nx s + 1) && (1 <=? y) && (y <=? ny s) then Some (y - 1) else None
  | BND_BOTTOM =>
      if (y =? 0) && (1 <=? x) && (x <=? nx s) then Some (x - 1) else None
  | BND_TOP =>
      if (y =? ny s + 1) && (1 <=? x) && (x <=? nx s) then Some (x - 1) else None
  end.

(** the cell [(x, y)] of the block after the message has been unpacked at the
    edge across from its tag *)
Definition received (msg : copyLayer) (s : Block) (x y : nat)
    : float * float * float * float :=
  match stripIndex s (opposite (copyLayer.boundary msg)) x y with
  | Some i =>
      (if copyLayer.containsBathymetry msg then copyLayer.b msg !!! i
       else Float2D.get (b s) x y,
       copyLayer.h msg !!! i, copyLayer.hu msg !!! i, copyLayer.hv msg !!! i)
  | None => cellOf s x y
  end.

(** * Properties *)

(** ** Loops *)

Section Loops.
Context {I S : Type}.
Implicit Types (l : list I) (body : I -> S -> S) (s : S).

Lemma for_each_nil body s : for_each [] body s = s.
Proof. reflexivity. Qed.

Lemma for_each_cons i l body s :
  for_each (i :: l) body s = for_each l body (body i s).
Proof. reflexivity. Qed.

Lemma for_each_app l1 l2 body s :
  for_each (l1 ++ l2) body s = for_each l2 body (for_each l1 body s).
Proof. unfold for_each. apply fold_left_app. Qed.

(** an invariant of the body is an invariant of the loop *)
Lemma for_each_inv (Inv : S -> Prop) l body s :
  Inv s ->
  (forall i s', In i l -> Inv s' -> Inv (body i s')) ->
  Inv (for_each l body s).
Proof.
  revert s. induction l as [|i l IH]; intros s H0 Hstep; [exact H0|].
  rewrite for_each_cons. apply IH.
  - apply Hstep; [left; reflexivity | exact H0].
  - intros j s' Hj. apply Hstep. right. exact Hj.
Qed.

(** a component of the state that the body updates from itself alone runs
    through a loop of its own *)
Lemma for_each_proj {T : Type} (proj : S -> T) (Inv : S -> Prop)
    (f : I -> T -> T) l body s :
  Inv s ->
  (forall i s', In i l -> Inv s' -> Inv (body i s')) ->
  (forall i s', In i l -> Inv s' -> proj (body i s') = f i (proj s')) ->
  proj (for_each l body s) = for_each l f (proj s).
Proof.
  revert s. induction l as [|i l IH]; intros s H0 Hstep Hproj; [reflexivity|].
  rewrite for_each_cons. change (for_each (i :: l) f (proj s))
    with (for_each l f (f i (proj s))).
  rewrite <- (Hproj i s); [|left; reflexivity|exact H0].
  apply IH.
  - apply Hstep; [left; reflexivity | exact H0].
  - intros j s' Hj. apply Hstep. right. exact Hj.
  - intros j s' Hj. apply Hproj. right. exact Hj.
Qed.

Lemma for_each_const {T : Type} (proj : S -> T) l body s :
  (forall i s', proj (body i s') = proj s') ->
  proj (for_each l body s) = proj s.
Proof.
  intros Hc. revert s. induction l as [|i l IH]; intros s; [reflexivity|].
  rewrite for_each_cons, IH. apply Hc.
Qed.
End Loops.

Lemma in_range lo hi i : In i (range lo hi) <-> lo <= i < hi.
Proof. unfold range. rewrite in_seq. lia. Qed.

Lemma NoDup_range lo hi : List.NoDup (range lo hi).
Proof. apply seq_NoDup. Qed.

Lemma in_collapse2 xlo xhi ylo yhi x y :
  In (x, y) (collapse2 xlo xhi ylo yhi) <-> (xlo <= x < xhi) /\ (ylo <= y < yhi).
Proof.
  unfold collapse2. rewrite in_flat_map. split.
  - intros (x' & Hx & Hy). apply in_map_iff in Hy as (y' & Heq & Hy).
    inversion Heq; subst. rewrite in_range in Hx, Hy. lia.
  - intros [Hx Hy]. exists x. rewrite in_range. split; [lia|].
    apply in_map. apply in_range. lia.
Qed.

Lemma NoDup_collapse2 xlo xhi ylo yhi : List.NoDup (collapse2 xlo xhi ylo yhi).
Proof.
  unfold collapse2. generalize (NoDup_range xlo xhi).
  induction (range xlo xhi) as [|x xs IH]; intros Hnd; simpl; [constructor|].
  inversion Hnd as [|? ? Hx Hxs]; subst.
  apply List.NoDup_app.
  - apply Injective_map_NoDup; [|apply NoDup_range].
    intros y1 y2 Heq. inversion Heq. reflexivity.
  - apply IH, Hxs.
  - intros [x' y'] H1 H2.
    apply in_map_iff in H1 as (y1 & Heq & _). inversion Heq; subst.
    apply in_flat_map in H2 as (x2 & Hx2 & Hy2).
    apply in_map_iff in Hy2 as (y2 & Heq2 & _). inversion Heq2; subst.
    contradiction.
Qed.

(** every pair of the iteration space is visited once, no other pair is *)
Lemma count_collapse2 xlo xhi ylo yhi x y :
  count_occ edge_eq_dec (collapse2 xlo xhi ylo yhi) (x, y)
  = if decide ((xlo <= x < xhi) /\ (ylo <= y < yhi)) then 1 else 0.
Proof.
  pose proof (NoDup_collapse2 xlo xhi ylo yhi) as Hnd.
  rewrite (NoDup_count_occ edge_eq_dec) in Hnd.
  specialize (Hnd (x, y)).
  destruct (decide _) as [Hin|Hout].
  - apply in_collapse2 in Hin.
    apply (count_occ_In edge_eq_dec) in Hin. lia.
  - apply count_occ_not_In. rewrite in_collapse2. exact Hout.
Qed.

(** ** Fields *)

Lemma index_inj r x y x' y' :
  y < r -> y' < r -> x * r + y = x' * r + y' -> x = x' /\ y = y'.
Proof.
  intros Hy Hy' Heq.
  assert (Hx : x = x').
  { rewrite (Nat.div_unique (x * r + y) r x y),
      (Nat.div_unique (x' * r + y') r x' y') by lia.
    rewrite Heq. reflexivity. }
  subst x'. split; [reflexivity|lia].
Qed.

Lemma index_lt c r x y : x < c -> y < r -> x * r + y < c * r.
Proof. intros Hx Hy. nia. Qed.

Lemma allocated_new c r : Float2D.allocated (Float2D.new c r) c r.
Proof.
  unfold Float2D.allocated, Float2D.new. simpl.
  rewrite length_replicate. auto.
Qed.

Lemma allocated_set f c r x y v :
  Float2D.allocated f c r -> Float2D.allocated (Float2D.set f x y v) c r.
Proof.
  intros (Hc & Hr & Hl). unfold Float2D.allocated, Float2D.set. simpl.
  rewrite length_insert. auto.
Qed.

Lemma get_set f c r x y v x' y' :
  Float2D.allocated f c r -> x < c -> y < r -> y' < r ->
  Float2D.get (Float2D.set f x y v) x' y'
  = if decide (x = x' /\ y = y') then v else Float2D.get f x' y'.
Proof.
  intros (Hc & Hr & Hl) Hx Hy Hy'.
  unfold Float2D.get, Float2D.set, Float2D.index. simpl. rewrite Hr.
  rewrite list_lookup_total_insert.
  pose proof (index_lt c r x y Hx Hy) as Hlt.
  destruct (decide (x = x' /\ y = y')) as [[-> ->]|Hne].
  - rewrite decide_True; [reflexivity|]. split; [reflexivity|lia].
  - rewrite decide_False; [reflexivity|].
    intros [Heq _]. apply Hne. apply (index_inj r); assumption.
Qed.

Lemma get_set_eq f c r x y v :
  Float2D.allocated f c r -> x < c -> y < r ->
  Float2D.get (Float2D.set f x y v) x y = v.
Proof.
  intros Ha Hx Hy. rewrite (get_set f c r) by assumption.
  rewrite decide_True; auto.
Qed.

Lemma get_set_ne f c r x y v x' y' :
  Float2D.allocated f c r -> x < c -> y < r -> y' < r -> (x, y) <> (x', y') ->
  Float2D.get (Float2D.set f x y v) x' y' = Float2D.get f x' y'.
Proof.
  intros Ha Hx Hy Hy' Hne. rewrite (get_set f c r) by assumption.
  rewrite decide_False; [reflexivity|]. intros [-> ->]. apply Hne. reflexivity.
Qed.

(** A loop that writes one cell per pass. The cells [dst i] are pairwise
    distinct and the value [val i] written in pass [i] depends on no cell
    that another pass writes: then every written cell holds the value
    computed from the field before the loop, and no other cell changes. *)
Lemma for_each_set_spec {I : Type} (dst : I -> nat * nat)
    (val : I -> Float2D -> float) (l : list I) (f : Float2D) (c r : nat) :
  Float2D.allocated f c r ->
  List.NoDup (map dst l) ->
  (forall i, In i l -> fst (dst i) < c /\ snd (dst i) < r) ->
  (forall i f', In i l -> Float2D.allocated f' c r ->
     (forall x y, y < r -> (x, y) = dst i \/ ~ In (x, y) (map dst l) ->
        Float2D.get f' x y = Float2D.get f x y) ->
     val i f' = val i f) ->
  let f' :=
    for_each l (fun i g => Float2D.set g (fst (dst i)) (snd (dst i)) (val i g)) f in
  Float2D.allocated f' c r /\
  (forall i, In i l -> Float2D.get f' (fst (dst i)) (snd (dst i)) = val i f) /\
  (forall x y, y < r -> ~ In (x, y) (map dst l) ->
     Float2D.get f' x y = Float2D.get f x y).
Proof.
  revert f. induction l as [|i l IH]; intros f Ha Hnd Hin Hval; simpl.
  { split; [exact Ha|]. split; [intros i []|reflexivity]. }
  inversion Hnd as [|? ? Hi Hl]; subst.
  destruct (Hin i (or_introl eq_refl)) as [Hxi Hyi].
  set (f1 := Float2D.set f (fst (dst i)) (snd (dst i)) (val i f)).
  assert (Ha1 : Float2D.allocated f1 c r) by (apply allocated_set; exact Ha).
  assert (Hf1 : forall x y, y < r -> (x, y) <> dst i ->
                 Float2D.get f1 x y = Float2D.get f x y).
  { intros x y Hy Hne. unfold f1. apply (get_set_ne f c r); try assumption.
    rewrite <- surjective_pairing. congruence. }
  assert (Hother : forall j, In j l -> dst j <> dst i).
  { intros j Hj Heq. apply Hi. rewrite <- Heq. apply in_map. exact Hj. }
  assert (Hstable : forall j, In j l -> val j f1 = val j f).
  { intros j Hj. apply Hval; [right; exact Hj|exact Ha1|].
    intros x y Hy [Heq|Hnot]; apply Hf1; try exact Hy.
    - rewrite Heq. apply Hother. exact Hj.
    - intros Heq. apply Hnot. left. symmetry. exact Heq. }
  destruct (IH f1) as (Ha' & Hwritten & Hkept); try assumption.
  { intros j Hj. apply Hin. right. exact Hj. }
  { intros j f' Hj Haf' Hagree. rewrite Hstable by exact Hj.
    apply Hval; [right; exact Hj|exact Haf'|].
    intros x y Hy Hc. rewrite Hagree; [|exact Hy|].
    - apply Hf1; [exact Hy|]. destruct Hc as [Heq|Hnot].
      + rewrite Heq. apply Hother. exact Hj.
      + intros Heq. apply Hnot. left. symmetry. exact Heq.
    - destruct Hc as [Heq|Hnot]; [left; exact Heq|].
      right. intros Hc. apply Hnot. right. exact Hc. }
  split; [exact Ha'|]. split.
  - intros j [<-|Hj].
    + rewrite Hkept; [|exact Hyi|rewrite <- surjective_pairing; exact Hi].
      unfold f1. apply (get_set_eq f c r); assumption.
    + rewrite Hwritten by exact Hj. apply Hstable. exact Hj.
  - intros x y Hy Hnot. rewrite Hkept; [|exact Hy|].
    + apply Hf1; [exact Hy|]. intros Heq. apply Hnot. left. symmetry. exact Heq.
    + intros Hc. apply Hnot. right. exact Hc.
Qed.

(** ** Frames *)

Lemma sameButUnknowns_refl s : sameButUnknowns s s.
Proof. destruct s. reflexivity. Qed.

Lemma sameButUnknowns_trans s1 s2 s3 :
  sameButUnknowns s1 s2 -> sameButUnknowns s2 s3 -> sameButUnknowns s1 s3.
Proof.
  unfold sameButUnknowns. destruct s1, s2, s3. cbn.
  intros H12 H23. injection H12 as <-. injection H23 as <-. subst. reflexivity.
Qed.

Lemma sameButNetUpdates_refl s : sameButNetUpdates s s.
Proof. destruct s. reflexivity. Qed.

(** what a frame says about one field *)
Ltac frame_of H proj :=
  let E := fresh "E" in
  pose proof (f_equal proj H) as E; cbn in E.

Lemma sameButUnknowns_nx s s' : sameButUnknowns s s' -> nx s' = nx s.
Proof. intros H. frame_of H nx. exact E. Qed.

Lemma sameButUnknowns_ny s s' : sameButUnknowns s s' -> ny s' = ny s.
Proof. intros H. frame_of H ny. exact E. Qed.

Lemma sameButUnknowns_boundaryType s s' :
  sameButUnknowns s s' -> boundaryType s' = boundaryType s.
Proof. intros H. frame_of H boundaryType. exact E. Qed.

Lemma allocated_sameButUnknowns s s' :
  allocated s -> sameButUnknowns s s' ->
  Float2D.allocated (h s') (nx s + 2) (ny s + 2) ->
  Float2D.allocated (hu s') (nx s + 2) (ny s + 2) ->
  Float2D.allocated (hv s') (nx s + 2) (ny s + 2) ->
  Float2D.allocated (b s') (nx s + 2) (ny s + 2) ->
  allocated s'.
Proof.
  intros [] Hf Hh Hhu Hhv Hb.
  frame_of Hf nx. frame_of Hf ny.
  frame_of Hf hNetUpdatesLeft. frame_of Hf hNetUpdatesRight.
  frame_of Hf huNetUpdatesLeft. frame_of Hf huNetUpdatesRight.
  frame_of Hf hNetUpdatesBelow. frame_of Hf hNetUpdatesAbove.
  frame_of Hf hvNetUpdatesBelow. frame_of Hf hvNetUpdatesAbove.
  constructor; congruence.
Qed.

(** a loop whose passes write one cell of each of [h], [hu], [hv] *)
Lemma unknowns_loop {I : Type} (dst : I -> nat * nat)
    (vh vu vv : I -> Float2D -> float) (body : I -> Block -> Block)
    (l : list I) (s : Block) :
  allocated s ->
  List.NoDup (map dst l) ->
  (forall i, In i l -> fst (dst i) < nx s + 2 /\ snd (dst i) < ny s + 2) ->
  (forall i s', In i l -> sameButUnknowns s s' ->
     sameButUnknowns s (body i s') /\
     h (body i s') = Float2D.set (h s') (fst (dst i)) (snd (dst i)) (vh i (h s')) /\
     hu (body i s') = Float2D.set (hu s') (fst (dst i)) (snd (dst i)) (vu i (hu s')) /\
     hv (body i s') = Float2D.set (hv s') (fst (dst i)) (snd (dst i)) (vv i (hv s'))) ->
  stable (nx s + 2) (ny s + 2) l dst vh (h s) ->
  stable (nx s + 2) (ny s + 2) l dst vu (hu s) ->
  stable (nx s + 2) (ny s + 2) l dst vv (hv s) ->
  let s' := for_each l body s in
  sameButUnknowns s s' /\
  written (nx s + 2) (ny s + 2) l dst (fun i => vh i (h s)) (h s) (h s') /\
  written (nx s + 2) (ny s + 2) l dst (fun i => vu i (hu s)) (hu s) (hu s') /\
  written (nx s + 2) (ny s + 2) l dst (fun i => vv i (hv s)) (hv s) (hv s').
Proof.
  intros Ha Hnd Hin Hbody Sh Su Sv s'.
  assert (Hinv : forall i s1, In i l -> sameButUnknowns s s1 ->
                   sameButUnknowns s (body i s1)).
  { intros i s1 Hi H1. apply Hbody; assumption. }
  assert (Hfield : forall (proj : Block -> Float2D) (v : I -> Float2D -> float),
            (forall i s1, In i l -> sameButUnknowns s s1 ->
               proj (body i s1)
               = Float2D.set (proj s1) (fst (dst i)) (snd (dst i)) (v i (proj s1))) ->
            Float2D.allocated (proj s) (nx s + 2) (ny s + 2) ->
            stable (nx s + 2) (ny s + 2) l dst v (proj s) ->
            written (nx s + 2) (ny s + 2) l dst (fun i => v i (proj s))
              (proj s) (proj s')).
  { intros proj v Hproj Hap Hst. unfold s', written.
    rewrite (for_each_proj proj (sameButUnknowns s)
               (fun i g => Float2D.set g (fst (dst i)) (snd (dst i)) (v i g)));
      [|apply sameButUnknowns_refl|exact Hinv|exact Hproj].
    apply for_each_set_spec; assumption. }
  split; [apply for_each_inv; [apply sameButUnknowns_refl|exact Hinv]|].
  split; [|split]; apply Hfield; try assumption; try apply Ha;
    intros i s1 Hi H1; apply Hbody; assumption.
Qed.

(** ** Ghost strips *)

Lemma copyCell_frame fu fv xg yg xi yi s0 s :
  sameButUnknowns s0 s -> sameButUnknowns s0 (copyCell fu fv xg yg xi yi s).
Proof. intros H. exact H. Qed.

(** a loop of [copyCell] passes whose source cells are none of its ghost cells *)
Lemma copyCell_loop {I : Type} (fu fv : float -> float) (dst src : I -> nat * nat)
    (l : list I) (s : Block) :
  allocated s ->
  List.NoDup (map dst l) ->
  (forall i, In i l -> fst (dst i) < nx s + 2 /\ snd (dst i) < ny s + 2) ->
  (forall i, In i l -> snd (src i) < ny s + 2 /\ ~ In (src i) (map dst l)) ->
  let s' :=
    for_each l
      (fun i => copyCell fu fv (fst (dst i)) (snd (dst i)) (fst (src i)) (snd (src i)))
      s in
  sameButUnknowns s s' /\ b s' = b s /\ allocated s' /\
  written (nx s + 2) (ny s + 2) l dst
    (fun i => Float2D.get (h s) (fst (src i)) (snd (src i))) (h s) (h s') /\
  written (nx s + 2) (ny s + 2) l dst
    (fun i => fu (Float2D.get (hu s) (fst (src i)) (snd (src i)))) (hu s) (hu s') /\
  written (nx s + 2) (ny s + 2) l dst
    (fun i => fv (Float2D.get (hv s) (fst (src i)) (snd (src i)))) (hv s) (hv s').
Proof.
  intros Ha Hnd Hin Hsrc s'.
  assert (Hst : forall (g : float -> float) (f : Float2D),
            stable (nx s + 2) (ny s + 2) l dst
              (fun i f' => g (Float2D.get f' (fst (src i)) (snd (src i)))) f).
  { intros g f i f' Hi _ Hagree. f_equal. destruct (Hsrc i Hi) as [Hy Hnot].
    apply Hagree; [exact Hy|]. right. rewrite <- surjective_pairing. exact Hnot. }
  destruct (unknowns_loop dst
              (fun i f' => Float2D.get f' (fst (src i)) (snd (src i)))
              (fun i f' => fu (Float2D.get f' (fst (src i)) (snd (src i))))
              (fun i f' => fv (Float2D.get f' (fst (src i)) (snd (src i))))
              (fun i => copyCell fu fv (fst (dst i)) (snd (dst i))
                          (fst (src i)) (snd (src i)))
              l s) as (Hf & Hh & Hu & Hv); try assumption.
  { intros i s1 _ H1. split; [exact H1|]. repeat split. }
  { apply (Hst (fun v => v)). }
  { apply Hst. }
  { apply Hst. }
  fold s' in Hf, Hh, Hu, Hv.
  assert (Hb : b s' = b s).
  { unfold s'. apply (for_each_const b). reflexivity. }
  split; [exact Hf|]. split; [exact Hb|]. split.
  - apply (allocated_sameButUnknowns s); try assumption.
    + apply Hh.
    + apply Hu.
    + apply Hv.
    + rewrite Hb. apply Ha.
  - auto.
Qed.

Lemma written_cell {I : Type} c r (l : list I) dst val f f' (sel : bool) x y i :
  written c r l dst val f f' -> y < r ->
  (sel = true -> In i l /\ dst i = (x, y)) ->
  (sel = false -> ~ In (x, y) (map dst l)) ->
  Float2D.get f' x y = if sel then val i else Float2D.get f x y.
Proof.
  intros (_ & Hw & Hk) Hy Ht Hf. destruct sel.
  - destruct (Ht eq_refl) as [Hi Hd]. rewrite <- (Hw i Hi), Hd. reflexivity.
  - apply Hk; [exact Hy|]. apply Hf. reflexivity.
Qed.

Lemma NoDup_map_range (g : nat -> nat * nat) lo hi :
  (forall i j, g i = g j -> i = j) -> List.NoDup (map g (range lo hi)).
Proof. intros Hg. apply Injective_map_NoDup; [exact Hg|apply NoDup_range]. Qed.

(** a loop over the cells [1..n] of the ghost column [xg], taken from the
    column [xi] *)
Lemma column_strip fu fv xg xi n s :
  allocated s -> xg < nx s + 2 -> n <= ny s + 1 -> xg <> xi ->
  ghostStage s (for_each (range 1 (n + 1)) (fun j => copyCell fu fv xg j xi j) s)
    (fun x y => bool_decide (x = xg /\ 1 <= y <= n)) (fun _ y => (xi, y)) fu fv.
Proof.
  intros Ha Hxg Hn Hne.
  destruct (copyCell_loop fu fv (fun j => (xg, j)) (fun j => (xi, j))
              (range 1 (n + 1)) s) as (Hf & Hb & Ha' & Hh & Hu & Hv); try assumption.
  { apply NoDup_map_range. intros i j Heq. congruence. }
  { intros i Hi. apply in_range in Hi. simpl. lia. }
  { intros i Hi. apply in_range in Hi. simpl. split; [lia|].
    rewrite in_map_iff. intros (j & Heq & _). congruence. }
  cbn [fst snd] in *. repeat (split; [assumption|]).
  intros x y Hy.
  assert (Ht : bool_decide (x = xg /\ 1 <= y <= n) = true ->
               In y (range 1 (n + 1)) /\ (xg, y) = (x, y)).
  { intros Hd. apply bool_decide_eq_true in Hd as [-> Hd].
    rewrite in_range. split; [lia|reflexivity]. }
  assert (Hff : bool_decide (x = xg /\ 1 <= y <= n) = false ->
                ~ In (x, y) (map (fun j => (xg, j)) (range 1 (n + 1)))).
  { intros Hd. apply bool_decide_eq_false in Hd. rewrite in_map_iff.
    intros (j & Heq & Hj). apply in_range in Hj. apply Hd.
    inversion Heq; subst. lia. }
  split; [|split].
  - apply (written_cell _ _ _ _ _ _ _ _ x y y Hh); assumption.
  - apply (written_cell _ _ _ _ _ _ _ _ x y y Hu); assumption.
  - apply (written_cell _ _ _ _ _ _ _ _ x y y Hv); assumption.
Qed.

(** a loop over the cells [1..n] of the ghost row [yg], taken from the row [yi] *)
Lemma row_strip fu fv yg yi n s :
  allocated s -> yg < ny s + 2 -> yi < ny s + 2 -> n <= nx s + 1 -> yg <> yi ->
  ghostStage s (for_each (range 1 (n + 1)) (fun i => copyCell fu fv i yg i yi) s)
    (fun x y => bool_decide (y = yg /\ 1 <= x <= n)) (fun x _ => (x, yi)) fu fv.
Proof.
  intros Ha Hyg Hyi Hn Hne.
  destruct (copyCell_loop fu fv (fun i => (i, yg)) (fun i => (i, yi))
              (range 1 (n + 1)) s) as (Hf & Hb & Ha' & Hh & Hu & Hv); try assumption.
  { apply NoDup_map_range. intros i j Heq. congruence. }
  { intros i Hi. apply in_range in Hi. simpl. lia. }
  { intros i Hi. apply in_range in Hi. simpl. split; [lia|].
    rewrite in_map_iff. intros (j & Heq & _). congruence. }
  cbn [fst snd] in *. repeat (split; [assumption|]).
  intros x y Hy.
  assert (Ht : bool_decide (y = yg /\ 1 <= x <= n) = true ->
               In x (range 1 (n + 1)) /\ (x, yg) = (x, y)).
  { intros Hd. apply bool_decide_eq_true in Hd as [-> Hd].
    rewrite in_range. split; [lia|reflexivity]. }
  assert (Hff : bool_decide (y = yg /\ 1 <= x <= n) = false ->
                ~ In (x, y) (map (fun i => (i, yg)) (range 1 (n + 1)))).
  { intros Hd. apply bool_decide_eq_false in Hd. rewrite in_map_iff.
    intros (j & Heq & Hj). apply in_range in Hj. apply Hd.
    inversion Heq; subst. lia. }
  split; [|split].
  - apply (written_cell _ _ _ _ _ _ _ _ x y x Hh); assumption.
  - apply (written_cell _ _ _ _ _ _ _ _ x y x Hu); assumption.
  - apply (written_cell _ _ _ _ _ _ _ _ x y x Hv); assumption.
Qed.

(** a single pass *)
Lemma single_cell fu fv xg yg xi yi s :
  allocated s -> xg < nx s + 2 -> yg < ny s + 2 -> yi < ny s + 2 ->
  (xi, yi) <> (xg, yg) ->
  ghostStage s (copyCell fu fv xg yg xi yi s)
    (fun x y => bool_decide (x = xg /\ y = yg)) (fun _ _ => (xi, yi)) fu fv.
Proof.
  intros Ha Hxg Hyg Hyi Hne.
  destruct (copyCell_loop fu fv (fun _ : unit => (xg, yg)) (fun _ => (xi, yi))
              [tt] s) as (Hf & Hb & Ha' & Hh & Hu & Hv); try assumption.
  { repeat constructor. intros []. }
  { intros i _. simpl. lia. }
  { intros i _. simpl. split; [lia|]. intros [Heq|[]]. congruence. }
  cbn [fst snd for_each fold_left] in *. repeat (split; [assumption|]).
  intros x y Hy.
  assert (Ht : bool_decide (x = xg /\ y = yg) = true ->
               In tt [tt] /\ (xg, yg) = (x, y)).
  { intros Hd. apply bool_decide_eq_true in Hd as [-> ->].
    split; [left|]; reflexivity. }
  assert (Hff : bool_decide (x = xg /\ y = yg) = false ->
                ~ In (x, y) (map (fun _ : unit => (xg, yg)) [tt])).
  { intros Hd. apply bool_decide_eq_false in Hd.
    intros [Heq|[]]. apply Hd. inversion Heq; subst. auto. }
  split; [|split].
  - apply (written_cell _ _ _ _ _ _ _ _ x y tt Hh); assumption.
  - apply (written_cell _ _ _ _ _ _ _ _ x y tt Hu); assumption.
  - apply (written_cell _ _ _ _ _ _ _ _ x y tt Hv); assumption.
Qed.

Lemma ghostStage_refl s src fu fv :
  allocated s -> ghostStage s s (fun _ _ => false) src fu fv.
Proof.
  intros Ha. split; [apply sameButUnknowns_refl|]. split; [reflexivity|].
  split; [exact Ha|]. intros x y _. auto.
Qed.

Lemma ghostStage_ext s s' sel sel' src fu fv fu' fv' :
  ghostStage s s' sel src fu fv ->
  (forall x y, sel' x y = sel x y) ->
  (forall x y v, sel x y = true -> fu' v = fu v /\ fv' v = fv v) ->
  ghostStage s s' sel' src fu' fv'.
Proof.
  intros (Hf & Hb & Ha & Hc) Hsel Hfun. repeat (split; [assumption|]).
  intros x y Hy. destruct (Hc x y Hy) as (Eh & Eu & Ev).
  rewrite Hsel, Eh, Eu, Ev. destruct (sel x y) eqn:E; [|auto].
  destruct (Hfun x y (Float2D.get (hu s) (fst (src x y)) (snd (src x y))) E) as [-> _].
  destruct (Hfun x y (Float2D.get (hv s) (fst (src x y)) (snd (src x y))) E) as [_ ->].
  auto.
Qed.

Lemma leftBoundary_stage s :
  allocated s ->
  ghostStage s (leftBoundary s)
    (fun x y => fillsGhost (boundaryType s BND_LEFT)
                && bool_decide (x = 0 /\ 1 <= y <= ny s))
    (fun _ y => (1, y)) (normalMomentum (boundaryType s BND_LEFT)) keep.
Proof.
  intros Ha. unfold leftBoundary.
  destruct (boundaryType s BND_LEFT); cbn [fillsGhost normalMomentum andb];
    try (apply ghostStage_refl; exact Ha);
    apply column_strip; try assumption; lia.
Qed.

Lemma rightBoundary_stage s :
  allocated s ->
  ghostStage s (rightBoundary s)
    (fun x y => fillsGhost (boundaryType s BND_RIGHT)
                && bool_decide (x = nx s + 1 /\ 1 <= y <= ny s))
    (fun _ y => (nx s, y)) (normalMomentum (boundaryType s BND_RIGHT)) keep.
Proof.
  intros Ha. unfold rightBoundary.
  destruct (boundaryType s BND_RIGHT); cbn [fillsGhost normalMomentum andb];
    try (apply ghostStage_refl; exact Ha);
    apply column_strip; try assumption; lia.
Qed.

Lemma bottomBoundary_stage s :
  allocated s ->
  ghostStage s (bottomBoundary s)
    (fun x y => fillsGhost (boundaryType s BND_BOTTOM)
                && bool_decide (y = 0 /\ 1 <= x <= nx s))
    (fun x _ => (x, 1)) keep (normalMomentum (boundaryType s BND_BOTTOM)).
Proof.
  intros Ha. unfold bottomBoundary.
  destruct (boundaryType s BND_BOTTOM); cbn [fillsGhost normalMomentum andb];
    try (apply ghostStage_refl; exact Ha);
    apply row_strip; try assumption; lia.
Qed.

Lemma topBoundary_stage s :
  allocated s ->
  ghostStage s (topBoundary s)
    (fun x y => fillsGhost (boundaryType s BND_TOP)
                && bool_decide (y = ny s + 1 /\ 1 <= x <= nx s))
    (fun x _ => (x, ny s)) keep (normalMomentum (boundaryType s BND_TOP)).
Proof.
  intros Ha. unfold topBoundary.
  destruct (boundaryType s BND_TOP); cbn [fillsGhost normalMomentum andb];
    try (apply ghostStage_refl; exact Ha);
    apply row_strip; try assumption; lia.
Qed.

Lemma stage_untouched s s' sel src fu fv x y :
  ghostStage s s' sel src fu fv -> y < ny s + 2 -> sel x y = false ->
  unknownsAt s' x y = unknownsAt s x y.
Proof.
  intros (_ & _ & _ & Hc) Hy Hsel. destruct (Hc x y Hy) as (Eh & Eu & Ev).
  unfold unknownsAt. rewrite Eh, Eu, Ev, Hsel. reflexivity.
Qed.

Lemma stage_touched s s' sel src fu fv x y :
  ghostStage s s' sel src fu fv -> y < ny s + 2 -> sel x y = true ->
  unknownsAt s' x y
  = (Float2D.get (h s) (fst (src x y)) (snd (src x y)),
     fu (Float2D.get (hu s) (fst (src x y)) (snd (src x y))),
     fv (Float2D.get (hv s) (fst (src x y)) (snd (src x y)))).
Proof.
  intros (_ & _ & _ & Hc) Hy Hsel. destruct (Hc x y Hy) as (Eh & Eu & Ev).
  unfold unknownsAt. rewrite Eh, Eu, Ev, Hsel. reflexivity.
Qed.

Lemma ghostStage_geometry s s' sel src fu fv :
  ghostStage s s' sel src fu fv ->
  nx s' = nx s /\ ny s' = ny s /\ boundaryType s' = boundaryType s.
Proof.
  intros (Hf & _). split; [|split].
  - apply sameButUnknowns_nx, Hf.
  - apply sameButUnknowns_ny, Hf.
  - apply sameButUnknowns_boundaryType, Hf.
Qed.

(** the selector of a stage rejects the cell *)
Ltac sel_false :=
  cbv beta;
  first [ apply bool_decide_eq_false_2; lia
        | apply andb_false_intro2; apply bool_decide_eq_false_2; lia ].

(** the states between the stages of applyBoundaryConditions *)
Lemma applyBoundaryConditions_stages s :
  allocated s ->
  exists s1 s2 s3 s4 s5 s6 s7 : Block,
    ghostStage s s1
      (fun x y => fillsGhost (boundaryType s BND_LEFT)
                  && bool_decide (x = 0 /\ 1 <= y <= ny s))
      (fun _ y => (1, y)) (normalMomentum (boundaryType s BND_LEFT)) keep /\
    ghostStage s1 s2
      (fun x y => fillsGhost (boundaryType s BND_RIGHT)
                  && bool_decide (x = nx s + 1 /\ 1 <= y <= ny s))
      (fun _ y => (nx s, y)) (normalMomentum (boundaryType s BND_RIGHT)) keep /\
    ghostStage s2 s3
      (fun x y => fillsGhost (boundaryType s BND_BOTTOM)
                  && bool_decide (y = 0 /\ 1 <= x <= nx s))
      (fun x _ => (x, 1)) keep (normalMomentum (boundaryType s BND_BOTTOM)) /\
    ghostStage s3 s4
      (fun x y => fillsGhost (boundaryType s BND_TOP)
                  && bool_decide (y = ny s + 1 /\ 1 <= x <= nx s))
      (fun x _ => (x, ny s)) keep (normalMomentum (boundaryType s BND_TOP)) /\
    ghostStage s4 s5 (fun x y => bool_decide (x = 0 /\ y = 0))
      (fun _ _ => (1, 1)) keep keep /\
    ghostStage s5 s6 (fun x y => bool_decide (x = 0 /\ y = ny s + 1))
      (fun _ _ => (1, ny s)) keep keep /\
    ghostStage s6 s7 (fun x y => bool_decide (x = nx s + 1 /\ y = 0))
      (fun _ _ => (nx s, 1)) keep keep /\
    ghostStage s7 (applyBoundaryConditions s)
      (fun x y => bool_decide (x = nx s + 1 /\ y = ny s + 1))
      (fun _ _ => (nx s, ny s)) keep keep.
Proof.
  intros Ha. unfold applyBoundaryConditions, cornerGhostCells. cbv zeta.
  pose proof (leftBoundary_stage s Ha) as H1.
  set (s1 := leftBoundary s) in *.
  destruct (ghostStage_geometry _ _ _ _ _ _ H1) as (N1 & M1 & B1).
  pose proof (rightBoundary_stage s1 (proj1 (proj2 (proj2 H1)))) as H2.
  set (s2 := rightBoundary s1) in *.
  destruct (ghostStage_geometry _ _ _ _ _ _ H2) as (N2 & M2 & B2).
  pose proof (bottomBoundary_stage s2 (proj1 (proj2 (proj2 H2)))) as H3.
  set (s3 := bottomBoundary s2) in *.
  destruct (ghostStage_geometry _ _ _ _ _ _ H3) as (N3 & M3 & B3).
  pose proof (topBoundary_stage s3 (proj1 (proj2 (proj2 H3)))) as H4.
  set (s4 := topBoundary s3) in *.
  destruct (ghostStage_geometry _ _ _ _ _ _ H4) as (N4 & M4 & B4).
  assert (N : nx s4 = nx s) by congruence.
  assert (M : ny s4 = ny s) by congruence.
  rewrite N, M.
  assert (A4 := proj1 (proj2 (proj2 H4))).
  assert (H5 : ghostStage s4 (copyCell keep keep 0 0 1 1 s4)
                 (fun x y => bool_decide (x = 0 /\ y = 0))
                 (fun _ _ => (1, 1)) keep keep).
  { apply single_cell; try assumption; try lia; try congruence. }
  set (s5 := copyCell keep keep 0 0 1 1 s4) in *.
  destruct (ghostStage_geometry _ _ _ _ _ _ H5) as (N5 & M5 & _).
  assert (H6 : ghostStage s5 (copyCell keep keep 0 (ny s + 1) 1 (ny s) s5)
                 (fun x y => bool_decide (x = 0 /\ y = ny s + 1))
                 (fun _ _ => (1, ny s)) keep keep).
  { apply single_cell; try apply H5; try lia; try congruence. }
  set (s6 := copyCell keep keep 0 (ny s + 1) 1 (ny s) s5) in *.
  destruct (ghostStage_geometry _ _ _ _ _ _ H6) as (N6 & M6 & _).
  assert (H7 : ghostStage s6 (copyCell keep keep (nx s + 1) 0 (nx s) 1 s6)
                 (fun x y => bool_decide (x = nx s + 1 /\ y = 0))
                 (fun _ _ => (nx s, 1)) keep keep).
  { apply single_cell; try apply H6; try lia; try (intros Heq; inversion Heq; lia). }
  set (s7 := copyCell keep keep (nx s + 1) 0 (nx s) 1 s6) in *.
  destruct (ghostStage_geometry _ _ _ _ _ _ H7) as (N7 & M7 & _).
  assert (H8 : ghostStage s7 (copyCell keep keep (nx s + 1) (ny s + 1) (nx s) (ny s) s7)
                 (fun x y => bool_decide (x = nx s + 1 /\ y = ny s + 1))
                 (fun _ _ => (nx s, ny s)) keep keep).
  { apply single_cell; try apply H7; try lia; try (intros Heq; inversion Heq; lia). }
  exists s1, s2, s3, s4, s5, s6, s7.
  rewrite ?N1, ?M1, ?B1 in H2. rewrite ?N2, ?M2, ?B2, ?N1, ?M1, ?B1 in H3.
  rewrite ?N3, ?M3, ?B3, ?N2, ?M2, ?B2, ?N1, ?M1, ?B1 in H4.
  repeat (split; [assumption|]). exact H8.
Qed.

(** the stage [H] leaves the cell of the goal alone *)
Ltac skip_stage H :=
  rewrite (stage_untouched _ _ _ _ _ _ _ _ H) by first [lia | sel_false].

Ltac selects E :=
  cbv beta; rewrite ?E; cbn [andb]; apply bool_decide_eq_true_2; lia.

(** The unknowns after applyBoundaryConditions, cell by cell, in terms of the
    unknowns before it: the interior is left alone, and every cell of a ghost
    strip holds the values of the interior cell next to it, or is left alone,
    as the type of its edge asks. *)
Lemma applyBoundaryConditions_cells s :
  allocated s -> 1 <= nx s -> 1 <= ny s ->
  let s' := applyBoundaryConditions s in
  (forall x y, interior s x y -> unknownsAt s' x y = unknownsAt s x y) /\
  (forall j, 1 <= j <= ny s ->
     unknownsAt s' 0 j
     = if fillsGhost (boundaryType s BND_LEFT)
       then (Float2D.get (h s) 1 j,
             normalMomentum (boundaryType s BND_LEFT) (Float2D.get (hu s) 1 j),
             Float2D.get (hv s) 1 j)
       else unknownsAt s 0 j) /\
  (forall j, 1 <= j <= ny s ->
     unknownsAt s' (nx s + 1) j
     = if fillsGhost (boundaryType s BND_RIGHT)
       then (Float2D.get (h s) (nx s) j,
             normalMomentum (boundaryType s BND_RIGHT) (Float2D.get (hu s) (nx s) j),
             Float2D.get (hv s) (nx s) j)
       else unknownsAt s (nx s + 1) j) /\
  (forall i, 1 <= i <= nx s ->
     unknownsAt s' i 0
     = if fillsGhost (boundaryType s BND_BOTTOM)
       then (Float2D.get (h s) i 1,
             Float2D.get (hu s) i 1,
             normalMomentum (boundaryType s BND_BOTTOM) (Float2D.get (hv s) i 1))
       else unknownsAt s i 0) /\
  (forall i, 1 <= i <= nx s ->
     unknownsAt s' i (ny s + 1)
     = if fillsGhost (boundaryType s BND_TOP)
       then (Float2D.get (h s) i (ny s),
             Float2D.get (hu s) i (ny s),
             normalMomentum (boundaryType s BND_TOP) (Float2D.get (hv s) i (ny s)))
       else unknownsAt s i (ny s + 1)).
Proof.
  intros Ha Hnx Hny s'.
  destruct (applyBoundaryConditions_stages s Ha)
    as (s1 & s2 & s3 & s4 & s5 & s6 & s7 & H1 & H2 & H3 & H4 & H5 & H6 & H7 & H8).
  fold s' in H8.
  destruct (ghostStage_geometry _ _ _ _ _ _ H1) as (_ & M1 & _).
  destruct (ghostStage_geometry _ _ _ _ _ _ H2) as (_ & M2 & _).
  destruct (ghostStage_geometry _ _ _ _ _ _ H3) as (_ & M3 & _).
  destruct (ghostStage_geometry _ _ _ _ _ _ H4) as (_ & M4 & _).
  destruct (ghostStage_geometry _ _ _ _ _ _ H5) as (_ & M5 & _).
  destruct (ghostStage_geometry _ _ _ _ _ _ H6) as (_ & M6 & _).
  destruct (ghostStage_geometry _ _ _ _ _ _ H7) as (_ & M7 & _).
  assert (I1 : forall x y, interior s x y -> unknownsAt s1 x y = unknownsAt s x y).
  { intros x y [Hx Hy]. skip_stage H1. reflexivity. }
  assert (I2 : forall x y, interior s x y -> unknownsAt s2 x y = unknownsAt s x y).
  { intros x y [Hx Hy]. skip_stage H2. apply I1. split; assumption. }
  assert (I3 : forall x y, interior s x y -> unknownsAt s3 x y = unknownsAt s x y).
  { intros x y [Hx Hy]. skip_stage H3. apply I2. split; assumption. }
  split; [|split; [|split; [|split]]].
  - intros x y [Hx Hy].
    skip_stage H8. skip_stage H7. skip_stage H6. skip_stage H5. skip_stage H4.
    apply I3. split; assumption.
  - intros j Hj.
    skip_stage H8. skip_stage H7. skip_stage H6. skip_stage H5. skip_stage H4.
    skip_stage H3. skip_stage H2.
    destruct (fillsGhost (boundaryType s BND_LEFT)) eqn:E.
    + rewrite (stage_touched _ _ _ _ _ _ _ _ H1) by first [lia | selects E].
      reflexivity.
    + rewrite (stage_untouched _ _ _ _ _ _ _ _ H1); [reflexivity|lia|].
      cbv beta. rewrite ?E. reflexivity.
  - intros j Hj.
    skip_stage H8. skip_stage H7. skip_stage H6. skip_stage H5. skip_stage H4.
    skip_stage H3.
    destruct (fillsGhost (boundaryType s BND_RIGHT)) eqn:E.
    + rewrite (stage_touched _ _ _ _ _ _ _ _ H2) by first [lia | selects E].
      cbn [fst snd].
      assert (Hi : interior s (nx s) j) by (split; lia).
      apply I1 in Hi. unfold unknownsAt in Hi. injection Hi as -> -> ->.
      reflexivity.
    + rewrite (stage_untouched _ _ _ _ _ _ _ _ H2); [|lia|cbv beta; rewrite ?E; reflexivity].
      skip_stage H1. reflexivity.
  - intros i Hi.
    skip_stage H8. skip_stage H7. skip_stage H6. skip_stage H5. skip_stage H4.
    destruct (fillsGhost (boundaryType s BND_BOTTOM)) eqn:E.
    + rewrite (stage_touched _ _ _ _ _ _ _ _ H3) by first [lia | selects E].
      cbn [fst snd].
      assert (Hin : interior s i 1) by (split; lia).
      apply I2 in Hin. unfold unknownsAt in Hin. injection Hin as -> -> ->.
      reflexivity.
    + rewrite (stage_untouched _ _ _ _ _ _ _ _ H3); [|lia|cbv beta; rewrite ?E; reflexivity].
      skip_stage H2. skip_stage H1. reflexivity.
  - intros i Hi.
    skip_stage H8. skip_stage H7. skip_stage H6. skip_stage H5.
    destruct (fillsGhost (boundaryType s BND_TOP)) eqn:E.
    + rewrite (stage_touched _ _ _ _ _ _ _ _ H4) by first [lia | selects E].
      cbn [fst snd].
      assert (Hin : interior s i (ny s)) by (split; lia).
      apply I3 in Hin. unfold unknownsAt in Hin. injection Hin as -> -> ->.
      reflexivity.
    + rewrite (stage_untouched _ _ _ _ _ _ _ _ H4); [|lia|cbv beta; rewrite ?E; reflexivity].
      skip_stage H3. skip_stage H2. skip_stage H1. reflexivity.
Qed.

(** C4. After applyBoundaryConditions, on a block with at least one cell in
    each direction: on a WALL edge every ghost cell of the strip [1..ny]
    (left, right) or [1..nx] (bottom, top) holds the [h] of the interior
    cell next to it, the negated momentum normal to the edge ([hu] on the
    left and right, [hv] at the bottom and top) and the unchanged tangential
    momentum; on an OUTFLOW edge it holds all three unchanged; on a CONNECT
    or PASSIVE edge the strip is as it was before the operation. *)
Theorem applyBoundaryConditions_ghost_strips (s : Block) :
  allocated s -> 1 <= nx s -> 1 <= ny s ->
  let s' := applyBoundaryConditions s in
  (forall j, 1 <= j <= ny s ->
     ghostRule (boundaryType s BND_LEFT) F32.opp keep s s' 0 j 1 j) /\
  (forall j, 1 <= j <= ny s ->
     ghostRule (boundaryType s BND_RIGHT) F32.opp keep s s' (nx s + 1) j (nx s) j) /\
  (forall i, 1 <= i <= nx s ->
     ghostRule (boundaryType s BND_BOTTOM) keep F32.opp s s' i 0 i 1) /\
  (forall i, 1 <= i <= nx s ->
     ghostRule (boundaryType s BND_TOP) keep F32.opp s s' i (ny s + 1) i (ny s)).
Proof.
  intros Ha Hnx Hny s'.
  destruct (applyBoundaryConditions_cells s Ha Hnx Hny) as (HI & HL & HR & HB & HT).
  fold s' in HI, HL, HR, HB, HT. clearbody s'.
  assert (Hint : forall x y, interior s x y ->
            Float2D.get (h s') x y = Float2D.get (h s) x y /\
            Float2D.get (hu s') x y = Float2D.get (hu s) x y /\
            Float2D.get (hv s') x y = Float2D.get (hv s) x y).
  { intros x y Hxy. specialize (HI x y Hxy). unfold unknownsAt in HI.
    injection HI as -> -> ->. auto. }
  split; [|split; [|split]].
  - intros j Hj. specialize (HL j Hj). unfold unknownsAt in HL.
    destruct (Hint 1 j) as (E1 & E2 & E3); [split; lia|].
    unfold ghostRule.
    destruct (boundaryType s BND_LEFT); cbn [fillsGhost normalMomentum] in HL;
      injection HL as -> -> ->;
      rewrite ?E1, ?E2, ?E3; auto.
  - intros j Hj. specialize (HR j Hj). unfold unknownsAt in HR.
    destruct (Hint (nx s) j) as (E1 & E2 & E3); [split; lia|].
    unfold ghostRule.
    destruct (boundaryType s BND_RIGHT); cbn [fillsGhost normalMomentum] in HR;
      injection HR as -> -> ->;
      rewrite ?E1, ?E2, ?E3; auto.
  - intros i Hi. specialize (HB i Hi). unfold unknownsAt in HB.
    destruct (Hint i 1) as (E1 & E2 & E3); [split; lia|].
    unfold ghostRule.
    destruct (boundaryType s BND_BOTTOM); cbn [fillsGhost normalMomentum] in HB;
      injection HB as -> -> ->;
      rewrite ?E1, ?E2, ?E3; auto.
  - intros i Hi. specialize (HT i Hi). unfold unknownsAt in HT.
    destruct (Hint i (ny s)) as (E1 & E2 & E3); [split; lia|].
    unfold ghostRule.
    destruct (boundaryType s BND_TOP); cbn [fillsGhost normalMomentum] in HT;
      injection HT as -> -> ->;
      rewrite ?E1, ?E2, ?E3; auto.
Qed.

(** ** Unpacking a copy layer *)

Lemma unpack_loop msg (cell : nat -> nat * nat) n s :
  allocated s ->
  (forall i, i < n -> fst (cell i) < nx s + 2 /\ snd (cell i) < ny s + 2) ->
  (forall i j, cell i = cell j -> i = j) ->
  let s' :=
    for_each (range 0 n) (fun i => unpackCell msg i (fst (cell i)) (snd (cell i))) s in
  unpacked msg s s' cell n /\ allocated s'.
Proof.
  intros Ha Hin Hinj s'. unfold s'. clear s'.
  set (body := fun i => unpackCell msg i (fst (cell i)) (snd (cell i))).
  assert (Hnd : List.NoDup (map cell (range 0 n))).
  { apply NoDup_map_range. exact Hinj. }
  assert (Hin' : forall i, In i (range 0 n) ->
                   fst (cell i) < nx s + 2 /\ snd (cell i) < ny s + 2).
  { intros i Hi. apply in_range in Hi. apply Hin. lia. }
  assert (Hframe : forall i s1, sameButUnknowns s s1 -> sameButUnknowns s (body i s1)).
  { intros i s1 H1. unfold body, unpackCell.
    destruct (copyLayer.containsBathymetry msg); exact H1. }
  destruct (unknowns_loop cell
              (fun i _ => copyLayer.h msg !!! i) (fun i _ => copyLayer.hu msg !!! i)
              (fun i _ => copyLayer.hv msg !!! i) body (range 0 n) s)
    as (Hf & Hh & Hu & Hv); try assumption; try (intros i f' _ _ _; reflexivity).
  { intros i s1 _ H1. split; [apply Hframe; exact H1|].
    unfold body, unpackCell.
    destruct (copyLayer.containsBathymetry msg); repeat split. }
  assert (Hb : if copyLayer.containsBathymetry msg
               then written (nx s + 2) (ny s + 2) (range 0 n) cell
                      (fun i => copyLayer.b msg !!! i) (b s)
                      (b (for_each (range 0 n) body s))
               else b (for_each (range 0 n) body s) = b s).
  { destruct (copyLayer.containsBathymetry msg) eqn:E.
    - rewrite (for_each_proj b (sameButUnknowns s)
                 (fun i g => Float2D.set g (fst (cell i)) (snd (cell i))
                               (copyLayer.b msg !!! i))).
      + apply (for_each_set_spec cell (fun i _ => copyLayer.b msg !!! i));
          try assumption; [apply Ha|]. intros i f' _ _ _. reflexivity.
      + apply sameButUnknowns_refl.
      + intros i s1 _ H1. apply Hframe. exact H1.
      + intros i s1 _ _. unfold body, unpackCell. rewrite E. reflexivity.
    - apply (for_each_const b). intros i s1. unfold body, unpackCell.
      rewrite E. reflexivity. }
  assert (Hmem : forall x y, (forall i, i < n -> cell i <> (x, y)) ->
                   ~ In (x, y) (map cell (range 0 n))).
  { intros x y Hne. rewrite in_map_iff. intros (i & Heq & Hi).
    apply in_range in Hi. apply (Hne i); [lia|exact Heq]. }
  split; [|apply (allocated_sameButUnknowns s);
             [exact Ha|exact Hf|apply Hh|apply Hu|apply Hv|];
             destruct (copyLayer.containsBathymetry msg);
             [apply Hb|rewrite Hb; apply Ha]].
  split; [exact Hf|]. split; [|split].
  - intros i Hi. assert (Hi' : In i (range 0 n)) by (apply in_range; lia).
    destruct Hh as (_ & Hh & _), Hu as (_ & Hu & _), Hv as (_ & Hv & _).
    rewrite (Hh i Hi'), (Hu i Hi'), (Hv i Hi'). repeat (split; [reflexivity|]).
    destruct (copyLayer.containsBathymetry msg).
    + destruct Hb as (_ & Hb & _). apply Hb. exact Hi'.
    + rewrite Hb. reflexivity.
  - intros x y Hy Hne. specialize (Hmem x y Hne).
    destruct Hh as (_ & _ & Hh), Hu as (_ & _ & Hu), Hv as (_ & _ & Hv).
    rewrite (Hh x y Hy Hmem), (Hu x y Hy Hmem), (Hv x y Hy Hmem).
    repeat (split; [reflexivity|]).
    destruct (copyLayer.containsBathymetry msg).
    + destruct Hb as (_ & _ & Hb). apply Hb; assumption.
    + rewrite Hb. reflexivity.
  - intros E. rewrite E in Hb. exact Hb.
Qed.

(** C6. processCopyLayer unpacks a message into the ghost strip across from
    its tag, provided that edge of the receiver is CONNECT: a RIGHT message
    fills the column [x = 0], a LEFT message the column [x = nx + 1], both for
    [y] in [1..ny]; a TOP message fills the row [y = 0], a BOTTOM message the
    row [y = ny + 1], both for [x] in [1..nx]. Sample [i] of [h], [hu], [hv]
    goes to cell [i + 1] of the strip, the samples of [b] do so exactly when
    containsBathymetry is set, and no other cell changes. *)
Theorem processCopyLayer_fills_opposite_strip (msg : copyLayer) (s : Block) :
  allocated s ->
  let s' := processCopyLayer msg s in
  (copyLayer.boundary msg = BND_RIGHT -> boundaryType s BND_LEFT = CONNECT ->
   unpacked msg s s' (fun i => (0, i + 1)) (ny s)) /\
  (copyLayer.boundary msg = BND_LEFT -> boundaryType s BND_RIGHT = CONNECT ->
   unpacked msg s s' (fun i => (nx s + 1, i + 1)) (ny s)) /\
  (copyLayer.boundary msg = BND_TOP -> boundaryType s BND_BOTTOM = CONNECT ->
   unpacked msg s s' (fun i => (i + 1, 0)) (nx s)) /\
  (copyLayer.boundary msg = BND_BOTTOM -> boundaryType s BND_TOP = CONNECT ->
   unpacked msg s s' (fun i => (i + 1, ny s + 1)) (nx s)).
Proof.
  intros Ha s'. unfold s', processCopyLayer.
  split; [|split; [|split]]; intros -> ->; cbn [bool_decide decide_rel andb];
    rewrite ?bool_decide_eq_true_2 by reflexivity;
    rewrite ?bool_decide_eq_false_2 by discriminate; cbn [andb].
  - apply (unpack_loop msg (fun i => (0, i + 1)) _ s); [exact Ha| |].
    + intros i Hi. simpl. lia.
    + intros i j Heq. inversion Heq. lia.
  - apply (unpack_loop msg (fun i => (nx s + 1, i + 1)) _ s); [exact Ha| |].
    + intros i Hi. simpl. lia.
    + intros i j Heq. inversion Heq. lia.
  - apply (unpack_loop msg (fun i => (i + 1, 0)) _ s); [exact Ha| |].
    + intros i Hi. simpl. lia.
    + intros i j Heq. inversion Heq. lia.
  - apply (unpack_loop msg (fun i => (i + 1, ny s + 1)) _ s); [exact Ha| |].
    + intros i Hi. simpl. lia.
    + intros i j Heq. inversion Heq. lia.
Qed.

(** C10. A message whose tag meets no CONNECT boundary on the edge of the
    receiver across from it is dropped: processCopyLayer returns the block
    as it was, so [h], [hu], [hv] and [b] are unchanged, and there is no
    error. *)
Theorem processCopyLayer_discards_unpaired (msg : copyLayer) (s : Block) :
  boundaryType s (opposite (copyLayer.boundary msg)) <> CONNECT ->
  processCopyLayer msg s = s.
Proof.
  intros Hne. unfold processCopyLayer.
  destruct (copyLayer.boundary msg); cbn [opposite] in Hne;
    repeat match goal with
      | |- context [bool_decide ?P] =>
          first [ rewrite (bool_decide_eq_true_2 P) by reflexivity
                | rewrite (bool_decide_eq_false_2 P)
                    by first [discriminate | exact Hne] ];
          cbn [andb]
      end;
    reflexivity.
Qed.

(** ** The update of the unknowns *)

Lemma NoDup_map_pairs (g : nat * nat -> nat * nat) xlo xhi ylo yhi :
  (forall p q, g p = g q -> p = q) ->
  List.NoDup (map g (collapse2 xlo xhi ylo yhi)).
Proof. intros Hg. apply Injective_map_NoDup; [exact Hg|apply NoDup_collapse2]. Qed.

Lemma in_collapse2_pair xlo xhi ylo yhi (xy : nat * nat) :
  In xy (collapse2 xlo xhi ylo yhi) <->
  (xlo <= fst xy < xhi) /\ (ylo <= snd xy < yhi).
Proof. destruct xy as [x y]. apply in_collapse2. Qed.

Lemma updateUnknowns_loop dt s :
  allocated s ->
  let s' :=
    for_each (collapse2 1 (nx s + 1) 1 (ny s + 1)) (updateUnknownsCell dt) s in
  sameButUnknowns s s' /\ b s' = b s /\
  (forall x y, interior s x y -> updatedCell dt s s' x y).
Proof.
  intros Ha s'.
  set (l := collapse2 1 (nx s + 1) 1 (ny s + 1)).
  set (vh := fun (xy : nat * nat) (g : Float2D) =>
               F32.sub (Float2D.get g (fst xy) (snd xy))
                 (F32.add
                    (F32.mul (F32.div dt (dx s))
                       (F32.add (Float2D.get (hNetUpdatesRight s) (fst xy) (snd xy))
                                (Float2D.get (hNetUpdatesLeft s) (fst xy) (snd xy))))
                    (F32.mul (F32.div dt (dy s))
                       (F32.add (Float2D.get (hNetUpdatesAbove s) (fst xy) (snd xy))
                                (Float2D.get (hNetUpdatesBelow s) (fst xy) (snd xy)))))).
  set (vu := fun (xy : nat * nat) (g : Float2D) =>
               F32.sub (Float2D.get g (fst xy) (snd xy))
                 (F32.mul (F32.div dt (dx s))
                    (F32.add (Float2D.get (huNetUpdatesRight s) (fst xy) (snd xy))
                             (Float2D.get (huNetUpdatesLeft s) (fst xy) (snd xy))))).
  set (vv := fun (xy : nat * nat) (g : Float2D) =>
               F32.sub (Float2D.get g (fst xy) (snd xy))
                 (F32.mul (F32.div dt (dy s))
                    (F32.add (Float2D.get (hvNetUpdatesAbove s) (fst xy) (snd xy))
                             (Float2D.get (hvNetUpdatesBelow s) (fst xy) (snd xy))))).
  assert (Hst : forall (v : nat * nat -> float) (f : Float2D),
            stable (nx s + 2) (ny s + 2) l (fun xy => xy)
              (fun xy g => F32.sub (Float2D.get g (fst xy) (snd xy)) (v xy)) f).
  { intros v f xy f' Hxy _ Hagree. f_equal.
    apply in_collapse2_pair in Hxy. destruct xy as [x y].
    apply Hagree; [simpl in *; lia|left; reflexivity]. }
  destruct (unknowns_loop (fun xy => xy) vh vu vv (updateUnknownsCell dt) l s)
    as (Hf & Hh & Hu & Hv); try assumption; try apply Hst.
  { apply NoDup_map_pairs. auto. }
  { intros xy Hxy. apply in_collapse2_pair in Hxy. lia. }
  { intros xy s1 _ H1. split; [exact H1|].
    frame_of H1 dx. frame_of H1 dy.
    frame_of H1 hNetUpdatesLeft. frame_of H1 hNetUpdatesRight.
    frame_of H1 huNetUpdatesLeft. frame_of H1 huNetUpdatesRight.
    frame_of H1 hNetUpdatesBelow. frame_of H1 hNetUpdatesAbove.
    frame_of H1 hvNetUpdatesBelow. frame_of H1 hvNetUpdatesAbove.
    unfold updateUnknownsCell, vh, vu, vv. cbn.
    repeat match goal with E : _ s1 = _ s |- _ => rewrite E; clear E end.
    repeat split. }
  fold s' in Hf, Hh, Hu, Hv.
  split; [exact Hf|]. split.
  - unfold s'. apply (for_each_const b). reflexivity.
  - intros x y [Hx Hy].
    assert (Hxy : In (x, y) l) by (apply in_collapse2; lia).
    destruct Hh as (_ & Hh & _), Hu as (_ & Hu & _), Hv as (_ & Hv & _).
    specialize (Hh _ Hxy). specialize (Hu _ Hxy). specialize (Hv _ Hxy).
    unfold updatedCell. repeat split; assumption.
Qed.

Lemma updateUnknowns_Done dt s s' :
  updateUnknowns dt s = Done s' ->
  timestepAgrees dt s = true /\
  s' = for_each (collapse2 1 (nx s + 1) 1 (ny s + 1)) (updateUnknownsCell dt) s.
Proof.
  unfold updateUnknowns, assert. destruct (timestepAgrees dt s); simpl.
  - intros H. injection H as <-. auto.
  - discriminate.
Qed.

(** C2. On an allocated block updateUnknowns(dt) performs the update
    whenever its time-step assertion holds: it completes. And when it has
    completed, every interior cell [(x, y)], [x] in [1..nx] and [y] in
    [1..ny], holds: in [h] its previous value minus the sum of [(dt/dx) *
    (hNetUpdatesRight + hNetUpdatesLeft)] and [(dt/dy) * (hNetUpdatesAbove +
    hNetUpdatesBelow)], so both terms are subtracted; in [hu] its previous
    value minus [(dt/dx) * (huNetUpdatesRight + huNetUpdatesLeft)]; in [hv]
    its previous value minus [(dt/dy) * (hvNetUpdatesAbove +
    hvNetUpdatesBelow)]. Every net update is read at [(x, y)] from the
    buffers as they were before the step, and the step leaves the buffers as
    they were. *)
Theorem updateUnknowns_interior (dt : float) (s : Block) :
  allocated s ->
  (timestepAgrees dt s = true -> exists s', updateUnknowns dt s = Done s') /\
  (forall s', updateUnknowns dt s = Done s' ->
     sameButUnknowns s s' /\
     forall x y, 1 <= x <= nx s -> 1 <= y <= ny s ->
       Float2D.get (h s') x y
       = F32.sub (Float2D.get (h s) x y)
           (F32.add
              (F32.mul (F32.div dt (dx s))
                 (F32.add (Float2D.get (hNetUpdatesRight s) x y)
                          (Float2D.get (hNetUpdatesLeft s) x y)))
              (F32.mul (F32.div dt (dy s))
                 (F32.add (Float2D.get (hNetUpdatesAbove s) x y)
                          (Float2D.get (hNetUpdatesBelow s) x y)))) /\
       Float2D.get (hu s') x y
       = F32.sub (Float2D.get (hu s) x y)
           (F32.mul (F32.div dt (dx s))
              (F32.add (Float2D.get (huNetUpdatesRight s) x y)
                       (Float2D.get (huNetUpdatesLeft s) x y))) /\
       Float2D.get (hv s') x y
       = F32.sub (Float2D.get (hv s) x y)
           (F32.mul (F32.div dt (dy s))
              (F32.add (Float2D.get (hvNetUpdatesAbove s) x y)
                       (Float2D.get (hvNetUpdatesBelow s) x y)))).
Proof.
  intros Ha. split.
  - intros Hagree. unfold updateUnknowns. rewrite Hagree. cbn [assert bind].
    eexists. reflexivity.
  - intros s' Hdone. apply updateUnknowns_Done in Hdone as [_ ->].
    destruct (updateUnknowns_loop dt s Ha) as (Hf & _ & Hcells).
    split; [exact Hf|]. intros x y Hx Hy. apply Hcells. split; assumption.
Qed.

(** C5. updateUnknowns(dt) asserts [std::abs(dt - maxTimestep) < 0.00001].
    When the comparison fails the call stops at the assertion with the block
    as it was, no cell modified; when it holds the assertion is passed and
    the call completes with the update of the interior cells. *)
Theorem updateUnknowns_timestep_assertion (dt : float) (s : Block) :
  (timestepAgrees dt s = false -> updateUnknowns dt s = Aborted s) /\
  (timestepAgrees dt s = true ->
   exists s', updateUnknowns dt s = Done s' /\
     (allocated s -> forall x y, interior s x y -> updatedCell dt s s' x y)).
Proof.
  unfold updateUnknowns, assert. split; intros ->; simpl; [reflexivity|].
  eexists. split; [reflexivity|]. intros Ha. apply updateUnknowns_loop. exact Ha.
Qed.

(** ** The sweeps *)

Lemma state_of_assert {A : Type} (c : bool) (a : A) : state_of (assert c a) = a.
Proof. unfold assert. destruct c; reflexivity. Qed.

Lemma xSweepEdge_frame s xy st :
  sameButNetUpdates s (fst st) -> sameButNetUpdates s (fst (xSweepEdge xy st)).
Proof. intros H. exact H. Qed.

Lemma ySweepEdge_frame s xy st :
  sameButNetUpdates s (fst st) -> sameButNetUpdates s (fst (ySweepEdge xy st)).
Proof. intros H. exact H. Qed.

Lemma xEdge_frame s s1 x y : sameButNetUpdates s s1 -> xEdge s1 x y = xEdge s x y.
Proof.
  intros H. frame_of H h. frame_of H hu. frame_of H b. frame_of H solver.
  unfold xEdge. congruence.
Qed.

Lemma yEdge_frame s s1 x y : sameButNetUpdates s s1 -> yEdge s1 x y = yEdge s x y.
Proof.
  intros H. frame_of H h. frame_of H hv. frame_of H b. frame_of H solver.
  unfold yEdge. congruence.
Qed.

(** one buffer through one sweep *)
Lemma sweep_buffer (proj : Block -> Float2D)
    (edge : nat * nat -> Block * float -> Block * float)
    (dst : nat * nat -> nat * nat) (val : nat * nat -> float)
    (l : list (nat * nat)) (s : Block) (w : float) (c r : nat) :
  (forall xy st, sameButNetUpdates s (fst st) ->
     sameButNetUpdates s (fst (edge xy st))) ->
  (forall xy st, In xy l -> sameButNetUpdates s (fst st) ->
     proj (fst (edge xy st))
     = Float2D.set (proj (fst st)) (fst (dst xy)) (snd (dst xy)) (val xy)) ->
  Float2D.allocated (proj s) c r ->
  List.NoDup (map dst l) ->
  (forall xy, In xy l -> fst (dst xy) < c /\ snd (dst xy) < r) ->
  written c r l dst val (proj s) (proj (fst (for_each l edge (s, w)))).
Proof.
  intros Hframe Hproj Ha Hnd Hin.
  rewrite (for_each_proj (fun st => proj (fst st))
             (fun st => sameButNetUpdates s (fst st))
             (fun xy g => Float2D.set g (fst (dst xy)) (snd (dst xy)) (val xy))).
  - apply (for_each_set_spec dst (fun xy _ => val xy)); try assumption.
    intros xy f' _ _ _. reflexivity.
  - apply sameButNetUpdates_refl.
  - intros xy st _. apply Hframe.
  - exact Hproj.
Qed.

Lemma sweep_frame (edge : nat * nat -> Block * float -> Block * float) l s w :
  (forall xy st, sameButNetUpdates s (fst st) ->
     sameButNetUpdates s (fst (edge xy st))) ->
  sameButNetUpdates s (fst (for_each l edge (s, w))).
Proof.
  intros Hframe.
  apply (for_each_inv (fun st => sameButNetUpdates s (fst st))).
  - apply sameButNetUpdates_refl.
  - intros xy st _. apply Hframe.
Qed.

Lemma sweep_speed (edge : nat * nat -> Block * float -> Block * float)
    (speed : nat * nat -> float) l s w :
  (forall xy st, sameButNetUpdates s (fst st) ->
     sameButNetUpdates s (fst (edge xy st))) ->
  (forall xy st, sameButNetUpdates s (fst st) ->
     snd (edge xy st) = std_max (snd st) (speed xy)) ->
  snd (for_each l edge (s, w)) = maxReduce speed l w.
Proof.
  intros Hframe Hspeed. unfold maxReduce.
  apply (for_each_proj snd (fun st => sameButNetUpdates s (fst st))
           (fun xy acc => std_max acc (speed xy))).
  - apply sameButNetUpdates_refl.
  - intros xy st _. apply Hframe.
  - intros xy st _. apply Hspeed.
Qed.

Lemma xSweep_spec s :
  allocated s ->
  let l := collapse2 0 (nx s + 1) 1 (ny s + 1) in
  let s1 := fst (xSweep s) in
  sameButNetUpdates s s1 /\
  snd (xSweep s)
  = maxReduce (fun xy => waveSpeed (xEdge s (fst xy) (snd xy))) l F32.zero /\
  written (nx s + 2) (ny s + 2) l (fun xy => xy)
    (fun xy => hUpdateLeft (xEdge s (fst xy) (snd xy)))
    (hNetUpdatesLeft s) (hNetUpdatesLeft s1) /\
  written (nx s + 2) (ny s + 2) l (fun xy => (fst xy + 1, snd xy))
    (fun xy => hUpdateRight (xEdge s (fst xy) (snd xy)))
    (hNetUpdatesRight s) (hNetUpdatesRight s1) /\
  written (nx s + 2) (ny s + 2) l (fun xy => xy)
    (fun xy => huUpdateLeft (xEdge s (fst xy) (snd xy)))
    (huNetUpdatesLeft s) (huNetUpdatesLeft s1) /\
  written (nx s + 2) (ny s + 2) l (fun xy => (fst xy + 1, snd xy))
    (fun xy => huUpdateRight (xEdge s (fst xy) (snd xy)))
    (huNetUpdatesRight s) (huNetUpdatesRight s1).
Proof.
  intros Ha l s1. unfold s1, xSweep. fold l.
  assert (Hin : forall xy, In xy l -> fst xy < nx s + 1 /\ 1 <= snd xy < ny s + 1).
  { intros xy Hxy. apply in_collapse2_pair in Hxy. lia. }
  assert (Hedge : forall xy st, sameButNetUpdates s (fst st) ->
            computeNetUpdates (solver (fst st))
              (Float2D.get (h (fst st)) (fst xy) (snd xy))
              (Float2D.get (h (fst st)) (fst xy + 1) (snd xy))
              (Float2D.get (hu (fst st)) (fst xy) (snd xy))
              (Float2D.get (hu (fst st)) (fst xy + 1) (snd xy))
              (Float2D.get (b (fst st)) (fst xy) (snd xy))
              (Float2D.get (b (fst st)) (fst xy + 1) (snd xy)) (snd st)
            = mkNetUpdates (hUpdateLeft (xEdge s (fst xy) (snd xy)))
                (hUpdateRight (xEdge s (fst xy) (snd xy)))
                (huUpdateLeft (xEdge s (fst xy) (snd xy)))
                (huUpdateRight (xEdge s (fst xy) (snd xy)))
                (std_max (snd st) (waveSpeed (xEdge s (fst xy) (snd xy))))).
  { intros xy st H. rewrite <- (xEdge_frame s (fst st)) by exact H. reflexivity. }
  split; [apply sweep_frame, xSweepEdge_frame|].
  split; [apply sweep_speed; [apply xSweepEdge_frame|]|].
  { intros xy st H. unfold xSweepEdge. cbn [snd]. rewrite Hedge by exact H.
    reflexivity. }
  split; [|split; [|split]]; apply sweep_buffer;
    try apply xSweepEdge_frame; try apply Ha;
    try (apply NoDup_map_pairs; intros [x1 y1] [x2 y2] Heq; inversion Heq;
         f_equal; lia);
    try (intros xy Hxy; apply Hin in Hxy; cbn [fst snd]; lia);
    intros xy st _ H; unfold xSweepEdge; cbn [fst]; rewrite Hedge by exact H;
    reflexivity.
Qed.

Lemma ySweep_spec s :
  Float2D.allocated (hNetUpdatesBelow s) (nx s + 1) (ny s + 2) ->
  Float2D.allocated (hNetUpdatesAbove s) (nx s + 1) (ny s + 2) ->
  Float2D.allocated (hvNetUpdatesBelow s) (nx s + 1) (ny s + 2) ->
  Float2D.allocated (hvNetUpdatesAbove s) (nx s + 1) (ny s + 2) ->
  let l := collapse2 1 (nx s + 1) 0 (ny s + 1) in
  let s1 := fst (ySweep s) in
  sameButNetUpdates s s1 /\
  snd (ySweep s)
  = maxReduce (fun xy => waveSpeed (yEdge s (fst xy) (snd xy))) l F32.zero /\
  written (nx s + 1) (ny s + 2) l (fun xy => xy)
    (fun xy => hUpdateLeft (yEdge s (fst xy) (snd xy)))
    (hNetUpdatesBelow s) (hNetUpdatesBelow s1) /\
  written (nx s + 1) (ny s + 2) l (fun xy => (fst xy, snd xy + 1))
    (fun xy => hUpdateRight (yEdge s (fst xy) (snd xy)))
    (hNetUpdatesAbove s) (hNetUpdatesAbove s1) /\
  written (nx s + 1) (ny s + 2) l (fun xy => xy)
    (fun xy => huUpdateLeft (yEdge s (fst xy) (snd xy)))
    (hvNetUpdatesBelow s) (hvNetUpdatesBelow s1) /\
  written (nx s + 1) (ny s + 2) l (fun xy => (fst xy, snd xy + 1))
    (fun xy => huUpdateRight (yEdge s (fst xy) (snd xy)))
    (hvNetUpdatesAbove s) (hvNetUpdatesAbove s1).
Proof.
  intros A1 A2 A3 A4 l s1. unfold s1, ySweep. fold l.
  assert (Hin : forall xy, In xy l -> 1 <= fst xy < nx s + 1 /\ snd xy < ny s + 1).
  { intros xy Hxy. apply in_collapse2_pair in Hxy. lia. }
  assert (Hedge : forall xy st, sameButNetUpdates s (fst st) ->
            computeNetUpdates (solver (fst st))
              (Float2D.get (h (fst st)) (fst xy) (snd xy))
              (Float2D.get (h (fst st)) (fst xy) (snd xy + 1))
              (Float2D.get (hv (fst st)) (fst xy) (snd xy))
              (Float2D.get (hv (fst st)) (fst xy) (snd xy + 1))
              (Float2D.get (b (fst st)) (fst xy) (snd xy))
              (Float2D.get (b (fst st)) (fst xy) (snd xy + 1)) (snd st)
            = mkNetUpdates (hUpdateLeft (yEdge s (fst xy) (snd xy)))
                (hUpdateRight (yEdge s (fst xy) (snd xy)))
                (huUpdateLeft (yEdge s (fst xy) (snd xy)))
                (huUpdateRight (yEdge s (fst xy) (snd xy)))
                (std_max (snd st) (waveSpeed (yEdge s (fst xy) (snd xy))))).
  { intros xy st H. rewrite <- (yEdge_frame s (fst st)) by exact H. reflexivity. }
  split; [apply sweep_frame, ySweepEdge_frame|].
  split; [apply sweep_speed; [apply ySweepEdge_frame|]|].
  { intros xy st H. unfold ySweepEdge. cbn [snd]. rewrite Hedge by exact H.
    reflexivity. }
  split; [|split; [|split]]; apply sweep_buffer;
    try apply ySweepEdge_frame; try assumption;
    try (apply NoDup_map_pairs; intros [x1 y1] [x2 y2] Heq; inversion Heq;
         f_equal; lia);
    try (intros xy Hxy; apply Hin in Hxy; cbn [fst snd]; lia);
    intros xy st _ H; unfold ySweepEdge; cbn [fst]; rewrite Hedge by exact H;
    reflexivity.
Qed.

(** the buffers of one sweep are not written by the other *)
Lemma xSweep_other_buffers s :
  let s1 := fst (xSweep s) in
  hNetUpdatesBelow s1 = hNetUpdatesBelow s /\
  hNetUpdatesAbove s1 = hNetUpdatesAbove s /\
  hvNetUpdatesBelow s1 = hvNetUpdatesBelow s /\
  hvNetUpdatesAbove s1 = hvNetUpdatesAbove s.
Proof.
  unfold xSweep. repeat split.
  - apply (for_each_const (fun st => hNetUpdatesBelow (fst st))). reflexivity.
  - apply (for_each_const (fun st => hNetUpdatesAbove (fst st))). reflexivity.
  - apply (for_each_const (fun st => hvNetUpdatesBelow (fst st))). reflexivity.
  - apply (for_each_const (fun st => hvNetUpdatesAbove (fst st))). reflexivity.
Qed.

Lemma ySweep_other_buffers s :
  let s1 := fst (ySweep s) in
  hNetUpdatesLeft s1 = hNetUpdatesLeft s /\
  hNetUpdatesRight s1 = hNetUpdatesRight s /\
  huNetUpdatesLeft s1 = huNetUpdatesLeft s /\
  huNetUpdatesRight s1 = huNetUpdatesRight s.
Proof.
  unfold ySweep. repeat split.
  - apply (for_each_const (fun st => hNetUpdatesLeft (fst st))). reflexivity.
  - apply (for_each_const (fun st => hNetUpdatesRight (fst st))). reflexivity.
  - apply (for_each_const (fun st => huNetUpdatesLeft (fst st))). reflexivity.
  - apply (for_each_const (fun st => huNetUpdatesRight (fst st))). reflexivity.
Qed.

(** the unknowns and the geometry go through both sweeps unchanged *)
Lemma sweeps_frame s :
  let s2 := fst (ySweep (fst (xSweep s))) in
  h s2 = h s /\ hu s2 = hu s /\ hv s2 = hv s /\ b s2 = b s /\
  nx s2 = nx s /\ ny s2 = ny s /\ dx s2 = dx s /\ dy s2 = dy s.
Proof.
  cbv zeta. unfold xSweep at 1 2 3 4 5 6 7 8, ySweep.
  repeat split.
  all: match goal with
       | |- ?p (fst (for_each _ _ (fst (for_each _ _ _), _))) = _ =>
           rewrite (for_each_const (fun st => p (fst st))) by reflexivity;
           cbn [fst];
           apply (for_each_const (fun st => p (fst st))); reflexivity
       end.
Qed.

Lemma maxReduce_ext (speed speed' : nat * nat -> float) l m :
  (forall xy, speed xy = speed' xy) -> maxReduce speed l m = maxReduce speed' l m.
Proof.
  intros Hext. unfold maxReduce. revert m.
  induction l as [|xy l IH]; intros m; [reflexivity|].
  rewrite !for_each_cons, Hext. apply IH.
Qed.

Lemma computeNumericalFluxes_state s :
  state_of (computeNumericalFluxes s)
  = set_maxTimestep
      (cflTimestep (dx s) (dy s) (snd (xSweep s)) (snd (ySweep (fst (xSweep s)))))
      (fst (ySweep (fst (xSweep s)))).
Proof.
  unfold computeNumericalFluxes. cbv zeta. rewrite state_of_assert.
  destruct (sweeps_frame s) as (_ & _ & _ & _ & _ & _ & -> & ->). reflexivity.
Qed.

(** C3. computeNumericalFluxes runs the x-sweep over the pairs [(x, y)] with
    [x] in [0..nx] and [y] in [1..ny] and the y-sweep over those with [x] in
    [1..nx] and [y] in [0..ny]; each sweep visits every pair of its range
    once and no other pair, and a visit is one invocation of the solver.
    For every edge of the x-sweep the left-going update lies in
    [hNetUpdatesLeft[x][y]] and [huNetUpdatesLeft[x][y]] and the right-going
    one in [hNetUpdatesRight[x+1][y]] and [huNetUpdatesRight[x+1][y]]; for
    every edge of the y-sweep the updates lie in [hNetUpdatesBelow[x][y]],
    [hvNetUpdatesBelow[x][y]], [hNetUpdatesAbove[x][y+1]] and
    [hvNetUpdatesAbove[x][y+1]]. The two wave speeds are the maximum
    reductions, from 0, of the wave speeds of the edges of their sweep. *)
Theorem computeNumericalFluxes_sweeps (s : Block) :
  allocated s ->
  let s' := state_of (computeNumericalFluxes s) in
  let xEdges := collapse2 0 (nx s + 1) 1 (ny s + 1) in
  let yEdges := collapse2 1 (nx s + 1) 0 (ny s + 1) in
  xSweep s = for_each xEdges xSweepEdge (s, F32.zero) /\
  ySweep (fst (xSweep s)) = for_each yEdges ySweepEdge (fst (xSweep s), F32.zero) /\
  (forall x y,
     count_occ edge_eq_dec xEdges (x, y)
     = if decide ((0 <= x < nx s + 1) /\ (1 <= y < ny s + 1)) then 1 else 0) /\
  (forall x y,
     count_occ edge_eq_dec yEdges (x, y)
     = if decide ((1 <= x < nx s + 1) /\ (0 <= y < ny s + 1)) then 1 else 0) /\
  (forall x y, x <= nx s -> 1 <= y <= ny s ->
     Float2D.get (hNetUpdatesLeft s') x y = hUpdateLeft (xEdge s x y) /\
     Float2D.get (huNetUpdatesLeft s') x y = huUpdateLeft (xEdge s x y) /\
     Float2D.get (hNetUpdatesRight s') (x + 1) y = hUpdateRight (xEdge s x y) /\
     Float2D.get (huNetUpdatesRight s') (x + 1) y = huUpdateRight (xEdge s x y)) /\
  (forall x y, 1 <= x <= nx s -> y <= ny s ->
     Float2D.get (hNetUpdatesBelow s') x y = hUpdateLeft (yEdge s x y) /\
     Float2D.get (hvNetUpdatesBelow s') x y = huUpdateLeft (yEdge s x y) /\
     Float2D.get (hNetUpdatesAbove s') x (y + 1) = hUpdateRight (yEdge s x y) /\
     Float2D.get (hvNetUpdatesAbove s') x (y + 1) = huUpdateRight (yEdge s x y)) /\
  snd (xSweep s)
  = maxReduce (fun xy => waveSpeed (xEdge s (fst xy) (snd xy))) xEdges F32.zero /\
  snd (ySweep (fst (xSweep s)))
  = maxReduce (fun xy => waveSpeed (yEdge s (fst xy) (snd xy))) yEdges F32.zero.
Proof.
  intros Ha s' xEdges yEdges.
  destruct (xSweep_spec s Ha) as (Fx & Wx & XL & XR & XuL & XuR).
  destruct (xSweep_other_buffers s) as (B1 & B2 & B3 & B4).
  destruct (sweeps_frame s) as (_ & _ & _ & _ & N2 & M2 & _ & _).
  set (s1 := fst (xSweep s)) in *.
  assert (N1 : nx s1 = nx s) by (frame_of Fx nx; exact E).
  assert (M1 : ny s1 = ny s) by (frame_of Fx ny; exact E).
  destruct (ySweep_spec s1) as (Fy & Wy & YB & YA & YvB & YvA);
    try (rewrite ?B1, ?B2, ?B3, ?B4, N1, M1; apply Ha).
  destruct (ySweep_other_buffers s1) as (C1 & C2 & C3 & C4).
  rewrite N1, M1 in *. fold yEdges in Wy, YB, YA, YvB, YvA.
  fold xEdges in Wx, XL, XR, XuL, XuR.
  assert (Hs' : s' = set_maxTimestep (maxTimestep s') (fst (ySweep s1))).
  { unfold s'. rewrite computeNumericalFluxes_state. reflexivity. }
  split; [reflexivity|]. split; [unfold ySweep; rewrite N1, M1; reflexivity|].
  split; [intros x y; apply count_collapse2|].
  split; [intros x y; apply count_collapse2|].
  split; [|split; [|split]].
  - intros x y Hx Hy. rewrite Hs'. cbn [hNetUpdatesLeft huNetUpdatesLeft
      hNetUpdatesRight huNetUpdatesRight set_maxTimestep].
    rewrite C1, C2, C3, C4.
    assert (Hin : In (x, y) xEdges) by (apply in_collapse2; lia).
    destruct XL as (_ & XL & _), XR as (_ & XR & _),
      XuL as (_ & XuL & _), XuR as (_ & XuR & _).
    specialize (XL _ Hin). specialize (XR _ Hin).
    specialize (XuL _ Hin). specialize (XuR _ Hin).
    cbn [fst snd] in *. auto.
  - intros x y Hx Hy. rewrite Hs'. cbn [hNetUpdatesBelow hvNetUpdatesBelow
      hNetUpdatesAbove hvNetUpdatesAbove set_maxTimestep].
    assert (Hin : In (x, y) yEdges) by (apply in_collapse2; lia).
    destruct YB as (_ & YB & _), YA as (_ & YA & _),
      YvB as (_ & YvB & _), YvA as (_ & YvA & _).
    specialize (YB _ Hin). specialize (YA _ Hin).
    specialize (YvB _ Hin). specialize (YvA _ Hin).
    cbn [fst snd] in *. rewrite (yEdge_frame s s1) in * by exact Fx. auto.
  - exact Wx.
  - rewrite Wy. apply maxReduce_ext. intros xy.
    rewrite (yEdge_frame s s1) by exact Fx. reflexivity.
Qed.

(** ** The bathymetry *)

Lemma memcpy_spec f c r xd xs :
  Float2D.allocated f c r -> xd < c -> xs < c ->
  Float2D.allocated (Float2D.memcpy f xd xs r) c r /\
  forall x y, y < r ->
    Float2D.get (Float2D.memcpy f xd xs r) x y
    = if decide (x = xd) then Float2D.get f xs y else Float2D.get f x y.
Proof.
  intros (Hc & Hr & Hl) Hxd Hxs.
  assert (Hk : length (take r (drop (xs * r + 0) (Float2D.elem f))) = r).
  { rewrite length_take, length_drop, Hl.
    pose proof (Nat.mul_le_mono_r (xs + 1) c r ltac:(lia)). lia. }
  split.
  - unfold Float2D.allocated, Float2D.memcpy. simpl.
    rewrite length_inserts. auto.
  - intros x y Hy. unfold Float2D.get, Float2D.memcpy, Float2D.index. simpl.
    rewrite Hr. destruct (decide (x = xd)) as [->|Hne].
    + rewrite list_lookup_total_inserts.
      * rewrite lookup_total_take, decide_True by lia.
        rewrite lookup_total_drop. f_equal. lia.
      * rewrite Hk. lia.
      * rewrite Hl. apply index_lt; assumption.
    + destruct (Nat.lt_total x xd) as [Hlt|[Heq|Hgt]]; [|contradiction|].
      * apply list_lookup_total_inserts_lt.
        pose proof (Nat.mul_le_mono_r (x + 1) xd r ltac:(lia)). lia.
      * apply list_lookup_total_inserts_ge. rewrite Hk.
        pose proof (Nat.mul_le_mono_r (xd + 1) x r ltac:(lia)). lia.
Qed.

Lemma sameButBathymetry_refl s : sameButBathymetry s s.
Proof. destruct s. reflexivity. Qed.

Lemma sameButBathymetry_nx s s' : sameButBathymetry s s' -> nx s' = nx s.
Proof. intros H. frame_of H nx. exact E. Qed.

Lemma sameButBathymetry_ny s s' : sameButBathymetry s s' -> ny s' = ny s.
Proof. intros H. frame_of H ny. exact E. Qed.

Lemma bathymetryStage_refl s : allocated s -> bathymetryStage s s.
Proof.
  intros Ha. split; [apply sameButBathymetry_refl|]. split; [apply Ha|].
  intros x y _. reflexivity.
Qed.

Lemma bathymetryStage_trans s1 s2 s3 :
  bathymetryStage s1 s2 -> bathymetryStage s2 s3 -> bathymetryStage s1 s3.
Proof.
  intros (F12 & A2 & I12) (F23 & A3 & I23).
  frame_of F12 nx. frame_of F12 ny. rename E into N, E0 into M.
  split; [|split].
  - unfold sameButBathymetry in *. destruct s1, s2, s3. cbn in *.
    injection F12 as <-. injection F23 as <-. subst. reflexivity.
  - rewrite <- N, <- M. exact A3.
  - intros x y Hxy. rewrite I23, I12; [reflexivity|exact Hxy|].
    unfold interior in *. rewrite N, M. exact Hxy.
Qed.

Lemma allocated_bathymetryStage s s' :
  allocated s -> bathymetryStage s s' -> allocated s'.
Proof.
  intros [] (Hf & Hb & _).
  frame_of Hf nx. frame_of Hf ny. frame_of Hf h. frame_of Hf hu. frame_of Hf hv.
  frame_of Hf hNetUpdatesLeft. frame_of Hf hNetUpdatesRight.
  frame_of Hf huNetUpdatesLeft. frame_of Hf huNetUpdatesRight.
  frame_of Hf hNetUpdatesBelow. frame_of Hf hNetUpdatesAbove.
  frame_of Hf hvNetUpdatesBelow. frame_of Hf hvNetUpdatesAbove.
  constructor; congruence.
Qed.

(** a stage that replaces [b] by a field that is allocated and has the same
    interior *)
Lemma bathymetryStage_set s (f : Float2D) :
  Float2D.allocated f (nx s + 2) (ny s + 2) ->
  (forall x y, interior s x y -> Float2D.get f x y = Float2D.get (b s) x y) ->
  bathymetryStage s (set_b f s).
Proof.
  intros Ha Hi. split; [destruct s; reflexivity|]. split; [exact Ha|exact Hi].
Qed.

Lemma leftBathymetry_stage s : allocated s -> bathymetryStage s (leftBathymetry s).
Proof.
  intros Ha. unfold leftBathymetry.
  destruct (isOutflowOrWall _); [|apply bathymetryStage_refl; exact Ha].
  destruct (memcpy_spec (b s) (nx s + 2) (ny s + 2) 0 1) as [Ha' Hget];
    [apply Ha|lia|lia|].
  apply bathymetryStage_set; [exact Ha'|].
  intros x y [Hx Hy]. rewrite Hget by lia. rewrite decide_False by lia. reflexivity.
Qed.

Lemma rightBathymetry_stage s : allocated s -> bathymetryStage s (rightBathymetry s).
Proof.
  intros Ha. unfold rightBathymetry.
  destruct (isOutflowOrWall _); [|apply bathymetryStage_refl; exact Ha].
  destruct (memcpy_spec (b s) (nx s + 2) (ny s + 2) (nx s + 1) (nx s)) as [Ha' Hget];
    [apply Ha|lia|lia|].
  apply bathymetryStage_set; [exact Ha'|].
  intros x y [Hx Hy]. rewrite Hget by lia. rewrite decide_False by lia. reflexivity.
Qed.

(** a loop that copies the row [yi] of [b] into its row [yg] *)
Lemma bathymetry_row_loop yg yi n s :
  allocated s -> yg < ny s + 2 -> yi < ny s + 2 -> n <= nx s + 2 -> yg <> yi ->
  (yg = 0 \/ yg = ny s + 1) ->
  bathymetryStage s
    (for_each (range 0 n)
       (fun i s1 => set_b (Float2D.set (b s1) i yg (Float2D.get (b s1) i yi)) s1) s).
Proof.
  intros Ha Hyg Hyi Hn Hne Hghost.
  set (body := fun i s1 =>
                 set_b (Float2D.set (b s1) i yg (Float2D.get (b s1) i yi)) s1).
  assert (Hf : sameButBathymetry s (for_each (range 0 n) body s)).
  { apply for_each_inv; [apply sameButBathymetry_refl|].
    intros i s1 _ H1. exact H1. }
  destruct (for_each_set_spec (fun i => (i, yg)) (fun i g => Float2D.get g i yi)
              (range 0 n) (b s) (nx s + 2) (ny s + 2)) as (Ha' & _ & Hkept).
  { apply Ha. }
  { apply NoDup_map_range. intros i j Heq. congruence. }
  { intros i Hi. apply in_range in Hi. simpl. lia. }
  { intros i f' _ _ Hagree. apply Hagree; [exact Hyi|]. right.
    rewrite in_map_iff. intros (j & Heq & _). congruence. }
  cbn [fst snd] in Ha', Hkept.
  assert (Hb : b (for_each (range 0 n) body s)
               = for_each (range 0 n)
                   (fun i g => Float2D.set g i yg (Float2D.get g i yi)) (b s)).
  { apply (for_each_proj b (fun _ => True)); auto. }
  split; [exact Hf|]. rewrite Hb. split; [exact Ha'|].
  intros x y [Hx Hy]. rewrite Hb. apply Hkept; [lia|].
  rewrite in_map_iff. intros (j & Heq & _). inversion Heq. lia.
Qed.

Lemma bottomBathymetry_stage s : allocated s -> bathymetryStage s (bottomBathymetry s).
Proof.
  intros Ha. unfold bottomBathymetry.
  destruct (isOutflowOrWall _); [|apply bathymetryStage_refl; exact Ha].
  apply bathymetry_row_loop; try assumption; try lia.
Qed.

Lemma topBathymetry_stage s : allocated s -> bathymetryStage s (topBathymetry s).
Proof.
  intros Ha. unfold topBathymetry. cbv zeta.
  destruct (isOutflowOrWall _); [|apply bathymetryStage_refl; exact Ha].
  apply bathymetry_row_loop; try assumption; try lia.
Qed.

(** a single assignment to a ghost cell of [b] *)
Lemma bathymetry_cell xg yg v s :
  allocated s -> xg < nx s + 2 -> yg < ny s + 2 ->
  (xg = 0 \/ xg = nx s + 1) ->
  bathymetryStage s (set_b (Float2D.set (b s) xg yg v) s).
Proof.
  intros Ha Hxg Hyg Hghost. apply bathymetryStage_set.
  - apply allocated_set, Ha.
  - intros x y [Hx Hy].
    apply (get_set_ne (b s) (nx s + 2) (ny s + 2)); try lia; [apply Ha|].
    intros Heq. inversion Heq. lia.
Qed.

Lemma cornerBathymetry_stage s : allocated s -> bathymetryStage s (cornerBathymetry s).
Proof.
  intros Ha. unfold cornerBathymetry. cbv zeta.
  set (s1 := set_b (Float2D.set (b s) 0 0 (Float2D.get (b s) 1 1)) s).
  assert (H1 : bathymetryStage s s1) by (apply bathymetry_cell; try assumption; lia).
  assert (A1 := allocated_bathymetryStage _ _ Ha H1).
  set (s2 := set_b (Float2D.set (b s1) 0 (ny s + 1) (Float2D.get (b s1) 1 (ny s))) s1).
  assert (H2 : bathymetryStage s1 s2)
    by (apply bathymetry_cell; try assumption; cbn; lia).
  assert (A2 := allocated_bathymetryStage _ _ A1 H2).
  set (s3 := set_b (Float2D.set (b s2) (nx s + 1) 0 (Float2D.get (b s2) (nx s) 1)) s2).
  assert (H3 : bathymetryStage s2 s3)
    by (apply bathymetry_cell; try assumption; cbn; lia).
  assert (A3 := allocated_bathymetryStage _ _ A2 H3).
  assert (H4 : bathymetryStage s3
                 (set_b (Float2D.set (b s3) (nx s + 1) (ny s + 1)
                           (Float2D.get (b s3) (nx s) (ny s))) s3))
    by (apply bathymetry_cell; try assumption; cbn; lia).
  eapply bathymetryStage_trans; [exact H1|].
  eapply bathymetryStage_trans; [exact H2|].
  eapply bathymetryStage_trans; [exact H3|exact H4].
Qed.

Lemma applyBoundaryBathymetry_stage s :
  allocated s -> bathymetryStage s (applyBoundaryBathymetry s).
Proof.
  intros Ha. unfold applyBoundaryBathymetry. cbv zeta.
  pose proof (leftBathymetry_stage s Ha) as H1.
  assert (A1 := allocated_bathymetryStage _ _ Ha H1).
  pose proof (rightBathymetry_stage _ A1) as H2.
  assert (A2 := allocated_bathymetryStage _ _ A1 H2).
  pose proof (bottomBathymetry_stage _ A2) as H3.
  assert (A3 := allocated_bathymetryStage _ _ A2 H3).
  pose proof (topBathymetry_stage _ A3) as H4.
  assert (A4 := allocated_bathymetryStage _ _ A3 H4).
  pose proof (cornerBathymetry_stage _ A4) as H5.
  eapply bathymetryStage_trans; [exact H1|].
  eapply bathymetryStage_trans; [exact H2|].
  eapply bathymetryStage_trans; [exact H3|].
  eapply bathymetryStage_trans; [exact H4|exact H5].
Qed.

(** ** Every operation keeps the allocation and the interior bathymetry *)

Lemma applyBoundaryConditions_frame s :
  allocated s ->
  let s' := applyBoundaryConditions s in
  allocated s' /\ sameButUnknowns s s' /\ b s' = b s.
Proof.
  intros Ha s'.
  destruct (applyBoundaryConditions_stages s Ha)
    as (s1 & s2 & s3 & s4 & s5 & s6 & s7 & H1 & H2 & H3 & H4 & H5 & H6 & H7 & H8).
  fold s' in H8.
  destruct H1 as (F1 & B1 & _ & _), H2 as (F2 & B2 & _ & _),
    H3 as (F3 & B3 & _ & _), H4 as (F4 & B4 & _ & _), H5 as (F5 & B5 & _ & _),
    H6 as (F6 & B6 & _ & _), H7 as (F7 & B7 & _ & _), H8 as (F8 & B8 & A8 & _).
  split; [exact A8|]. split; [|congruence].
  eapply sameButUnknowns_trans; [exact F1|].
  eapply sameButUnknowns_trans; [exact F2|].
  eapply sameButUnknowns_trans; [exact F3|].
  eapply sameButUnknowns_trans; [exact F4|].
  eapply sameButUnknowns_trans; [exact F5|].
  eapply sameButUnknowns_trans; [exact F6|].
  eapply sameButUnknowns_trans; [exact F7|exact F8].
Qed.

Lemma processCopyLayer_frame msg s :
  allocated s ->
  let s' := processCopyLayer msg s in
  allocated s' /\ sameButUnknowns s s' /\ sameInteriorBathymetry s s'.
Proof.
  intros Ha s'. unfold s', processCopyLayer.
  assert (Hloop : forall (cell : nat -> nat * nat) n,
            (forall i, i < n -> fst (cell i) < nx s + 2 /\ snd (cell i) < ny s + 2) ->
            (forall i j, cell i = cell j -> i = j) ->
            (forall i x y, interior s x y -> cell i <> (x, y)) ->
            let s1 :=
              for_each (range 0 n)
                (fun i => unpackCell msg i (fst (cell i)) (snd (cell i))) s in
            allocated s1 /\ sameButUnknowns s s1 /\ sameInteriorBathymetry s s1).
  { intros cell n Hin Hinj Hout s1.
    destruct (unpack_loop msg cell n s Ha Hin Hinj) as ((Hf & _ & Hkept & _) & Ha1).
    split; [exact Ha1|]. split; [exact Hf|].
    intros x y Hxy. apply Hkept; [destruct Hxy; lia|].
    intros i _. apply Hout. exact Hxy. }
  repeat match goal with
    | |- context [if ?c then _ else _] => destruct c
    end.
  - apply (Hloop (fun i => (0, i + 1))).
    + intros i Hi. simpl. lia.
    + intros i j Heq. inversion Heq. lia.
    + intros i x y [Hx Hy] Heq. inversion Heq. lia.
  - apply (Hloop (fun i => (nx s + 1, i + 1))).
    + intros i Hi. simpl. lia.
    + intros i j Heq. inversion Heq. lia.
    + intros i x y [Hx Hy] Heq. inversion Heq. lia.
  - apply (Hloop (fun i => (i + 1, 0))).
    + intros i Hi. simpl. lia.
    + intros i j Heq. inversion Heq. lia.
    + intros i x y [Hx Hy] Heq. inversion Heq. lia.
  - apply (Hloop (fun i => (i + 1, ny s + 1))).
    + intros i Hi. simpl. lia.
    + intros i j Heq. inversion Heq. lia.
    + intros i x y [Hx Hy] Heq. inversion Heq. lia.
  - split; [exact Ha|]. split; [apply sameButUnknowns_refl|].
    intros x y _. reflexivity.
Qed.

Lemma computeNumericalFluxes_frame s :
  allocated s ->
  let s' := state_of (computeNumericalFluxes s) in
  allocated s' /\ nx s' = nx s /\ ny s' = ny s /\ b s' = b s.
Proof.
  intros Ha s'. unfold s'. rewrite computeNumericalFluxes_state.
  destruct (xSweep_spec s Ha) as (Fx & _ & XL & XR & XuL & XuR).
  destruct (xSweep_other_buffers s) as (B1 & B2 & B3 & B4).
  destruct (sweeps_frame s) as (Eh & Ehu & Ehv & Eb & N2 & M2 & _ & _).
  set (s1 := fst (xSweep s)) in *.
  assert (N1 : nx s1 = nx s) by (frame_of Fx nx; exact E).
  assert (M1 : ny s1 = ny s) by (frame_of Fx ny; exact E).
  destruct (ySweep_spec s1) as (Fy & _ & YB & YA & YvB & YvA);
    try (rewrite ?B1, ?B2, ?B3, ?B4, N1, M1; apply Ha).
  destruct (ySweep_other_buffers s1) as (C1 & C2 & C3 & C4).
  rewrite N1, M1 in *.
  split; [|cbn; auto].
  constructor; cbn; rewrite ?N2, ?M2, ?Eh, ?Ehu, ?Ehv, ?Eb, ?C1, ?C2, ?C3, ?C4;
    first [apply Ha | apply XL | apply XR | apply XuL | apply XuR
          | apply YB | apply YA | apply YvB | apply YvA].
Qed.

Lemma updateUnknowns_frame dt s s' :
  allocated s -> updateUnknowns dt s = Done s' ->
  allocated s' /\ nx s' = nx s /\ ny s' = ny s /\ b s' = b s.
Proof.
  intros Ha Hdone. apply updateUnknowns_Done in Hdone as [_ ->].
  destruct (updateUnknowns_loop dt s Ha) as (Hf & Hb & _).
  split; [|split; [apply sameButUnknowns_nx, Hf|split; [apply sameButUnknowns_ny, Hf|
                                                        exact Hb]]].
  set (l := collapse2 1 (nx s + 1) 1 (ny s + 1)) in *.
  assert (Hfield : forall proj : Block -> Float2D,
            Float2D.allocated (proj s) (nx s + 2) (ny s + 2) ->
            (forall xy s1, exists v,
               proj (updateUnknownsCell dt xy s1)
               = Float2D.set (proj s1) (fst xy) (snd xy) v) ->
            Float2D.allocated (proj (for_each l (updateUnknownsCell dt) s))
              (nx s + 2) (ny s + 2)).
  { intros proj Hp Hset.
    apply (for_each_inv
             (fun s1 => Float2D.allocated (proj s1) (nx s + 2) (ny s + 2)));
      [exact Hp|].
    intros xy s1 _ H1. destruct (Hset xy s1) as [v ->].
    apply allocated_set. exact H1. }
  apply (allocated_sameButUnknowns s); try assumption.
  - apply Hfield; [apply Ha|]. intros xy s1. eexists. reflexivity.
  - apply Hfield; [apply Ha|]. intros xy s1. eexists. reflexivity.
  - apply Hfield; [apply Ha|]. intros xy s1. eexists. reflexivity.
  - rewrite Hb. apply Ha.
Qed.

Lemma allocated_ext s s' :
  nx s' = nx s -> ny s' = ny s ->
  h s' = h s -> hu s' = hu s -> hv s' = hv s -> b s' = b s ->
  hNetUpdatesLeft s' = hNetUpdatesLeft s ->
  hNetUpdatesRight s' = hNetUpdatesRight s ->
  huNetUpdatesLeft s' = huNetUpdatesLeft s ->
  huNetUpdatesRight s' = huNetUpdatesRight s ->
  hNetUpdatesBelow s' = hNetUpdatesBelow s ->
  hNetUpdatesAbove s' = hNetUpdatesAbove s ->
  hvNetUpdatesBelow s' = hvNetUpdatesBelow s ->
  hvNetUpdatesAbove s' = hvNetUpdatesAbove s ->
  allocated s -> allocated s'.
Proof. intros. destruct H13. constructor; congruence. Qed.

Lemma operation_preserves s s' :
  operation s s' -> allocated s ->
  allocated s' /\ nx s' = nx s /\ ny s' = ny s /\ sameInteriorBathymetry s s'.
Proof.
  intros Hop Ha. destruct Hop.
  - split; [apply (allocated_ext s); try reflexivity; exact Ha|].
    split; [reflexivity|]. split; [reflexivity|]. intros x y _. reflexivity.
  - pose proof (applyBoundaryBathymetry_stage s Ha) as Hst.
    split; [apply (allocated_bathymetryStage s); assumption|].
    destruct Hst as (Hf & _ & Hi).
    split; [apply sameButBathymetry_nx, Hf|].
    split; [apply sameButBathymetry_ny, Hf|exact Hi].
  - destruct (applyBoundaryConditions_frame s Ha) as (Ha' & Hf & Hb).
    split; [exact Ha'|].
    split; [apply sameButUnknowns_nx, Hf|]. split; [apply sameButUnknowns_ny, Hf|].
    intros x y _. unfold setGhostLayer. rewrite Hb. reflexivity.
  - destruct (processCopyLayer_frame msg s Ha) as (Ha' & Hf & Hi).
    split; [exact Ha'|].
    split; [apply sameButUnknowns_nx, Hf|]. split; [apply sameButUnknowns_ny, Hf|].
    exact Hi.
  - destruct (computeNumericalFluxes_frame s Ha) as (Ha' & N & M & Hb).
    rewrite H in Ha', N, M, Hb.
    change (state_of (Done s')) with s' in Ha', N, M, Hb.
    repeat (split; [assumption|]). intros x y _. rewrite Hb. reflexivity.
  - split; [apply (allocated_ext s); try reflexivity; exact Ha|].
    split; [reflexivity|]. split; [reflexivity|]. intros x y _. reflexivity.
  - destruct (updateUnknowns_frame dt s s' Ha H) as (Ha' & N & M & Hb).
    repeat (split; [assumption|]). intros x y _. rewrite Hb. reflexivity.
  - split; [apply (allocated_ext s); try reflexivity; exact Ha|].
    split; [reflexivity|]. split; [reflexivity|]. intros x y _. reflexivity.
  - split; [apply (allocated_ext s); try reflexivity; exact Ha|].
    split; [reflexivity|]. split; [reflexivity|]. intros x y _. reflexivity.
  - split; [apply (allocated_ext s); try reflexivity; exact Ha|].
    split; [reflexivity|]. split; [reflexivity|]. intros x y _. reflexivity.
Qed.

Lemma run_preserves s s' :
  run s s' -> allocated s ->
  allocated s' /\ nx s' = nx s /\ ny s' = ny s /\ sameInteriorBathymetry s s'.
Proof.
  induction 1 as [s|s1 s2 s3 Hop _ IH]; intros Ha.
  - split; [exact Ha|]. split; [reflexivity|]. split; [reflexivity|].
    intros x y _. reflexivity.
  - destruct (operation_preserves _ _ Hop Ha) as (A2 & N2 & M2 & I2).
    destruct (IH A2) as (A3 & N3 & M3 & I3).
    split; [exact A3|]. split; [congruence|]. split; [congruence|].
    intros x y Hxy. rewrite I3, I2; [reflexivity|exact Hxy|].
    unfold interior in *. rewrite N2, M2. exact Hxy.
Qed.

(** C9. computeNumericalFluxes and updateUnknowns leave the whole field [b]
    as it was, whether they complete or stop at their assertion. The
    operations that write [b], applyBoundaryBathymetry and processCopyLayer,
    leave its interior cells alone, and so does every sequence of operations
    on an allocated block: the interior bathymetry [b[1..nx][1..ny]] is the
    same before and after every simulation step. *)
Theorem bathymetry_unchanged :
  (forall s, b (state_of (computeNumericalFluxes s)) = b s) /\
  (forall dt s, b (state_of (updateUnknowns dt s)) = b s) /\
  (forall s, allocated s -> sameInteriorBathymetry s (applyBoundaryBathymetry s)) /\
  (forall msg s, allocated s -> sameInteriorBathymetry s (processCopyLayer msg s)) /\
  (forall s s', allocated s -> run s s' ->
     forall x y, 1 <= x <= nx s -> 1 <= y <= ny s ->
       Float2D.get (b s') x y = Float2D.get (b s) x y).
Proof.
  split; [|split; [|split; [|split]]].
  - intros s. rewrite computeNumericalFluxes_state.
    destruct (sweeps_frame s) as (_ & _ & _ & Eb & _). exact Eb.
  - intros dt s. unfold updateUnknowns, assert.
    destruct (timestepAgrees dt s); simpl; [|reflexivity].
    apply (for_each_const b). reflexivity.
  - intros s Ha. apply applyBoundaryBathymetry_stage. exact Ha.
  - intros msg s Ha. apply processCopyLayer_frame. exact Ha.
  - intros s s' Ha Hrun x y Hx Hy.
    apply (run_preserves s s' Hrun Ha). split; assumption.
Qed.

(** ** Packing the copy layers *)

Lemma map_seq_shift {A : Type} (g : nat -> A) lo n :
  map g (seq (S lo) n) = map (fun i => g (S i)) (seq lo n).
Proof. rewrite <- seq_shift, map_map. reflexivity. Qed.

(** a contiguous run of a list, sample by sample *)
Lemma take_drop_samples (l : list float) start n :
  start + n <= length l ->
  take n (drop start l) = map (fun i => l !!! (start + i)) (seq 0 n).
Proof.
  revert start. induction n as [|n IH]; intros start Hlen.
  { rewrite take_0. reflexivity. }
  destruct (lookup_lt_is_Some_2 l start ltac:(lia)) as [v Hv].
  rewrite (drop_S l v start Hv). cbn [take seq map].
  rewrite Nat.add_0_r, (list_lookup_total_correct l start v Hv).
  f_equal. rewrite IH by lia. rewrite map_seq_shift.
  apply map_ext. intros i. f_equal. lia.
Qed.

Lemma std_copy_samples (raw : list float) first size :
  first + size <= length raw ->
  std_copy raw first (first + size) (replicate size F32.zero)
  = map (fun i => raw !!! (first + i)) (seq 0 size).
Proof.
  intros Hlen. unfold std_copy.
  replace (first + size - first) with size by lia.
  rewrite <- take_drop_samples by exact Hlen.
  rewrite <- (app_nil_r (take size (drop first raw))) at 1.
  apply list_inserts_0_l.
  rewrite length_take, length_drop, length_replicate. lia.
Qed.

(** a loop that assigns the samples [g 0], ..., [g (n-1)] one by one *)
Lemma fill_loop_samples (g : nat -> float) n (l0 : list float) :
  length l0 = n ->
  for_each (range 0 n) (fun i l => <[i := g i]> l) l0 = map g (seq 0 n).
Proof.
  intros Hlen.
  assert (Hk : forall k, k <= n ->
            for_each (range 0 k) (fun i l => <[i := g i]> l) l0
            = map g (seq 0 k) ++ drop k l0).
  { induction k as [|k IH]; intros Hle; [rewrite drop_0; reflexivity|].
    unfold range in *. rewrite Nat.sub_0_r in *. rewrite seq_S, for_each_app.
    rewrite IH by lia. cbn [for_each fold_left Nat.add].
    rewrite map_app. cbn [map].
    assert (Hm : length (map g (seq 0 k)) = k) by (rewrite length_map, length_seq; lia).
    rewrite <- (Nat.add_0_r k) at 1. rewrite <- Hm at 1.
    rewrite insert_app_r.
    destruct (lookup_lt_is_Some_2 l0 k ltac:(lia)) as [v Hv].
    rewrite (drop_S l0 v k Hv). cbn. rewrite <- app_assoc. reflexivity. }
  rewrite Hk by lia. rewrite drop_ge by lia. apply app_nil_r.
Qed.

Lemma fillContiguous_packed sb s tag start size :
  start + size <= (nx s + 2) * (ny s + 2) ->
  allocated s ->
  let m :=
    fillContiguous s sb start size
      (copyLayer_new [if sb then size else 0; size; size; size] sb tag) in
  copyLayer.boundary m = tag /\
  copyLayer.containsBathymetry m = sb /\
  copyLayer.h m = map (fun i => Float2D.elem (h s) !!! (start + i)) (seq 0 size) /\
  copyLayer.hu m = map (fun i => Float2D.elem (hu s) !!! (start + i)) (seq 0 size) /\
  copyLayer.hv m = map (fun i => Float2D.elem (hv s) !!! (start + i)) (seq 0 size) /\
  copyLayer.b m
  = (if sb then map (fun i => Float2D.elem (b s) !!! (start + i)) (seq 0 size)
     else []).
Proof.
  intros Hlen [(_ & _ & Lh) (_ & _ & Lu) (_ & _ & Lv) (_ & _ & Lb)].
  unfold fillContiguous, copyLayer_new.
  destruct sb; cbn; rewrite ?std_copy_samples by lia; repeat split.
Qed.

Lemma fillStrided_packed sb s tag start stride size :
  let m :=
    fillStrided s sb start stride size
      (copyLayer_new [if sb then size else 0; size; size; size] sb tag) in
  copyLayer.boundary m = tag /\
  copyLayer.containsBathymetry m = sb /\
  copyLayer.h m
  = map (fun i => Float2D.elem (h s) !!! (start + i * stride)) (seq 0 size) /\
  copyLayer.hu m
  = map (fun i => Float2D.elem (hu s) !!! (start + i * stride)) (seq 0 size) /\
  copyLayer.hv m
  = map (fun i => Float2D.elem (hv s) !!! (start + i * stride)) (seq 0 size) /\
  copyLayer.b m
  = (if sb then map (fun i => Float2D.elem (b s) !!! (start + i * stride)) (seq 0 size)
     else []).
Proof.
  intros m. unfold m, fillStrided, copyLayer_new.
  assert (Hfield : forall (proj : copyLayer -> list float) (f : Float2D) body m0,
            (forall i m1, proj (body i m1)
               = <[i := Float2D.elem f !!! (start + i * stride)]> (proj m1)) ->
            length (proj m0) = size ->
            proj (for_each (range 0 size) body m0)
            = map (fun i => Float2D.elem f !!! (start + i * stride)) (seq 0 size)).
  { intros proj f body m0 Hp Hl.
    rewrite (for_each_proj proj (fun _ => True)
               (fun i l => <[i := Float2D.elem f !!! (start + i * stride)]> l));
      auto.
    apply (fill_loop_samples (fun i => Float2D.elem f !!! (start + i * stride))).
    exact Hl. }
  destruct sb; cbn [copyLayer.set_b copyLayer.set_h copyLayer.set_hu copyLayer.set_hv].
  - split; [apply (for_each_const copyLayer.boundary); reflexivity|].
    split; [apply (for_each_const copyLayer.containsBathymetry); reflexivity|].
    repeat split; apply Hfield; try (intros; reflexivity);
      cbn; apply length_replicate.
  - split; [apply (for_each_const copyLayer.boundary); reflexivity|].
    split; [apply (for_each_const copyLayer.containsBathymetry); reflexivity|].
    repeat split; try (apply Hfield; try (intros; reflexivity);
                       cbn; apply length_replicate).
    apply (for_each_const copyLayer.b). reflexivity.
Qed.

Lemma bind_Done {A : Type} (o : outcome A) (k : A -> outcome A) (r : A) :
  bind o k = Done r -> exists a, o = Done a /\ k a = Done r.
Proof. destruct o as [a|a]; simpl; [eauto|discriminate]. Qed.

Lemma sendTo_Done s e receiver m sent sent' :
  sendTo s e receiver m sent = Done sent' ->
  sent' = sent ++ [mkSend (neighbourIndex s e) receiver m].
Proof.
  unfold sendTo, assert. destruct (-1 <? neighbourIndex s e)%Z; simpl.
  - intros H. injection H as <-. reflexivity.
  - discriminate.
Qed.

(** one of the four conditionals of sendCopyLayers *)
Lemma send_if_Done (c : bool) s e receiver m sent sent' :
  (if c then sendTo s e receiver m sent else Done sent) = Done sent' ->
  sent' = sent ++ (if c then [mkSend (neighbourIndex s e) receiver m] else []).
Proof.
  destruct c.
  - apply sendTo_Done.
  - intros H. injection H as <-. rewrite app_nil_r. reflexivity.
Qed.

Lemma copyLayerOffset_cell s e i f :
  Float2D.rows f = ny s + 2 ->
  Float2D.elem f !!! copyLayerOffset s e i
  = Float2D.get f (fst (copyLayerCell s e i)) (snd (copyLayerCell s e i)).
Proof.
  intros Hr. unfold Float2D.get, Float2D.index. rewrite Hr.
  destruct e; cbn [copyLayerOffset copyLayerCell fst snd]; f_equal; lia.
Qed.

(** C7. When sendCopyLayers completes, every CONNECT edge has its message,
    sent to the neighbour on that edge, tagged with the edge and with the
    flag, whose arrays [h], [hu], [hv], and [b] when bathymetry is sent, hold
    the samples of the fields at the offsets of the layout: LEFT the [ny]
    floats from offset [(ny+2)+1] on, RIGHT the [ny] floats from
    [nx*(ny+2)+1] on, BOTTOM [nx] floats with stride [ny+2] from [(ny+2)+1],
    TOP [nx] floats with stride [ny+2] from [(ny+2)+ny]. In the column-major
    layout these offsets are the cells of the column [x = 1], of the column
    [x = nx], of the row [y = 1] and of the row [y = ny], all interior. *)
Theorem sendCopyLayers_packs_interior_strips (sendBathymetry : bool) (s : Block)
    (sent : list Send) :
  allocated s ->
  sendCopyLayers sendBathymetry s = Done sent ->
  (forall e, boundaryType s e = CONNECT ->
     exists m, In (mkSend (neighbourIndex s e) (opposite e) m) sent /\
               packedLayer sendBathymetry s e m) /\
  (forall e i f, Float2D.rows f = ny s + 2 ->
     Float2D.elem f !!! copyLayerOffset s e i
     = Float2D.get f (fst (copyLayerCell s e i)) (snd (copyLayerCell s e i))) /\
  (1 <= nx s -> 1 <= ny s -> forall e i, i < copyLayerLength s e ->
     interior s (fst (copyLayerCell s e i)) (snd (copyLayerCell s e i))).
Proof.
  intros Ha Hsent. split; [|split].
  - unfold sendCopyLayers in Hsent. cbv zeta in Hsent.
    apply bind_Done in Hsent as (a3 & Hsent & H4).
    apply bind_Done in Hsent as (a2 & Hsent & H3).
    apply bind_Done in Hsent as (a1 & H1 & H2).
    apply send_if_Done in H1, H2, H3, H4. subst a1 a2 a3 sent.
    assert (Hx : forall k, k < ny s + 2 ->
              nx s * (ny s + 2) + k <= (nx s + 2) * (ny s + 2)) by (intros; nia).
    intros e He.
    assert (Hd : bool_decide (boundaryType s e = CONNECT) = true)
      by (apply bool_decide_eq_true_2; exact He).
    destruct e; rewrite Hd; cbn [opposite]; eexists;
      (split; [rewrite ?in_app_iff; cbn [In]; eauto 10|]).
    + unfold packedLayer, gather. cbn [copyLayerOffset copyLayerLength].
      apply fillContiguous_packed; [nia|exact Ha].
    + unfold packedLayer, gather. cbn [copyLayerOffset copyLayerLength].
      apply fillContiguous_packed; [specialize (Hx (1 + ny s)); lia|exact Ha].
    + unfold packedLayer, gather. cbn [copyLayerOffset copyLayerLength].
      apply fillStrided_packed.
    + unfold packedLayer, gather. cbn [copyLayerOffset copyLayerLength].
      apply fillStrided_packed.
  - intros e i f. apply copyLayerOffset_cell.
  - intros Hnx Hny e i Hi. unfold interior.
    destruct e; cbn [copyLayerLength copyLayerCell fst snd] in *; lia.
Qed.

(** ** The local time step *)

(** C1, as amended. When computeNumericalFluxes completes, with the maximal
    wave speeds [Wx] of the x-sweep and [Wy] of the y-sweep, maxTimestep is
    0.4 times the minimum of [dx / W] and [dy / W] where [W] is the larger of
    [Wx] and [Wy]: both quotients divide by the one maximum of the two
    speeds, no quotient divides by the speed of its own direction alone. *)
Theorem computeNumericalFluxes_maxTimestep (s s' : Block) :
  computeNumericalFluxes s = Done s' ->
  let maxHorizontalWaveSpeed := snd (xSweep s) in
  let maxVerticalWaveSpeed := snd (ySweep (fst (xSweep s))) in
  let maxWaveSpeed := std_max maxHorizontalWaveSpeed maxVerticalWaveSpeed in
  maxTimestep s'
  = to_float
      (F64.mul
         (to_double
            (std_min (F32.div (dx s) maxWaveSpeed) (F32.div (dy s) maxWaveSpeed)))
         (F64.literal 4 10)).
Proof.
  intros Hdone. pose proof (computeNumericalFluxes_state s) as Hs.
  rewrite Hdone in Hs. cbn [state_of] in Hs. rewrite Hs. reflexivity.
Qed.

(** ** The constructor *)

Lemma applyBoundaryConditions_other {T : Type} (p : Block -> T) :
  (forall fu fv xg yg xi yi s, p (copyCell fu fv xg yg xi yi s) = p s) ->
  forall s, p (applyBoundaryConditions s) = p s.
Proof.
  intros Hp s. unfold applyBoundaryConditions, cornerGhostCells. cbv zeta.
  rewrite !Hp.
  unfold topBoundary. destruct (boundaryType _ BND_TOP);
    rewrite ?(for_each_const p) by (intros; apply Hp);
  unfold bottomBoundary; destruct (boundaryType _ BND_BOTTOM);
    rewrite ?(for_each_const p) by (intros; apply Hp);
  unfold rightBoundary; destruct (boundaryType _ BND_RIGHT);
    rewrite ?(for_each_const p) by (intros; apply Hp);
  unfold leftBoundary; destruct (boundaryType _ BND_LEFT);
    rewrite ?(for_each_const p) by (intros; apply Hp);
  reflexivity.
Qed.

Lemma applyBoundaryBathymetry_other {T : Type} (p : Block -> T) :
  (forall v s, p (set_b v s) = p s) ->
  forall s, p (applyBoundaryBathymetry s) = p s.
Proof.
  intros Hp s. unfold applyBoundaryBathymetry, cornerBathymetry. cbv zeta.
  rewrite !Hp.
  unfold topBathymetry; cbv zeta; destruct (isOutflowOrWall (boundaryType _ BND_TOP));
    rewrite ?(for_each_const p) by (intros; apply Hp);
  unfold bottomBathymetry; destruct (isOutflowOrWall (boundaryType _ BND_BOTTOM));
    rewrite ?(for_each_const p) by (intros; apply Hp);
  unfold rightBathymetry; destruct (isOutflowOrWall (boundaryType _ BND_RIGHT));
    rewrite ?Hp;
  unfold leftBathymetry; destruct (isOutflowOrWall (boundaryType _ BND_LEFT));
    rewrite ?Hp; reflexivity.
Qed.

Lemma initScenario_other {T : Type} (p : Block -> T) scenario boundaries :
  (forall v s, p (set_b v s) = p s) ->
  (forall v s, p (set_h v s) = p s) ->
  (forall v s, p (set_hu v s) = p s) ->
  (forall v s, p (set_hv v s) = p s) ->
  (forall v s, p (set_boundaryType v s) = p s) ->
  forall s, p (initScenario scenario boundaries s) = p s.
Proof.
  intros Pb Ph Pu Pv Pt s. unfold initScenario. cbv zeta.
  rewrite (applyBoundaryBathymetry_other p Pb).
  rewrite (applyBoundaryConditions_other p).
  - rewrite Pt. apply (for_each_const p). intros ij s1.
    unfold initScenarioCell. cbv zeta. rewrite Pv, Pu, Ph, Pb. reflexivity.
  - intros. unfold copyCell. cbv zeta. rewrite Pv, Pu, Ph. reflexivity.
Qed.

(** the schedule holds the running sums of the time delta *)
Lemma checkpointSchedule_spec duration count :
  let delta := F32.div duration (F32.of_int (Z.of_nat count)) in
  length (checkpointSchedule duration count) = count /\
  forall k, k < count -> checkpointSchedule duration count !!! k = runningSum delta k.
Proof.
  intros delta. unfold checkpointSchedule. cbv zeta. fold delta.
  set (a0 := <[0 := delta]> (replicate count F32.zero)).
  set (body := fun i (a : list float) => <[i := F32.add (a !!! (i - 1)) delta]> a).
  assert (Hinv : forall j, 1 <= j -> j <= count ->
            length (for_each (range 1 j) body a0) = count /\
            forall k, k < j ->
              for_each (range 1 j) body a0 !!! k = runningSum delta k).
  { intros j Hj. induction j as [|j IH]; [lia|]. intros Hle.
    destruct (Nat.eq_dec j 0) as [->|Hj0].
    - cbn. unfold a0. rewrite length_insert, length_replicate.
      split; [reflexivity|]. intros k Hk. assert (k = 0) as -> by lia.
      apply list_lookup_total_insert_eq. rewrite length_replicate. lia.
    - destruct IH as (Hlen & Hsum); [lia|lia|].
      unfold range in *. replace (S j - 1) with (S (j - 1)) by lia.
      rewrite seq_S, for_each_app. replace (1 + (j - 1)) with j by lia.
      cbn [for_each fold_left]. unfold body at 1 3.
      rewrite length_insert. split; [exact Hlen|].
      intros k Hk. destruct (Nat.eq_dec k j) as [->|Hne].
      + rewrite list_lookup_total_insert_eq by lia.
        rewrite Hsum by lia. destruct j; [lia|].
        cbn [runningSum]. replace (S j - 1) with j by lia. reflexivity.
      + rewrite list_lookup_total_insert_ne by lia. apply Hsum. lia. }
  destruct count as [|count].
  - split; [reflexivity|]. intros k Hk. lia.
  - destruct (Hinv (S count)) as (Hlen & Hsum); [lia|lia|]. split; assumption.
Qed.

Lemma writeTimestep_fields s :
  checkpointInstantOfTime (writeTimestep s) = checkpointInstantOfTime s /\
  writer (writeTimestep s)
  = writer s ++ [mkTimeSlice (h s) (hu s) (hv s) (currentSimulationTime s)] /\
  currentSimulationTime (writeTimestep s) = currentSimulationTime s /\
  currentCheckpoint (writeTimestep s) = currentCheckpoint s /\
  h (writeTimestep s) = h s /\ hu (writeTimestep s) = hu s /\
  hv (writeTimestep s) = hv s.
Proof. repeat split. Qed.

Lemma constructor_fields g uninit slv scenario cx cy csx csy oX oY posX posY bnd :
  let s :=
    SWE_DimensionalSplittingCharm_new g uninit slv scenario cx cy csx csy oX oY
      posX posY bnd in
  checkpointInstantOfTime s
  = checkpointSchedule (simulationDuration g) (checkpointCount g) /\
  writer s = [mkTimeSlice (h s) (hu s) (hv s) F32.zero] /\
  currentSimulationTime s = F32.zero /\
  currentCheckpoint s = 0.
Proof.
  cbv zeta. unfold SWE_DimensionalSplittingCharm_new. cbv zeta.
  match goal with |- context [writeTimestep ?s0] =>
    destruct (writeTimestep_fields s0) as (-> & -> & -> & -> & -> & -> & ->)
  end.
  rewrite (initScenario_other checkpointInstantOfTime) by reflexivity.
  rewrite (initScenario_other writer) by reflexivity.
  rewrite (initScenario_other currentSimulationTime) by reflexivity.
  rewrite (initScenario_other currentCheckpoint) by reflexivity.
  repeat split.
Qed.

(** C8, as amended. After construction the schedule has checkpointCount
    instants; instant [k] is the running sum of [k + 1] copies of the time
    delta [simulationDuration / checkpointCount], each addition rounded to
    single precision: the first instant is the delta and every later instant
    is the one before it plus the delta. The constructor leaves the clock at
    0 and the writer with one time slice, the initial unknowns at [t = 0]. *)
Theorem constructor_checkpoint_schedule (g : Launcher) (uninit : float)
    (slv : Hybrid) (scenario : SWE_Scenario) (cx cy : nat) (csx csy oX oY : float)
    (posX posY : Z) (bnd : Boundary -> BoundaryType) :
  let s :=
    SWE_DimensionalSplittingCharm_new g uninit slv scenario cx cy csx csy oX oY
      posX posY bnd in
  let delta :=
    F32.div (simulationDuration g) (F32.of_int (Z.of_nat (checkpointCount g))) in
  length (checkpointInstantOfTime s) = checkpointCount g /\
  (forall k, k < checkpointCount g ->
     checkpointInstantOfTime s !!! k = runningSum delta k) /\
  (forall k, k < checkpointCount g ->
     checkpointInstantOfTime s !!! k
     = match k with
       | 0 => delta
       | S k' => F32.add (checkpointInstantOfTime s !!! k') delta
       end) /\
  writer s = [mkTimeSlice (h s) (hu s) (hv s) F32.zero] /\
  currentSimulationTime s = F32.zero.
Proof.
  intros s delta.
  destruct (constructor_fields g uninit slv scenario cx cy csx csy oX oY posX posY bnd)
    as (Hc & Hw & Ht & _).
  fold s in Hc, Hw, Ht. rewrite Hc.
  destruct (checkpointSchedule_spec (simulationDuration g) (checkpointCount g))
    as (Hlen & Hsum). fold delta in Hsum.
  split; [exact Hlen|]. split; [exact Hsum|]. split; [|split; assumption].
  intros k Hk. rewrite Hsum by exact Hk. destruct k as [|k']; [reflexivity|].
  rewrite Hsum by lia. reflexivity.
Qed.

Lemma allocated_writeTimestep s : allocated s -> allocated (writeTimestep s).
Proof. apply allocated_ext; reflexivity. Qed.

Lemma allocated_set_boundaryType v s :
  allocated s -> allocated (set_boundaryType v s).
Proof. apply allocated_ext; reflexivity. Qed.

Lemma allocated_initScenarioCell scenario ij s :
  allocated s -> allocated (initScenarioCell scenario ij s).
Proof.
  intros []. unfold initScenarioCell. cbv zeta.
  constructor; cbn; try assumption; repeat apply allocated_set; assumption.
Qed.

Lemma allocated_initScenario scenario boundaries s :
  allocated s -> allocated (initScenario scenario boundaries s).
Proof.
  intros Ha. unfold initScenario. cbv zeta.
  set (s0 := for_each _ (initScenarioCell scenario) s).
  assert (H0 : allocated s0).
  { apply for_each_inv; [exact Ha|].
    intros ij s1 _. apply allocated_initScenarioCell. }
  clearbody s0.
  pose proof (allocated_set_boundaryType boundaries s0 H0) as H1.
  set (s1 := set_boundaryType boundaries s0) in *. clearbody s1.
  destruct (applyBoundaryConditions_frame s1 H1) as (H2 & _ & _).
  set (s2 := applyBoundaryConditions s1) in *. clearbody s2.
  eapply allocated_bathymetryStage; [exact H2|].
  apply applyBoundaryBathymetry_stage. exact H2.
Qed.

(** the constructor allocates every field of the block *)
Lemma constructor_allocated g uninit slv scenario cx cy csx csy oX oY posX posY bnd :
  allocated
    (SWE_DimensionalSplittingCharm_new g uninit slv scenario cx cy csx csy oX oY
       posX posY bnd).
Proof.
  unfold SWE_DimensionalSplittingCharm_new. cbv zeta.
  apply allocated_writeTimestep, allocated_initScenario.
  constructor; cbn; apply allocated_new.
Qed.

(** * The theorems at the sample data *)

Lemma sampleBlock_allocated cx cy t : allocated (sampleBlock cx cy t).
Proof. unfold sampleBlock. apply constructor_allocated. Qed.

Lemma centralBlock_allocated cx cy t : allocated (centralBlock cx cy t).
Proof. unfold centralBlock. apply constructor_allocated. Qed.

Lemma fluxedBlock_allocated : allocated fluxedBlock.
Proof.
  unfold fluxedBlock.
  exact (proj1 (computeNumericalFluxes_frame (sampleBlock 1 1 OUTFLOW)
                  (sampleBlock_allocated 1 1 OUTFLOW))).
Qed.

(** On the sample block of one cell, [dx = 1] and [dy = 4], the x-sweep finds
    the wave speed 1 and the y-sweep the wave speed 2: the time step is
    [0.4 * min(1/2, 4/2)], the single-precision 0.2. *)
Lemma computeNumericalFluxes_maxTimestep_witness :
  computeNumericalFluxes (sampleBlock 1 1 OUTFLOW) = Done fluxedBlock /\
  maxTimestep fluxedBlock = S754_finite false 13421773 (-26).
Proof.
  assert (Hdone : computeNumericalFluxes (sampleBlock 1 1 OUTFLOW) = Done fluxedBlock).
  { vm_compute. reflexivity. }
  split; [exact Hdone|].
  rewrite (computeNumericalFluxes_maxTimestep _ _ Hdone). vm_compute. reflexivity.
Defined.

(** C1 as the claim states it fails on the same block: both wave speeds are
    positive, the call completes, and maxTimestep is the single-precision
    0.2, whereas 0.4 times the minimum of the separate quotients [dx / Wx = 1]
    and [dy / Wy = 2] is the single-precision 0.4. *)
Lemma computeNumericalFluxes_separate_quotients_counterexample :
  let s := sampleBlock 1 1 OUTFLOW in
  let Wx := snd (xSweep s) in
  let Wy := snd (ySweep (fst (xSweep s))) in
  F32.ltb F32.zero Wx = true /\
  F32.ltb F32.zero Wy = true /\
  exists s',
    computeNumericalFluxes s = Done s' /\
    maxTimestep s' = S754_finite false 13421773 (-26) /\
    separateQuotientsTimestep (dx s) (dy s) Wx Wy = S754_finite false 13421773 (-25) /\
    maxTimestep s' <> separateQuotientsTimestep (dx s) (dy s) Wx Wy.
Proof.
  cbv zeta. split; [vm_compute; reflexivity|]. split; [vm_compute; reflexivity|].
  exists fluxedBlock. split; [vm_compute; reflexivity|].
  split; [vm_compute; reflexivity|]. split; [vm_compute; reflexivity|].
  vm_compute. discriminate.
Qed.

Lemma rampFluxed_allocated : allocated rampFluxed.
Proof.
  unfold rampFluxed, rampBlock.
  exact (proj1 (computeNumericalFluxes_frame _
                  (constructor_allocated soloLauncher F32.zero jumpSolver rampScenario
                     2 1 (F32.of_int 1) (F32.of_int 4) F32.zero F32.zero 0 0
                     (allOf WALL)))).
Qed.

(** On the block of two cells between walls the time step is the
    single-precision 0.4/3. The update with it completes and moves the water
    height of the cell [(1, 1)] from 0.5 to [10625570 * 2^-24], about 0.633,
    and its vertical momentum from 1 to [14540254 * 2^-24], about 0.867. *)
Lemma updateUnknowns_interior_witness :
  let s := rampFluxed in
  let dt := maxTimestep s in
  allocated s /\
  timestepAgrees dt s = true /\
  exists s',
    updateUnknowns dt s = Done s' /\
    Float2D.get (h s) 1 1 = S754_finite false 8388608 (-24) /\
    Float2D.get (h s') 1 1 = S754_finite false 10625570 (-24) /\
    Float2D.get (hv s) 1 1 = S754_finite false 8388608 (-23) /\
    Float2D.get (hv s') 1 1 = S754_finite false 14540254 (-24).
Proof.
  cbv zeta.
  assert (Hagree : timestepAgrees (maxTimestep rampFluxed) rampFluxed = true)
    by (vm_compute; reflexivity).
  split; [exact rampFluxed_allocated|]. split; [exact Hagree|].
  destruct (updateUnknowns_interior (maxTimestep rampFluxed) rampFluxed
              rampFluxed_allocated) as (Hcompletes & Hcells).
  destruct (Hcompletes Hagree) as (s' & Hdone).
  assert (Hx : 1 <= 1 <= nx rampFluxed) by (vm_compute; lia).
  assert (Hy : 1 <= 1 <= ny rampFluxed) by (vm_compute; lia).
  destruct (Hcells s' Hdone) as (_ & Hcell).
  destruct (Hcell 1 1 Hx Hy) as (Hh & _ & Hv).
  exists s'. split; [exact Hdone|].
  split; [vm_compute; reflexivity|].
  split; [rewrite Hh; vm_compute; reflexivity|].
  split; [vm_compute; reflexivity|].
  rewrite Hv. vm_compute. reflexivity.
Defined.

Lemma updateUnknowns_timestep_assertion_witness :
  timestepAgrees (F32.of_int 1) fluxedBlock = false /\
  updateUnknowns (F32.of_int 1) fluxedBlock = Aborted fluxedBlock /\
  timestepAgrees (maxTimestep fluxedBlock) fluxedBlock = true /\
  exists s', updateUnknowns (maxTimestep fluxedBlock) fluxedBlock = Done s'.
Proof.
  assert (Hno : timestepAgrees (F32.of_int 1) fluxedBlock = false)
    by (vm_compute; reflexivity).
  assert (Hyes : timestepAgrees (maxTimestep fluxedBlock) fluxedBlock = true)
    by (vm_compute; reflexivity).
  split; [exact Hno|]. split.
  - exact (proj1 (updateUnknowns_timestep_assertion (F32.of_int 1) fluxedBlock) Hno).
  - split; [exact Hyes|].
    destruct (proj2 (updateUnknowns_timestep_assertion (maxTimestep fluxedBlock)
                       fluxedBlock) Hyes) as (s' & Hdone & _).
    exists s'. exact Hdone.
Defined.

Lemma computeNumericalFluxes_sweeps_witness :
  let s := sampleBlock 1 1 OUTFLOW in
  allocated s /\
  Float2D.get (hNetUpdatesRight (state_of (computeNumericalFluxes s))) (0 + 1) 1
  = hUpdateRight (xEdge s 0 1).
Proof.
  cbv zeta. split; [exact (sampleBlock_allocated 1 1 OUTFLOW)|].
  destruct (computeNumericalFluxes_sweeps _ (sampleBlock_allocated 1 1 OUTFLOW))
    as (_ & _ & _ & _ & Hx & _).
  assert (H0 : 0 <= nx (sampleBlock 1 1 OUTFLOW)) by lia.
  assert (H1 : 1 <= 1 <= ny (sampleBlock 1 1 OUTFLOW)) by (vm_compute; lia).
  destruct (Hx 0 1 H0 H1) as (_ & _ & Hr & _).
  exact Hr.
Defined.

Lemma applyBoundaryConditions_ghost_strips_witness :
  let s := sampleBlock 2 2 WALL in
  allocated s /\ 1 <= nx s /\ 1 <= ny s /\
  ghostRule (boundaryType s BND_LEFT) F32.opp keep s (applyBoundaryConditions s)
    0 1 1 1.
Proof.
  cbv zeta.
  assert (Hnx : 1 <= nx (sampleBlock 2 2 WALL)) by (vm_compute; lia).
  assert (Hny : 1 <= ny (sampleBlock 2 2 WALL)) by (vm_compute; lia).
  split; [exact (sampleBlock_allocated 2 2 WALL)|].
  split; [exact Hnx|]. split; [exact Hny|].
  destruct (applyBoundaryConditions_ghost_strips _ (sampleBlock_allocated 2 2 WALL)
              Hnx Hny) as (HL & _).
  exact (HL 1 (conj (le_n 1) Hny)).
Defined.

Lemma processCopyLayer_fills_opposite_strip_witness :
  let s := centralBlock 2 2 CONNECT in
  let msg := sampleLayer BND_RIGHT true in
  allocated s /\
  copyLayer.boundary msg = BND_RIGHT /\
  boundaryType s BND_LEFT = CONNECT /\
  unpacked msg s (processCopyLayer msg s) (fun i => (0, i + 1)) (ny s).
Proof.
  cbv zeta.
  assert (Ht : boundaryType (centralBlock 2 2 CONNECT) BND_LEFT = CONNECT)
    by (vm_compute; reflexivity).
  split; [exact (centralBlock_allocated 2 2 CONNECT)|].
  split; [reflexivity|]. split; [exact Ht|].
  destruct (processCopyLayer_fills_opposite_strip (sampleLayer BND_RIGHT true) _
              (centralBlock_allocated 2 2 CONNECT)) as (Hright & _).
  exact (Hright eq_refl Ht).
Defined.

Lemma processCopyLayer_discards_unpaired_witness :
  let s := sampleBlock 2 2 WALL in
  let msg := sampleLayer BND_RIGHT true in
  boundaryType s (opposite (copyLayer.boundary msg)) <> CONNECT /\
  processCopyLayer msg s = s.
Proof.
  cbv zeta.
  assert (Hne : boundaryType (sampleBlock 2 2 WALL)
                  (opposite (copyLayer.boundary (sampleLayer BND_RIGHT true)))
                <> CONNECT).
  { vm_compute. discriminate. }
  split; [exact Hne|].
  exact (processCopyLayer_discards_unpaired _ _ Hne).
Defined.

Lemma sendCopyLayers_packs_interior_strips_witness :
  let s := centralBlock 2 2 CONNECT in
  allocated s /\
  exists sent,
    sendCopyLayers true s = Done sent /\
    exists m, In (mkSend (neighbourIndex s BND_TOP) (opposite BND_TOP) m) sent /\
              packedLayer true s BND_TOP m.
Proof.
  cbv zeta.
  split; [exact (centralBlock_allocated 2 2 CONNECT)|].
  exists (state_of (sendCopyLayers true (centralBlock 2 2 CONNECT))).
  assert (Hdone : sendCopyLayers true (centralBlock 2 2 CONNECT)
                  = Done (state_of (sendCopyLayers true (centralBlock 2 2 CONNECT)))).
  { vm_compute. reflexivity. }
  assert (Ht : boundaryType (centralBlock 2 2 CONNECT) BND_TOP = CONNECT)
    by (vm_compute; reflexivity).
  split; [exact Hdone|].
  destruct (sendCopyLayers_packs_interior_strips _ _ _
              (centralBlock_allocated 2 2 CONNECT) Hdone) as (Hmsg & _).
  exact (Hmsg BND_TOP Ht).
Defined.

Lemma bathymetry_unchanged_witness :
  let s := sampleBlock 2 2 WALL in
  let s' := processCopyLayer (sampleLayer BND_TOP true) (applyBoundaryBathymetry s) in
  allocated s /\ run s s' /\
  Float2D.get (b s') 2 1 = Float2D.get (b s) 2 1.
Proof.
  cbv zeta.
  assert (Hrun : run (sampleBlock 2 2 WALL)
                   (processCopyLayer (sampleLayer BND_TOP true)
                      (applyBoundaryBathymetry (sampleBlock 2 2 WALL)))).
  { eapply run_next; [apply op_applyBoundaryBathymetry|].
    eapply run_next; [apply op_processCopyLayer|]. apply run_done. }
  assert (Hx : 1 <= 2 <= nx (sampleBlock 2 2 WALL)) by (vm_compute; lia).
  assert (Hy : 1 <= 1 <= ny (sampleBlock 2 2 WALL)) by (vm_compute; lia).
  split; [exact (sampleBlock_allocated 2 2 WALL)|]. split; [exact Hrun|].
  destruct bathymetry_unchanged as (_ & _ & _ & _ & Hall).
  exact (Hall _ _ (sampleBlock_allocated 2 2 WALL) Hrun 2 1 Hx Hy).
Defined.

(** With a duration of 1 and ten checkpoints the delta is the
    single-precision 0.1, and instant 6 is the running sum of seven of them. *)
Lemma constructor_checkpoint_schedule_witness :
  let s := sampleBlock 1 1 OUTFLOW in
  6 < checkpointCount soloLauncher /\
  checkpointInstantOfTime s !!! 6
  = runningSum
      (F32.div (simulationDuration soloLauncher)
         (F32.of_int (Z.of_nat (checkpointCount soloLauncher)))) 6.
Proof.
  cbv zeta. unfold sampleBlock.
  assert (H6 : 6 < checkpointCount soloLauncher) by (vm_compute; lia).
  split; [exact H6|].
  destruct (constructor_checkpoint_schedule soloLauncher F32.zero jumpSolver
              streamScenario 1 1 (F32.of_int 1) (F32.of_int 4) F32.zero F32.zero 0 0
              (allOf OUTFLOW)) as (_ & Hsum & _).
  exact (Hsum 6 H6).
Defined.

(** C8 as the claim states it fails there: instant 6 is the single-precision
    number [11744052 * 2^-24], one unit in the last place above the closed
    form [7 * 1 / 10], which is [11744051 * 2^-24] whether the product or
    the quotient is taken first. *)
Lemma constructor_checkpoint_closed_form_counterexample :
  let s := sampleBlock 1 1 OUTFLOW in
  let D := simulationDuration soloLauncher in
  let C := checkpointCount soloLauncher in
  6 < C /\
  checkpointInstantOfTime s !!! 6 = S754_finite false 11744052 (-24) /\
  closedFormInstant D C 6 = S754_finite false 11744051 (-24) /\
  closedFormInstant' D C 6 = S754_finite false 11744051 (-24) /\
  checkpointInstantOfTime s !!! 6 <> closedFormInstant D C 6 /\
  checkpointInstantOfTime s !!! 6 <> closedFormInstant' D C 6.
Proof.
  cbv zeta. split; [vm_compute; lia|].
  split; [vm_compute; reflexivity|]. split; [vm_compute; reflexivity|].
  split; [vm_compute; reflexivity|]. split; vm_compute; discriminate.
Qed.

(** * Further properties of the block *)

(** ** The boundary conditions *)

Ltac selects_cell := cbv beta; apply bool_decide_eq_true_2; lia.

(** the corner ghost cells after applyBoundaryConditions, in terms of the
    unknowns before it *)
Lemma applyBoundaryConditions_corner_cells s :
  allocated s -> 1 <= nx s -> 1 <= ny s ->
  let s' := applyBoundaryConditions s in
  unknownsAt s' 0 0 = unknownsAt s 1 1 /\
  unknownsAt s' 0 (ny s + 1) = unknownsAt s 1 (ny s) /\
  unknownsAt s' (nx s + 1) 0 = unknownsAt s (nx s) 1 /\
  unknownsAt s' (nx s + 1) (ny s + 1) = unknownsAt s (nx s) (ny s).
Proof.
  intros Ha Hnx Hny s'.
  destruct (applyBoundaryConditions_stages s Ha)
    as (s1 & s2 & s3 & s4 & s5 & s6 & s7 & H1 & H2 & H3 & H4 & H5 & H6 & H7 & H8).
  fold s' in H8.
  destruct (ghostStage_geometry _ _ _ _ _ _ H1) as (_ & M1 & _).
  destruct (ghostStage_geometry _ _ _ _ _ _ H2) as (_ & M2 & _).
  destruct (ghostStage_geometry _ _ _ _ _ _ H3) as (_ & M3 & _).
  destruct (ghostStage_geometry _ _ _ _ _ _ H4) as (_ & M4 & _).
  destruct (ghostStage_geometry _ _ _ _ _ _ H5) as (_ & M5 & _).
  destruct (ghostStage_geometry _ _ _ _ _ _ H6) as (_ & M6 & _).
  destruct (ghostStage_geometry _ _ _ _ _ _ H7) as (_ & M7 & _).
  assert (I4 : forall x y, interior s x y -> unknownsAt s4 x y = unknownsAt s x y).
  { intros x y [Hx Hy]. skip_stage H4. skip_stage H3. skip_stage H2. skip_stage H1.
    reflexivity. }
  assert (I5 : forall x y, interior s x y -> unknownsAt s5 x y = unknownsAt s x y).
  { intros x y [Hx Hy]. skip_stage H5. apply I4. split; assumption. }
  assert (I6 : forall x y, interior s x y -> unknownsAt s6 x y = unknownsAt s x y).
  { intros x y [Hx Hy]. skip_stage H6. apply I5. split; assumption. }
  assert (I7 : forall x y, interior s x y -> unknownsAt s7 x y = unknownsAt s x y).
  { intros x y [Hx Hy]. skip_stage H7. apply I6. split; assumption. }
  split; [|split; [|split]].
  - skip_stage H8. skip_stage H7. skip_stage H6.
    rewrite (stage_touched _ _ _ _ _ _ _ _ H5) by first [lia | selects_cell].
    apply (I4 1 1). split; lia.
  - skip_stage H8. skip_stage H7.
    rewrite (stage_touched _ _ _ _ _ _ _ _ H6) by first [lia | selects_cell].
    apply (I5 1 (ny s)). split; lia.
  - skip_stage H8.
    rewrite (stage_touched _ _ _ _ _ _ _ _ H7) by first [lia | selects_cell].
    apply (I6 (nx s) 1). split; lia.
  - rewrite (stage_touched _ _ _ _ _ _ _ _ H8) by first [lia | selects_cell].
    apply (I7 (nx s) (ny s)). split; lia.
Qed.

(** X1. After applyBoundaryConditions on a block with an interior, each of
    the four corner ghost cells holds [h], [hu] and [hv] of the interior cell
    diagonally next to it, none of them negated, whatever the boundary types
    are: [(0,0)] holds the cell [(1,1)], [(0,ny+1)] the cell [(1,ny)],
    [(nx+1,0)] the cell [(nx,1)] and [(nx+1,ny+1)] the cell [(nx,ny)]. *)
Theorem applyBoundaryConditions_corners (s : Block) :
  allocated s -> 1 <= nx s -> 1 <= ny s ->
  let s' := applyBoundaryConditions s in
  unknownsAt s' 0 0 = unknownsAt s' 1 1 /\
  unknownsAt s' 0 (ny s + 1) = unknownsAt s' 1 (ny s) /\
  unknownsAt s' (nx s + 1) 0 = unknownsAt s' (nx s) 1 /\
  unknownsAt s' (nx s + 1) (ny s + 1) = unknownsAt s' (nx s) (ny s).
Proof.
  intros Ha Hnx Hny s'.
  destruct (applyBoundaryConditions_corner_cells s Ha Hnx Hny) as (C1 & C2 & C3 & C4).
  destruct (applyBoundaryConditions_cells s Ha Hnx Hny) as (HI & _).
  fold s' in C1, C2, C3, C4, HI.
  rewrite C1, C2, C3, C4.
  rewrite !HI by (split; lia). auto.
Qed.

(** X2. applyBoundaryConditions writes ghost cells of [h], [hu], [hv] only:
    every interior cell keeps its three unknowns, the bathymetry is the same
    field, and no other member of the block (boundary types, net-update
    buffers, time step, clock) changes. *)
Theorem applyBoundaryConditions_keeps_interior (s : Block) :
  allocated s ->
  let s' := applyBoundaryConditions s in
  (forall x y, 1 <= x <= nx s -> 1 <= y <= ny s ->
     unknownsAt s' x y = unknownsAt s x y) /\
  b s' = b s /\
  sameButUnknowns s s'.
Proof.
  intros Ha s'.
  destruct (applyBoundaryConditions_frame s Ha) as (_ & Hf & Hb). fold s' in Hf, Hb.
  split; [|split; assumption].
  intros x y Hx Hy.
  destruct (applyBoundaryConditions_cells s Ha) as (HI & _); [lia|lia|].
  apply HI. split; assumption.
Qed.

(** two allocated fields with the same cells are the same field *)
Lemma Float2D_ext f f' c r :
  Float2D.allocated f c r -> Float2D.allocated f' c r ->
  (forall x y, x < c -> y < r -> Float2D.get f x y = Float2D.get f' x y) ->
  f = f'.
Proof.
  destruct f as [fc fr fe], f' as [fc' fr' fe'].
  unfold Float2D.allocated, Float2D.get, Float2D.index. cbn.
  intros (-> & -> & Hl) (-> & -> & Hl') Hget. f_equal.
  apply (list_eq_same_length _ _ (c * r)); try assumption.
  intros i v v' Hi Hv Hv'.
  assert (Hr : 0 < r) by (destruct r; [lia|lia]).
  specialize (Hget (i / r) (i mod r)).
  rewrite <- (Nat.mul_comm r), <- Nat.div_mod_eq in Hget.
  rewrite (list_lookup_total_correct _ _ _ Hv),
    (list_lookup_total_correct _ _ _ Hv') in Hget.
  apply Hget.
  - apply Nat.Div0.div_lt_upper_bound. lia.
  - apply Nat.mod_upper_bound. lia.
Qed.

Lemma sameButUnknowns_eq s s' :
  sameButUnknowns s s' ->
  h s' = h s -> hu s' = hu s -> hv s' = hv s -> b s' = b s -> s' = s.
Proof.
  unfold sameButUnknowns. destruct s, s'. cbn.
  intros H -> -> -> ->. exact H.
Qed.

(** X3. applyBoundaryConditions is idempotent on a block with an interior:
    applied to its own result it changes nothing, because every ghost value
    it writes is computed from interior cells, which it never writes. *)
Theorem applyBoundaryConditions_idempotent (s : Block) :
  allocated s -> 1 <= nx s -> 1 <= ny s ->
  applyBoundaryConditions (applyBoundaryConditions s) = applyBoundaryConditions s.
Proof.
  intros Ha Hnx Hny.
  destruct (applyBoundaryConditions_frame s Ha) as (Ha' & Hf & Hb).
  destruct (applyBoundaryConditions_cells s Ha Hnx Hny) as (HI & HL & HR & HB & HT).
  destruct (applyBoundaryConditions_corner_cells s Ha Hnx Hny) as (C1 & C2 & C3 & C4).
  pose proof (sameButUnknowns_nx _ _ Hf) as N.
  pose proof (sameButUnknowns_ny _ _ Hf) as M.
  pose proof (sameButUnknowns_boundaryType _ _ Hf) as BT.
  set (s' := applyBoundaryConditions s) in *. clearbody s'.
  destruct (applyBoundaryConditions_frame s' Ha') as (Ha'' & Hf' & Hb').
  destruct (applyBoundaryConditions_cells s') as (HI' & HL' & HR' & HB' & HT');
    [exact Ha'|lia|lia|].
  destruct (applyBoundaryConditions_corner_cells s') as (C1' & C2' & C3' & C4');
    [exact Ha'|lia|lia|].
  set (s'' := applyBoundaryConditions s') in *. clearbody s''.
  unfold interior in HI'. rewrite N, M, BT in *.
  assert (Hcell : forall x y, x < nx s + 2 -> y < ny s + 2 ->
            unknownsAt s'' x y = unknownsAt s' x y).
  { intros x y Hx Hy.
    assert (Hin : forall x0 y0, interior s x0 y0 ->
              Float2D.get (h s') x0 y0 = Float2D.get (h s) x0 y0 /\
              Float2D.get (hu s') x0 y0 = Float2D.get (hu s) x0 y0 /\
              Float2D.get (hv s') x0 y0 = Float2D.get (hv s) x0 y0).
    { intros x0 y0 H0. specialize (HI x0 y0 H0). unfold unknownsAt in HI.
      injection HI as -> -> ->. auto. }
    destruct (Nat.eq_dec x 0) as [->|Hx0];
      [|destruct (Nat.eq_dec x (nx s + 1)) as [->|Hx1]];
      (destruct (Nat.eq_dec y 0) as [->|Hy0];
       [|destruct (Nat.eq_dec y (ny s + 1)) as [->|Hy1]]).
    - rewrite C1', C1. apply HI. split; lia.
    - rewrite C2', C2. apply HI. split; lia.
    - rewrite HL', HL by lia.
      destruct (Hin 1 y) as (-> & -> & ->); [split; lia|].
      destruct (fillsGhost (boundaryType s BND_LEFT)); reflexivity.
    - rewrite C3', C3. apply HI. split; lia.
    - rewrite C4', C4. apply HI. split; lia.
    - rewrite HR', HR by lia.
      destruct (Hin (nx s) y) as (-> & -> & ->); [split; lia|].
      destruct (fillsGhost (boundaryType s BND_RIGHT)); reflexivity.
    - rewrite HB', HB by lia.
      destruct (Hin x 1) as (-> & -> & ->); [split; lia|].
      destruct (fillsGhost (boundaryType s BND_BOTTOM)); reflexivity.
    - rewrite HT', HT by lia.
      destruct (Hin x (ny s)) as (-> & -> & ->); [split; lia|].
      destruct (fillsGhost (boundaryType s BND_TOP)); reflexivity.
    - apply HI'. lia. }
  assert (Hfield : forall proj : Block -> Float2D,
            Float2D.allocated (proj s') (nx s + 2) (ny s + 2) ->
            Float2D.allocated (proj s'') (nx s + 2) (ny s + 2) ->
            (forall x y, x < nx s + 2 -> y < ny s + 2 ->
               Float2D.get (proj s'') x y = Float2D.get (proj s') x y) ->
            proj s'' = proj s').
  { intros proj A1 A2 Hg. apply (Float2D_ext _ _ (nx s + 2) (ny s + 2)); assumption. }
  pose proof (sameButUnknowns_nx _ _ Hf') as N'.
  pose proof (sameButUnknowns_ny _ _ Hf') as M'.
  destruct Ha' as [Ah Au Av _ _ _ _ _ _ _ _ _], Ha'' as [Ah' Au' Av' _ _ _ _ _ _ _ _ _].
  rewrite N, M in Ah, Au, Av. rewrite N', M', N, M in Ah', Au', Av'.
  apply sameButUnknowns_eq; [exact Hf'| | | |exact Hb'].
  - apply Hfield; try assumption. intros x y Hx Hy.
    specialize (Hcell x y Hx Hy). unfold unknownsAt in Hcell. congruence.
  - apply Hfield; try assumption. intros x y Hx Hy.
    specialize (Hcell x y Hx Hy). unfold unknownsAt in Hcell. congruence.
  - apply Hfield; try assumption. intros x y Hx Hy.
    specialize (Hcell x y Hx Hy). unfold unknownsAt in Hcell. congruence.
Qed.

(** ** The bathymetry of the ghost layer *)

Lemma sameButBathymetry_boundaryType s s' :
  sameButBathymetry s s' -> boundaryType s' = boundaryType s.
Proof. intros H. frame_of H boundaryType. exact E. Qed.

Lemma allocated_frame_b s s' :
  allocated s -> sameButBathymetry s s' ->
  Float2D.allocated (b s') (nx s + 2) (ny s + 2) -> allocated s'.
Proof.
  intros [] Hf Hb.
  frame_of Hf nx. frame_of Hf ny. frame_of Hf h. frame_of Hf hu. frame_of Hf hv.
  frame_of Hf hNetUpdatesLeft. frame_of Hf hNetUpdatesRight.
  frame_of Hf huNetUpdatesLeft. frame_of Hf huNetUpdatesRight.
  frame_of Hf hNetUpdatesBelow. frame_of Hf hNetUpdatesAbove.
  frame_of Hf hvNetUpdatesBelow. frame_of Hf hvNetUpdatesAbove.
  constructor; congruence.
Qed.

Lemma bathymetryEffect_refl s src :
  allocated s -> bathymetryEffect s s (fun _ _ => false) src.
Proof.
  intros Ha. split; [apply sameButBathymetry_refl|]. split; [exact Ha|].
  intros x y _ _. reflexivity.
Qed.

Lemma bathymetryEffect_set s (f : Float2D) (sel : nat -> nat -> bool)
    (src : nat -> nat -> nat * nat) :
  allocated s ->
  Float2D.allocated f (nx s + 2) (ny s + 2) ->
  (forall x y, x < nx s + 2 -> y < ny s + 2 ->
     Float2D.get f x y
     = if sel x y then Float2D.get (b s) (fst (src x y)) (snd (src x y))
       else Float2D.get (b s) x y) ->
  bathymetryEffect s (set_b f s) sel src.
Proof.
  intros Ha Hf Hc. split; [destruct s; reflexivity|]. split; [|exact Hc].
  destruct Ha. constructor; assumption.
Qed.

Lemma column_memcpy_effect xd xs s :
  allocated s -> xd < nx s + 2 -> xs < nx s + 2 ->
  bathymetryEffect s (set_b (Float2D.memcpy (b s) xd xs (ny s + 2)) s)
    (fun x _ => bool_decide (x = xd)) (fun _ y => (xs, y)).
Proof.
  intros Ha Hxd Hxs.
  destruct (memcpy_spec (b s) (nx s + 2) (ny s + 2) xd xs) as [Ha' Hget];
    [apply Ha|lia|lia|].
  apply bathymetryEffect_set; [exact Ha|exact Ha'|].
  intros x y Hx Hy. rewrite Hget by lia. cbn [fst snd].
  destruct (decide (x = xd)) as [->|Hne].
  - rewrite bool_decide_eq_true_2 by reflexivity. reflexivity.
  - rewrite bool_decide_eq_false_2 by exact Hne. reflexivity.
Qed.

Lemma row_loop_effect yg yi s :
  allocated s -> yg < ny s + 2 -> yi < ny s + 2 -> yg <> yi ->
  bathymetryEffect s
    (for_each (range 0 (nx s + 2))
       (fun i s1 => set_b (Float2D.set (b s1) i yg (Float2D.get (b s1) i yi)) s1) s)
    (fun _ y => bool_decide (y = yg)) (fun x _ => (x, yi)).
Proof.
  intros Ha Hyg Hyi Hne.
  set (body := fun i s1 =>
                 set_b (Float2D.set (b s1) i yg (Float2D.get (b s1) i yi)) s1).
  assert (Hf : sameButBathymetry s (for_each (range 0 (nx s + 2)) body s)).
  { apply for_each_inv; [apply sameButBathymetry_refl|].
    intros i s1 _ H1. exact H1. }
  destruct (for_each_set_spec (fun i => (i, yg)) (fun i g => Float2D.get g i yi)
              (range 0 (nx s + 2)) (b s) (nx s + 2) (ny s + 2))
    as (Ha' & Hwritten & Hkept).
  { apply Ha. }
  { apply NoDup_map_range. intros i j Heq. congruence. }
  { intros i Hi. apply in_range in Hi. simpl. lia. }
  { intros i f' _ _ Hagree. apply Hagree; [exact Hyi|]. right.
    rewrite in_map_iff. intros (j & Heq & _). congruence. }
  cbn [fst snd] in Ha', Hwritten, Hkept.
  assert (Hb : b (for_each (range 0 (nx s + 2)) body s)
               = for_each (range 0 (nx s + 2))
                   (fun i g => Float2D.set g i yg (Float2D.get g i yi)) (b s)).
  { apply (for_each_proj b (fun _ => True)); auto. }
  split; [exact Hf|]. split.
  - apply (allocated_frame_b s); [exact Ha|exact Hf|]. rewrite Hb. exact Ha'.
  - intros x y Hx Hy. rewrite Hb. cbn [fst snd].
    destruct (decide (y = yg)) as [->|Hy'].
    + rewrite bool_decide_eq_true_2 by reflexivity.
      apply (Hwritten x). apply in_range. lia.
    + rewrite bool_decide_eq_false_2 by exact Hy'.
      apply Hkept; [lia|]. rewrite in_map_iff. intros (j & Heq & _).
      apply Hy'. congruence.
Qed.

Lemma cell_effect xg yg xi yi s :
  allocated s -> xg < nx s + 2 -> yg < ny s + 2 ->
  bathymetryEffect s
    (set_b (Float2D.set (b s) xg yg (Float2D.get (b s) xi yi)) s)
    (fun x y => bool_decide (x = xg /\ y = yg)) (fun _ _ => (xi, yi)).
Proof.
  intros Ha Hxg Hyg. apply bathymetryEffect_set; [exact Ha|apply allocated_set, Ha|].
  intros x y Hx Hy. cbn [fst snd].
  rewrite (get_set (b s) (nx s + 2) (ny s + 2)) by (try lia; apply Ha).
  destruct (decide (xg = x /\ yg = y)) as [[-> ->]|Hne].
  - rewrite bool_decide_eq_true_2 by (split; reflexivity). reflexivity.
  - rewrite bool_decide_eq_false_2 by (intros [-> ->]; apply Hne; split; reflexivity).
    reflexivity.
Qed.

Lemma leftBathymetry_effect s :
  allocated s -> 1 <= nx s ->
  bathymetryEffect s (leftBathymetry s)
    (fun x _ => isOutflowOrWall (boundaryType s BND_LEFT) && bool_decide (x = 0))
    (fun _ y => (1, y)).
Proof.
  intros Ha Hn. unfold leftBathymetry.
  destruct (isOutflowOrWall (boundaryType s BND_LEFT)).
  - exact (column_memcpy_effect 0 1 s Ha ltac:(lia) ltac:(lia)).
  - exact (bathymetryEffect_refl s _ Ha).
Qed.

Lemma rightBathymetry_effect s :
  allocated s -> 1 <= nx s ->
  bathymetryEffect s (rightBathymetry s)
    (fun x _ => isOutflowOrWall (boundaryType s BND_RIGHT)
                && bool_decide (x = nx s + 1))
    (fun _ y => (nx s, y)).
Proof.
  intros Ha Hn. unfold rightBathymetry.
  destruct (isOutflowOrWall (boundaryType s BND_RIGHT)).
  - exact (column_memcpy_effect (nx s + 1) (nx s) s Ha ltac:(lia) ltac:(lia)).
  - exact (bathymetryEffect_refl s _ Ha).
Qed.

Lemma bottomBathymetry_effect s :
  allocated s -> 1 <= ny s ->
  bathymetryEffect s (bottomBathymetry s)
    (fun _ y => isOutflowOrWall (boundaryType s BND_BOTTOM) && bool_decide (y = 0))
    (fun x _ => (x, 1)).
Proof.
  intros Ha Hm. unfold bottomBathymetry.
  destruct (isOutflowOrWall (boundaryType s BND_BOTTOM)).
  - exact (row_loop_effect 0 1 s Ha ltac:(lia) ltac:(lia) ltac:(lia)).
  - exact (bathymetryEffect_refl s _ Ha).
Qed.

Lemma topBathymetry_effect s :
  allocated s -> 1 <= ny s ->
  bathymetryEffect s (topBathymetry s)
    (fun _ y => isOutflowOrWall (boundaryType s BND_TOP)
                && bool_decide (y = ny s + 1))
    (fun x _ => (x, ny s)).
Proof.
  intros Ha Hm. unfold topBathymetry. cbv zeta.
  destruct (isOutflowOrWall (boundaryType s BND_TOP)).
  - exact (row_loop_effect (ny s + 1) (ny s) s Ha ltac:(lia) ltac:(lia) ltac:(lia)).
  - exact (bathymetryEffect_refl s _ Ha).
Qed.

(** the geometry and the boundary types after a stage, and its cells in
    terms of the geometry before it *)
Lemma bathymetryEffect_cells n m bt s s' sel src :
  nx s = n -> ny s = m -> boundaryType s = bt ->
  bathymetryEffect s s' sel src ->
  nx s' = n /\ ny s' = m /\ boundaryType s' = bt /\ allocated s' /\
  forall x y, x < n + 2 -> y < m + 2 ->
    Float2D.get (b s') x y
    = if sel x y then Float2D.get (b s) (fst (src x y)) (snd (src x y))
      else Float2D.get (b s) x y.
Proof.
  intros N M B (Hf & Ha & Hc).
  split; [rewrite <- N; apply sameButBathymetry_nx, Hf|].
  split; [rewrite <- M; apply sameButBathymetry_ny, Hf|].
  split; [rewrite <- B; apply sameButBathymetry_boundaryType, Hf|].
  split; [exact Ha|]. rewrite <- N, <- M. exact Hc.
Qed.

Ltac decide_cells :=
  repeat match goal with
  | |- context [bool_decide ?P] =>
      first [ rewrite (bool_decide_eq_true_2 P) by lia
            | rewrite (bool_decide_eq_false_2 P) by lia ]
  end.

Ltac stage C :=
  rewrite C by lia; cbn beta; decide_cells;
  rewrite ?andb_false_r; cbn [andb fst snd].

(** the cells of the block after applyBoundaryBathymetry in terms of those
    before it, one stage after the other *)
Lemma applyBoundaryBathymetry_stages s :
  allocated s -> 1 <= nx s -> 1 <= ny s ->
  exists s1 s2 s3 s4 c1 c2 c3,
    bathymetryEffect s s1
      (fun x _ => isOutflowOrWall (boundaryType s BND_LEFT) && bool_decide (x = 0))
      (fun _ y => (1, y)) /\
    bathymetryEffect s1 s2
      (fun x _ => isOutflowOrWall (boundaryType s BND_RIGHT)
                  && bool_decide (x = nx s + 1))
      (fun _ y => (nx s, y)) /\
    bathymetryEffect s2 s3
      (fun _ y => isOutflowOrWall (boundaryType s BND_BOTTOM) && bool_decide (y = 0))
      (fun x _ => (x, 1)) /\
    bathymetryEffect s3 s4
      (fun _ y => isOutflowOrWall (boundaryType s BND_TOP)
                  && bool_decide (y = ny s + 1))
      (fun x _ => (x, ny s)) /\
    bathymetryEffect s4 c1
      (fun x y => bool_decide (x = 0 /\ y = 0)) (fun _ _ => (1, 1)) /\
    bathymetryEffect c1 c2
      (fun x y => bool_decide (x = 0 /\ y = ny s + 1)) (fun _ _ => (1, ny s)) /\
    bathymetryEffect c2 c3
      (fun x y => bool_decide (x = nx s + 1 /\ y = 0)) (fun _ _ => (nx s, 1)) /\
    bathymetryEffect c3 (applyBoundaryBathymetry s)
      (fun x y => bool_decide (x = nx s + 1 /\ y = ny s + 1))
      (fun _ _ => (nx s, ny s)) /\
    nx s1 = nx s /\ ny s1 = ny s /\ nx s2 = nx s /\ ny s2 = ny s /\
    nx s3 = nx s /\ ny s3 = ny s /\ nx s4 = nx s /\ ny s4 = ny s /\
    nx c1 = nx s /\ ny c1 = ny s /\ nx c2 = nx s /\ ny c2 = ny s /\
    nx c3 = nx s /\ ny c3 = ny s.
Proof.
  intros Ha Hn Hm.
  pose proof (leftBathymetry_effect s Ha Hn) as E1.
  destruct (bathymetryEffect_cells _ _ _ _ _ _ _ eq_refl eq_refl eq_refl E1)
    as (N1 & M1 & B1 & A1 & _).
  remember (leftBathymetry s) as s1 eqn:Hs1.
  pose proof (rightBathymetry_effect s1 A1 ltac:(lia)) as E2.
  rewrite B1, N1 in E2.
  destruct (bathymetryEffect_cells _ _ _ _ _ _ _ N1 M1 B1 E2)
    as (N2 & M2 & B2 & A2 & _).
  remember (rightBathymetry s1) as s2 eqn:Hs2.
  pose proof (bottomBathymetry_effect s2 A2 ltac:(lia)) as E3.
  rewrite B2 in E3.
  destruct (bathymetryEffect_cells _ _ _ _ _ _ _ N2 M2 B2 E3)
    as (N3 & M3 & B3 & A3 & _).
  remember (bottomBathymetry s2) as s3 eqn:Hs3.
  pose proof (topBathymetry_effect s3 A3 ltac:(lia)) as E4.
  rewrite B3, M3 in E4.
  destruct (bathymetryEffect_cells _ _ _ _ _ _ _ N3 M3 B3 E4)
    as (N4 & M4 & B4 & A4 & _).
  remember (topBathymetry s3) as s4 eqn:Hs4.
  pose proof (cell_effect 0 0 1 1 s4 A4 ltac:(lia) ltac:(lia)) as E5.
  destruct (bathymetryEffect_cells _ _ _ _ _ _ _ N4 M4 B4 E5)
    as (N5 & M5 & B5 & A5 & _).
  remember (set_b (Float2D.set (b s4) 0 0 (Float2D.get (b s4) 1 1)) s4) as c1 eqn:Hc1.
  pose proof (cell_effect 0 (ny s + 1) 1 (ny s) c1 A5 ltac:(lia) ltac:(lia)) as E6.
  destruct (bathymetryEffect_cells _ _ _ _ _ _ _ N5 M5 B5 E6)
    as (N6 & M6 & B6 & A6 & _).
  remember (set_b (Float2D.set (b c1) 0 (ny s + 1) (Float2D.get (b c1) 1 (ny s))) c1)
    as c2 eqn:Hc2.
  pose proof (cell_effect (nx s + 1) 0 (nx s) 1 c2 A6 ltac:(lia) ltac:(lia)) as E7.
  destruct (bathymetryEffect_cells _ _ _ _ _ _ _ N6 M6 B6 E7)
    as (N7 & M7 & B7 & A7 & _).
  remember (set_b (Float2D.set (b c2) (nx s + 1) 0 (Float2D.get (b c2) (nx s) 1)) c2)
    as c3 eqn:Hc3.
  pose proof (cell_effect (nx s + 1) (ny s + 1) (nx s) (ny s) c3 A7
                ltac:(lia) ltac:(lia)) as E8.
  exists s1, s2, s3, s4, c1, c2, c3.
  repeat (split; [assumption|]).
  split.
  - replace (applyBoundaryBathymetry s)
      with (set_b (Float2D.set (b c3) (nx s + 1) (ny s + 1)
                     (Float2D.get (b c3) (nx s) (ny s))) c3); [exact E8|].
    unfold applyBoundaryBathymetry, cornerBathymetry. cbv zeta.
    rewrite <- Hs1, <- Hs2, <- Hs3, <- Hs4, N4, M4, <- Hc1, <- Hc2, <- Hc3.
    reflexivity.
  - repeat split; assumption.
Qed.

(** X4. applyBoundaryBathymetry on a block with an interior: next to an
    OUTFLOW or WALL edge each ghost cell of the strip takes the bathymetry of
    the interior cell beside it and keeps its own next to any other edge; the
    four corner ghost cells take the bathymetry of the diagonal interior cell
    whatever the boundary types are. *)
Theorem applyBoundaryBathymetry_ghost_layer (s : Block) :
  allocated s -> 1 <= nx s -> 1 <= ny s ->
  let s' := applyBoundaryBathymetry s in
  let n := nx s in
  let m := ny s in
  (forall j, 1 <= j <= m ->
     Float2D.get (b s') 0 j
     = (if isOutflowOrWall (boundaryType s BND_LEFT)
        then Float2D.get (b s) 1 j else Float2D.get (b s) 0 j) /\
     Float2D.get (b s') (n + 1) j
     = (if isOutflowOrWall (boundaryType s BND_RIGHT)
        then Float2D.get (b s) n j else Float2D.get (b s) (n + 1) j)) /\
  (forall i, 1 <= i <= n ->
     Float2D.get (b s') i 0
     = (if isOutflowOrWall (boundaryType s BND_BOTTOM)
        then Float2D.get (b s) i 1 else Float2D.get (b s) i 0) /\
     Float2D.get (b s') i (m + 1)
     = (if isOutflowOrWall (boundaryType s BND_TOP)
        then Float2D.get (b s) i m else Float2D.get (b s) i (m + 1))) /\
  Float2D.get (b s') 0 0 = Float2D.get (b s) 1 1 /\
  Float2D.get (b s') 0 (m + 1) = Float2D.get (b s) 1 m /\
  Float2D.get (b s') (n + 1) 0 = Float2D.get (b s) n 1 /\
  Float2D.get (b s') (n + 1) (m + 1) = Float2D.get (b s) n m.
Proof.
  intros Ha Hn Hm. cbv zeta.
  destruct (applyBoundaryBathymetry_stages s Ha Hn Hm)
    as (s1 & s2 & s3 & s4 & c1 & c2 & c3 & E1 & E2 & E3 & E4 & E5 & E6 & E7 & E8
        & N1 & M1 & N2 & M2 & N3 & M3 & N4 & M4 & N5 & M5 & N6 & M6 & N7 & M7).
  destruct E1 as (_ & _ & C1). destruct E2 as (_ & _ & C2).
  destruct E3 as (_ & _ & C3). destruct E4 as (_ & _ & C4).
  destruct E5 as (_ & _ & C5). destruct E6 as (_ & _ & C6).
  destruct E7 as (_ & _ & C7). destruct E8 as (_ & _ & C8).
  unfold bathymetryCells in *.
  rewrite ?N1, ?M1, ?N2, ?M2, ?N3, ?M3, ?N4, ?M4, ?N5, ?M5, ?N6, ?M6, ?N7, ?M7
    in C2, C3, C4, C5, C6, C7, C8.
  generalize dependent (applyBoundaryBathymetry s). intros s8 C8.
  destruct (isOutflowOrWall (boundaryType s BND_LEFT));
    destruct (isOutflowOrWall (boundaryType s BND_RIGHT));
    destruct (isOutflowOrWall (boundaryType s BND_BOTTOM));
    destruct (isOutflowOrWall (boundaryType s BND_TOP));
    cbn [andb] in C1, C2, C3, C4;
    (split; [intros j Hj; split|split; [intros i Hi; split|repeat split]]);
    stage C8; stage C7; stage C6; stage C5; stage C4; stage C3; stage C2; stage C1;
    reflexivity.
Qed.

(** ** The messages of sendCopyLayers *)

Lemma connectedAmong_app s l1 l2 :
  connectedAmong s (l1 ++ l2) = connectedAmong s l1 ++ connectedAmong s l2.
Proof. apply List.filter_app. Qed.

Lemma progress_step sb s pre o e m :
  progress sb s pre o ->
  packedLayer sb s e m ->
  progress sb s (pre ++ [e])
    (bind o (fun sent =>
               if bool_decide (boundaryType s e = CONNECT)
               then sendTo s e (opposite e) m sent
               else Done sent)).
Proof.
  intros Hp Hm. rewrite <- (app_nil_r (pre ++ [e])).
  destruct o as [sent|sent]; cbn [bind].
  - destruct Hp as (Hn & Hl).
    destruct (bool_decide (boundaryType s e = CONNECT)) eqn:Hc.
    + unfold sendTo, assert.
      destruct (-1 <? neighbourIndex s e)%Z eqn:Hlt; cbn [bind progress].
      * rewrite app_nil_r, connectedAmong_app. unfold connectedAmong at 2 4.
        cbn [List.filter]. rewrite Hc. split.
        -- intros e' He'. apply in_app_iff in He' as [He'|[<-|[]]]; [auto|lia].
        -- apply Forall2_app; [exact Hl|].
           constructor; [|constructor].
           split; [reflexivity|]. split; [reflexivity|exact Hm].
      * exists (connectedAmong s pre), e, [].
        rewrite app_nil_r, connectedAmong_app. unfold connectedAmong at 2.
        cbn [List.filter]. rewrite Hc.
        split; [reflexivity|]. split; [lia|]. split; assumption.
    + cbn [progress]. rewrite app_nil_r, connectedAmong_app.
      unfold connectedAmong at 2 4. cbn [List.filter]. rewrite Hc, app_nil_r.
      split; assumption.
  - destruct Hp as (l1 & e0 & l2 & Hsplit & Hlt & Hn & Hl). cbn [progress].
    exists l1, e0, (l2 ++ connectedAmong s [e]).
    rewrite app_nil_r, connectedAmong_app, Hsplit, <- app_assoc.
    split; [reflexivity|]. split; [exact Hlt|]. split; assumption.
Qed.

(** the outcome of sendCopyLayers, edge after edge *)
Lemma sendCopyLayers_progress sb s :
  allocated s -> progress sb s edges (sendCopyLayers sb s).
Proof.
  intros Ha.
  assert (Hx : forall k, k < ny s + 2 ->
            nx s * (ny s + 2) + k <= (nx s + 2) * (ny s + 2)) by (intros; nia).
  unfold sendCopyLayers. cbv zeta.
  match goal with
  | |- progress _ _ _ (bind (bind (bind ?l ?r) ?bo) ?t) =>
      change (progress sb s ((([] ++ [BND_LEFT]) ++ [BND_RIGHT]) ++ [BND_BOTTOM]
                               ++ [BND_TOP])
                (bind (bind (bind l r) bo) t))
  end.
  rewrite app_assoc.
  apply (progress_step sb s _ _ BND_TOP).
  2:{ unfold packedLayer, gather. cbn [copyLayerOffset copyLayerLength].
      apply fillStrided_packed. }
  apply (progress_step sb s _ _ BND_BOTTOM).
  2:{ unfold packedLayer, gather. cbn [copyLayerOffset copyLayerLength].
      apply fillStrided_packed. }
  apply (progress_step sb s _ _ BND_RIGHT).
  2:{ unfold packedLayer, gather. cbn [copyLayerOffset copyLayerLength].
      apply fillContiguous_packed; [specialize (Hx (1 + ny s)); lia|exact Ha]. }
  apply (progress_step sb s [] (Done []) BND_LEFT).
  2:{ unfold packedLayer, gather. cbn [copyLayerOffset copyLayerLength].
      apply fillContiguous_packed; [nia|exact Ha]. }
  split; [intros e []|constructor].
Qed.

Lemma in_connected s e : In e (connected s) <-> boundaryType s e = CONNECT.
Proof.
  unfold connected, connectedAmong. rewrite List.filter_In, bool_decide_eq_true.
  split; [intros [_ H]; exact H|]. intros H. split; [|exact H].
  destruct e; cbn; auto.
Qed.

(** X5. sendCopyLayers completes exactly when every CONNECT edge of the block
    has a neighbour, that is an index above -1; otherwise one of its
    assertions fails. *)
Theorem sendCopyLayers_completes_iff (sendBathymetry : bool) (s : Block) :
  allocated s ->
  ((exists sent, sendCopyLayers sendBathymetry s = Done sent) <->
   (forall e, boundaryType s e = CONNECT -> (-1 < neighbourIndex s e)%Z)).
Proof.
  intros Ha. pose proof (sendCopyLayers_progress sendBathymetry s Ha) as Hp.
  destruct (sendCopyLayers sendBathymetry s) as [sent|sent]; cbn [progress] in Hp.
  - split; [|eauto]. intros _ e He. apply Hp. apply in_connected, He.
  - destruct Hp as (l1 & e & l2 & Hsplit & Hlt & _). split.
    + intros [sent' Habs]. discriminate Habs.
    + intros Hall. exfalso.
      assert (He : boundaryType s e = CONNECT).
      { apply in_connected. unfold connected. rewrite Hsplit.
        apply in_app_iff. right. left. reflexivity. }
      specialize (Hall e He). lia.
Qed.

(** X6. When sendCopyLayers completes it has sent exactly one message for
    each CONNECT edge and none for any other edge, in the order LEFT, RIGHT,
    BOTTOM, TOP; the message of an edge goes to the neighbour at that edge,
    to the entry method of the opposite side, and carries the packed copy
    layer of that edge. *)
Theorem sendCopyLayers_messages (sendBathymetry : bool) (s : Block)
    (sent : list Send) :
  allocated s ->
  sendCopyLayers sendBathymetry s = Done sent ->
  Forall2 (layerOf sendBathymetry s) (connected s) sent /\
  length sent = length (connected s) /\
  length sent <= 4.
Proof.
  intros Ha Hs. pose proof (sendCopyLayers_progress sendBathymetry s Ha) as Hp.
  rewrite Hs in Hp. destruct Hp as (_ & Hl).
  assert (Hlen : length sent = length (connected s)).
  { symmetry. eapply Forall2_length, Hl. }
  split; [exact Hl|]. split; [exact Hlen|]. rewrite Hlen.
  unfold connected, connectedAmong.
  etransitivity; [apply List.filter_length_le|]. cbn. lia.
Qed.

(** X7. When an assertion of sendCopyLayers fails, it fails at the first
    CONNECT edge, in the order LEFT, RIGHT, BOTTOM, TOP, that has no
    neighbour; the copy layers of the CONNECT edges before that edge have been
    sent by then, and nothing is sent for that edge or for an edge after
    it. *)
Theorem sendCopyLayers_aborts_at_first_missing (sendBathymetry : bool) (s : Block)
    (sent : list Send) :
  allocated s ->
  sendCopyLayers sendBathymetry s = Aborted sent ->
  exists before e after,
    connected s = before ++ e :: after /\
    (neighbourIndex s e <= -1)%Z /\
    (forall e', In e' before -> (-1 < neighbourIndex s e')%Z) /\
    Forall2 (layerOf sendBathymetry s) before sent.
Proof.
  intros Ha Hs. pose proof (sendCopyLayers_progress sendBathymetry s Ha) as Hp.
  rewrite Hs in Hp. exact Hp.
Qed.

(** ** The exchange of copy layers between two blocks *)

Lemma ghostCell_bounds s e i :
  i < copyLayerLength s (opposite e) ->
  fst (ghostCell s e i) < nx s + 2 /\ snd (ghostCell s e i) < ny s + 2.
Proof. destruct e; cbn; lia. Qed.

Lemma ghostCell_inj s e i j : ghostCell s e i = ghostCell s e j -> i = j.
Proof. destruct e; cbn; intros H; inversion H; lia. Qed.

(** a message whose tag is paired with a CONNECT edge is unpacked into the
    ghost strip of that edge *)
Lemma processCopyLayer_unpacked msg s :
  allocated s ->
  boundaryType s (opposite (copyLayer.boundary msg)) = CONNECT ->
  unpacked msg s (processCopyLayer msg s)
    (ghostCell s (opposite (copyLayer.boundary msg)))
    (copyLayerLength s (copyLayer.boundary msg)) /\
  allocated (processCopyLayer msg s).
Proof.
  intros Ha Hc. unfold processCopyLayer.
  destruct (copyLayer.boundary msg) eqn:Htag; cbn [opposite] in Hc |- *;
    rewrite Hc; cbn [bool_decide decide_rel andb];
    rewrite ?bool_decide_eq_true_2 by reflexivity;
    rewrite ?bool_decide_eq_false_2 by discriminate; cbn [andb copyLayerLength].
  - exact (unpack_loop msg (ghostCell s BND_RIGHT) (ny s) s Ha
             (fun i => ghostCell_bounds s BND_RIGHT i)
             (ghostCell_inj s BND_RIGHT)).
  - exact (unpack_loop msg (ghostCell s BND_LEFT) (ny s) s Ha
             (fun i => ghostCell_bounds s BND_LEFT i)
             (ghostCell_inj s BND_LEFT)).
  - exact (unpack_loop msg (ghostCell s BND_TOP) (nx s) s Ha
             (fun i => ghostCell_bounds s BND_TOP i)
             (ghostCell_inj s BND_TOP)).
  - exact (unpack_loop msg (ghostCell s BND_BOTTOM) (nx s) s Ha
             (fun i => ghostCell_bounds s BND_BOTTOM i)
             (ghostCell_inj s BND_BOTTOM)).
Qed.

Lemma lookup_total_map_seq (f : nat -> float) n a i :
  i < n -> map f (seq a n) !!! i = f (a + i).
Proof.
  revert a i. induction n as [|n IH]; intros a i Hi; [lia|].
  destruct i as [|i]; cbn [seq map].
  - rewrite Nat.add_0_r. reflexivity.
  - change ((f a :: map f (seq (S a) n)) !!! S i) with (map f (seq (S a) n) !!! i).
    rewrite IH by lia. f_equal. lia.
Qed.

(** sample [i] of a gathered field is the value of the interior cell it
    comes from *)
Lemma gather_cell s e f i :
  Float2D.rows f = ny s + 2 -> i < copyLayerLength s e ->
  gather s e f !!! i
  = Float2D.get f (fst (copyLayerCell s e i)) (snd (copyLayerCell s e i)).
Proof.
  intros Hr Hi. unfold gather. rewrite lookup_total_map_seq by exact Hi.
  apply copyLayerOffset_cell, Hr.
Qed.

Lemma Forall2_In_r {A B : Type} (R : A -> B -> Prop) l l' y :
  Forall2 R l l' -> In y l' -> exists x, In x l /\ R x y.
Proof.
  induction 1 as [|x0 y0 l l' Hxy _ IH]; intros Hin; [destruct Hin|].
  destruct Hin as [<-|Hin].
  - exists x0. split; [left; reflexivity|exact Hxy].
  - destruct (IH Hin) as (x & Hx & HR). exists x. split; [right; exact Hx|exact HR].
Qed.

(** X8. The exchange of a copy layer. When the block [sender] completes
    sendCopyLayers and a block [receiver] of the same size processes one of
    the messages at an edge of type CONNECT paired with the tag of the
    message, then every ghost cell of that edge of the receiver holds the
    water height and the momenta of the interior boundary cell of the sender
    across the edge, and also its bathymetry when bathymetry is sent; without
    bathymetry the bathymetry of the receiver is unchanged. *)
Theorem copy_layer_exchange (sendBathymetry : bool) (sender receiver : Block)
    (sent : list Send) (m : Send) :
  allocated sender -> allocated receiver ->
  nx receiver = nx sender -> ny receiver = ny sender ->
  sendCopyLayers sendBathymetry sender = Done sent ->
  In m sent ->
  boundaryType receiver (entry m) = CONNECT ->
  let e := copyLayer.boundary (payload m) in
  let receiver' := processCopyLayer (payload m) receiver in
  boundaryType sender e = CONNECT /\
  entry m = opposite e /\
  (forall i, i < copyLayerLength sender e ->
     let src := copyLayerCell sender e i in
     let dst := ghostCell receiver (opposite e) i in
     Float2D.get (h receiver') (fst dst) (snd dst)
     = Float2D.get (h sender) (fst src) (snd src) /\
     Float2D.get (hu receiver') (fst dst) (snd dst)
     = Float2D.get (hu sender) (fst src) (snd src) /\
     Float2D.get (hv receiver') (fst dst) (snd dst)
     = Float2D.get (hv sender) (fst src) (snd src) /\
     Float2D.get (b receiver') (fst dst) (snd dst)
     = if sendBathymetry then Float2D.get (b sender) (fst src) (snd src)
       else Float2D.get (b receiver) (fst dst) (snd dst)) /\
  (sendBathymetry = false -> b receiver' = b receiver).
Proof.
  intros Has Har N M Hs Hin Hc. cbv zeta.
  pose proof (sendCopyLayers_progress sendBathymetry sender Has) as Hp.
  rewrite Hs in Hp. destruct Hp as (_ & Hl).
  destruct (Forall2_In_r _ _ _ _ Hl Hin)
    as (e & He & _ & Hen & Htag & Hflag & Hh & Hu & Hv & Hb).
  rewrite Htag. rewrite Hen in Hc.
  split; [apply in_connected, He|]. split; [exact Hen|].
  assert (Hc' : boundaryType receiver (opposite (copyLayer.boundary (payload m)))
                = CONNECT) by (rewrite Htag; exact Hc).
  destruct (processCopyLayer_unpacked (payload m) receiver Har Hc')
    as ((_ & Hcells & _ & Hkeep) & _).
  rewrite Htag in Hcells.
  assert (Hlen : copyLayerLength receiver e = copyLayerLength sender e)
    by (destruct e; cbn; congruence).
  rewrite Hlen in Hcells. rewrite Hflag in Hcells, Hkeep.
  split; [|exact Hkeep].
  intros i Hi. destruct (Hcells i Hi) as (Gh & Gu & Gv & Gb).
  rewrite Gh, Gu, Gv, Gb, Hh, Hu, Hv, Hb.
  rewrite !gather_cell by (try exact Hi; apply Has).
  repeat split. destruct sendBathymetry; [|reflexivity].
  apply gather_cell; [apply Has|exact Hi].
Qed.

(** ** What the update and the fluxes leave alone *)

(** X9. updateUnknowns never writes a ghost cell: when it completes, the
    water height and the momenta of every cell outside the interior are those
    from before. *)
Theorem updateUnknowns_keeps_ghost_layer (dt : float) (s s' : Block) :
  allocated s ->
  updateUnknowns dt s = Done s' ->
  forall x y, x < nx s + 2 -> y < ny s + 2 -> ~ interior s x y ->
    Float2D.get (h s') x y = Float2D.get (h s) x y /\
    Float2D.get (hu s') x y = Float2D.get (hu s) x y /\
    Float2D.get (hv s') x y = Float2D.get (hv s) x y.
Proof.
  intros Ha Hd x y Hx Hy Hout.
  apply updateUnknowns_Done in Hd as (_ & ->).
  set (Inv := fun s1 : Block =>
         Float2D.allocated (h s1) (nx s + 2) (ny s + 2) /\
         Float2D.allocated (hu s1) (nx s + 2) (ny s + 2) /\
         Float2D.allocated (hv s1) (nx s + 2) (ny s + 2) /\
         Float2D.get (h s1) x y = Float2D.get (h s) x y /\
         Float2D.get (hu s1) x y = Float2D.get (hu s) x y /\
         Float2D.get (hv s1) x y = Float2D.get (hv s) x y).
  assert (HI : Inv (for_each (collapse2 1 (nx s + 1) 1 (ny s + 1))
                      (updateUnknownsCell dt) s)).
  { apply for_each_inv.
    - unfold Inv. repeat split; apply Ha.
    - intros [x0 y0] s1 Hin (Ah & Au & Av & Gh & Gu & Gv).
      apply in_collapse2 in Hin.
      assert (Hne : (x0, y0) <> (x, y)).
      { intros Heq. inversion Heq. subst. apply Hout. unfold interior. lia. }
      unfold Inv, updateUnknownsCell. cbn.
      split; [apply allocated_set, Ah|]. split; [apply allocated_set, Au|].
      split; [apply allocated_set, Av|].
      rewrite (get_set_ne (h s1) (nx s + 2) (ny s + 2)) by (assumption || lia).
      rewrite (get_set_ne (hu s1) (nx s + 2) (ny s + 2)) by (assumption || lia).
      rewrite (get_set_ne (hv s1) (nx s + 2) (ny s + 2)) by (assumption || lia).
      repeat split; assumption. }
  destruct HI as (_ & _ & _ & Gh & Gu & Gv). repeat split; assumption.
Qed.

(** X10. computeNumericalFluxes, completed or not, changes neither the water
    height, nor the momenta, nor the bathymetry, nor the geometry of the
    block: it writes the net updates and maxTimestep only. *)
Theorem computeNumericalFluxes_keeps_unknowns (s : Block) :
  let s' := state_of (computeNumericalFluxes s) in
  h s' = h s /\ hu s' = hu s /\ hv s' = hv s /\ b s' = b s /\
  nx s' = nx s /\ ny s' = ny s /\ dx s' = dx s /\ dy s' = dy s.
Proof.
  cbv zeta. rewrite computeNumericalFluxes_state.
  destruct (sweeps_frame s) as (Hh & Hu & Hv & Hb & N & M & X & Y).
  cbn [h hu hv b nx ny dx dy set_maxTimestep].
  repeat split; assumption.
Qed.

(** the net updates after computeNumericalFluxes, cell by cell: each cell
    holds the update of the edge it lies at *)
Lemma computeNumericalFluxes_net_updates s :
  allocated s ->
  let s' := state_of (computeNumericalFluxes s) in
  (forall x y, 1 <= x <= nx s -> 1 <= y <= ny s ->
     Float2D.get (hNetUpdatesLeft s') x y = hUpdateLeft (xEdge s x y) /\
     Float2D.get (huNetUpdatesLeft s') x y = huUpdateLeft (xEdge s x y) /\
     Float2D.get (hNetUpdatesRight s') x y = hUpdateRight (xEdge s (x - 1) y) /\
     Float2D.get (huNetUpdatesRight s') x y = huUpdateRight (xEdge s (x - 1) y) /\
     Float2D.get (hNetUpdatesBelow s') x y = hUpdateLeft (yEdge s x y) /\
     Float2D.get (hvNetUpdatesBelow s') x y = huUpdateLeft (yEdge s x y) /\
     Float2D.get (hNetUpdatesAbove s') x y = hUpdateRight (yEdge s x (y - 1)) /\
     Float2D.get (hvNetUpdatesAbove s') x y = huUpdateRight (yEdge s x (y - 1))).
Proof.
  intros Ha s'.
  destruct (xSweep_spec s Ha) as (Fx & _ & XL & XR & XuL & XuR).
  destruct (xSweep_other_buffers s) as (B1 & B2 & B3 & B4).
  set (s1 := fst (xSweep s)) in *.
  assert (N1 : nx s1 = nx s) by (frame_of Fx nx; exact E).
  assert (M1 : ny s1 = ny s) by (frame_of Fx ny; exact E).
  destruct (ySweep_spec s1) as (Fy & _ & YB & YA & YvB & YvA);
    try (rewrite ?B1, ?B2, ?B3, ?B4, N1, M1; apply Ha).
  destruct (ySweep_other_buffers s1) as (C1 & C2 & C3 & C4).
  rewrite N1, M1 in *.
  assert (Hs' : s' = set_maxTimestep (maxTimestep s') (fst (ySweep s1))).
  { unfold s'. rewrite computeNumericalFluxes_state. reflexivity. }
  intros x y Hx Hy. rewrite Hs'.
  cbn [hNetUpdatesLeft huNetUpdatesLeft hNetUpdatesRight huNetUpdatesRight
       hNetUpdatesBelow hvNetUpdatesBelow hNetUpdatesAbove hvNetUpdatesAbove
       set_maxTimestep].
  rewrite C1, C2, C3, C4.
  assert (Hx0 : In (x, y) (collapse2 0 (nx s + 1) 1 (ny s + 1)))
    by (apply in_collapse2; lia).
  assert (Hx1 : In (x - 1, y) (collapse2 0 (nx s + 1) 1 (ny s + 1)))
    by (apply in_collapse2; lia).
  assert (Hy0 : In (x, y) (collapse2 1 (nx s + 1) 0 (ny s + 1)))
    by (apply in_collapse2; lia).
  assert (Hy1 : In (x, y - 1) (collapse2 1 (nx s + 1) 0 (ny s + 1)))
    by (apply in_collapse2; lia).
  destruct XL as (_ & XL & _), XR as (_ & XR & _),
    XuL as (_ & XuL & _), XuR as (_ & XuR & _).
  destruct YB as (_ & YB & _), YA as (_ & YA & _),
    YvB as (_ & YvB & _), YvA as (_ & YvA & _).
  specialize (XL _ Hx0). specialize (XuL _ Hx0).
  specialize (XR _ Hx1). specialize (XuR _ Hx1).
  specialize (YB _ Hy0). specialize (YvB _ Hy0).
  specialize (YA _ Hy1). specialize (YvA _ Hy1).
  cbn [fst snd] in *.
  replace (x - 1 + 1) with x in XR, XuR by lia.
  replace (y - 1 + 1) with y in YA, YvA by lia.
  rewrite !(yEdge_frame s s1) in * by exact Fx.
  repeat split; assumption.
Qed.

Lemma computeNumericalFluxes_done_frame s s1 :
  computeNumericalFluxes s = Done s1 ->
  h s1 = h s /\ hu s1 = hu s /\ hv s1 = hv s /\
  nx s1 = nx s /\ ny s1 = ny s /\ dx s1 = dx s /\ dy s1 = dy s.
Proof.
  intros Hd. pose proof (computeNumericalFluxes_state s) as Hs.
  rewrite Hd in Hs. change (state_of (Done s1)) with s1 in Hs. rewrite Hs.
  destruct (sweeps_frame s) as (Hh & Hu & Hv & _ & N & M & X & Y).
  cbn [h hu hv nx ny dx dy set_maxTimestep].
  repeat split; assumption.
Qed.

Lemma allocated_reduceWaveSpeed v s : allocated s -> allocated (reduceWaveSpeed v s).
Proof. intros Ha. apply (allocated_ext s); try reflexivity. exact Ha. Qed.

(** X11. One time step on an interior cell. When computeNumericalFluxes
    completes, the reduction stores a time step and updateUnknowns completes,
    the cell holds its old unknowns less the scaled updates of its four
    edges: the right-going update of the edge to its left and the left-going
    one of the edge to its right, the up-going update of the edge below it
    and the down-going one of the edge above it, every edge solved on the
    unknowns and the bathymetry from before the step. *)
Theorem time_step_interior (dt v : float) (s s1 s2 : Block) :
  allocated s ->
  computeNumericalFluxes s = Done s1 ->
  updateUnknowns dt (reduceWaveSpeed v s1) = Done s2 ->
  forall x y, 1 <= x <= nx s -> 1 <= y <= ny s ->
    Float2D.get (h s2) x y
    = F32.sub (Float2D.get (h s) x y)
        (F32.add
           (F32.mul (F32.div dt (dx s))
              (F32.add (hUpdateRight (xEdge s (x - 1) y))
                       (hUpdateLeft (xEdge s x y))))
           (F32.mul (F32.div dt (dy s))
              (F32.add (hUpdateRight (yEdge s x (y - 1)))
                       (hUpdateLeft (yEdge s x y))))) /\
    Float2D.get (hu s2) x y
    = F32.sub (Float2D.get (hu s) x y)
        (F32.mul (F32.div dt (dx s))
           (F32.add (huUpdateRight (xEdge s (x - 1) y))
                    (huUpdateLeft (xEdge s x y)))) /\
    Float2D.get (hv s2) x y
    = F32.sub (Float2D.get (hv s) x y)
        (F32.mul (F32.div dt (dy s))
           (F32.add (huUpdateRight (yEdge s x (y - 1)))
                    (huUpdateLeft (yEdge s x y)))).
Proof.
  intros Ha Hflux Hupd x y Hx Hy.
  pose proof (computeNumericalFluxes_net_updates s Ha) as Hnet.
  destruct (computeNumericalFluxes_frame s Ha) as (Ha1 & _).
  destruct (computeNumericalFluxes_done_frame s s1 Hflux)
    as (Hh & Hu & Hv & N & M & X & Y).
  cbv zeta in Hnet. rewrite Hflux in Hnet, Ha1.
  change (state_of (Done s1)) with s1 in Hnet, Ha1.
  destruct (Hnet x y Hx Hy) as (E1 & E2 & E3 & E4 & E5 & E6 & E7 & E8).
  apply updateUnknowns_Done in Hupd as (_ & ->).
  pose proof (allocated_reduceWaveSpeed v s1 Ha1) as Ha2.
  destruct (updateUnknowns_loop dt (reduceWaveSpeed v s1) Ha2) as (_ & _ & Hcell).
  assert (Hin : interior (reduceWaveSpeed v s1) x y).
  { unfold interior, reduceWaveSpeed. cbn [nx ny set_maxTimestep]. lia. }
  destruct (Hcell x y Hin) as (Gh & Gu & Gv).
  unfold reduceWaveSpeed in Gh, Gu, Gv.
  cbn [h hu hv dx dy set_maxTimestep hNetUpdatesLeft huNetUpdatesLeft
       hNetUpdatesRight huNetUpdatesRight hNetUpdatesBelow hvNetUpdatesBelow
       hNetUpdatesAbove hvNetUpdatesAbove] in Gh, Gu, Gv.
  rewrite E1, E3, E5, E7, Hh, X, Y in Gh.
  rewrite E2, E4, Hu, X in Gu.
  rewrite E6, E8, Hv, Y in Gv.
  unfold reduceWaveSpeed. repeat split; assumption.
Qed.

Lemma F32_sub_diag (x : float) : isfinite x = true -> F32.sub x x = F32.zero.
Proof.
  destruct x as [[|]| | |sx m e]; try discriminate; intros _; try reflexivity.
  unfold F32.sub, SFsub. cbv zeta. rewrite Z.sub_diag. reflexivity.
Qed.

Lemma F32_sub_diag_nan (x : float) : isfinite x = false -> F32.sub x x = S754_nan.
Proof. destruct x as [[|]|[|]| |sx m e]; try discriminate; reflexivity. Qed.

(** the assertion of updateUnknowns on the time step that reduceWaveSpeed has
    just stored *)
Lemma timestepAgrees_reduced (dt : float) (s : Block) :
  timestepAgrees dt (reduceWaveSpeed dt s) = isfinite dt.
Proof.
  unfold timestepAgrees.
  change (maxTimestep (reduceWaveSpeed dt s)) with dt.
  destruct (isfinite dt) eqn:Hf.
  - rewrite F32_sub_diag by exact Hf. reflexivity.
  - rewrite F32_sub_diag_nan by exact Hf. reflexivity.
Qed.

(** X12. The time step that reduceWaveSpeed stores passes the assertion of
    updateUnknowns exactly when it is finite: with an infinite step or NaN
    the difference is NaN, the comparison fails and updateUnknowns aborts
    without a write. *)
Theorem reduceWaveSpeed_then_updateUnknowns (dt : float) (s : Block) :
  updateUnknowns dt (reduceWaveSpeed dt s)
  = if isfinite dt
    then Done (for_each (collapse2 1 (nx s + 1) 1 (ny s + 1))
                 (updateUnknownsCell dt) (reduceWaveSpeed dt s))
    else Aborted (reduceWaveSpeed dt s).
Proof.
  unfold updateUnknowns. rewrite timestepAgrees_reduced.
  destruct (isfinite dt); reflexivity.
Qed.

(** ** The constructor *)

Lemma constructor_other {T : Type} (p : Block -> T)
    g uninit slv scenario cx cy csx csy oX oY posX posY bnd :
  (forall v s, p (set_b v s) = p s) ->
  (forall v s, p (set_h v s) = p s) ->
  (forall v s, p (set_hu v s) = p s) ->
  (forall v s, p (set_hv v s) = p s) ->
  (forall v s, p (set_boundaryType v s) = p s) ->
  (forall v s, p (set_writer v s) = p s) ->
  forall s0,
    SWE_DimensionalSplittingCharm_new g uninit slv scenario cx cy csx csy oX oY
      posX posY bnd
    = writeTimestep (initScenario scenario bnd s0) ->
    p (SWE_DimensionalSplittingCharm_new g uninit slv scenario cx cy csx csy oX oY
         posX posY bnd)
    = p s0.
Proof.
  intros Pb Ph Pu Pv Pt Pw s0 ->. unfold writeTimestep. rewrite Pw.
  apply initScenario_other; assumption.
Qed.

Lemma constructor_geometry g uninit slv scenario cx cy csx csy oX oY posX posY bnd :
  let s :=
    SWE_DimensionalSplittingCharm_new g uninit slv scenario cx cy csx csy oX oY
      posX posY bnd in
  nx s = cx /\ ny s = cy /\ dx s = csx /\ dy s = csy /\
  originX s = oX /\ originY s = oY /\ solver s = slv /\
  neighbourIndex s = neighbours g posX posY.
Proof.
  cbv zeta.
  repeat split;
    (erewrite constructor_other;
     [|reflexivity|reflexivity|reflexivity|reflexivity|reflexivity|reflexivity
      |reflexivity]; reflexivity).
Qed.

(** ** The time step without waves *)

Lemma maxReduce_no_waves (speed : nat * nat -> float) l :
  (forall xy, In xy l -> F32.ltb F32.zero (speed xy) = false) ->
  maxReduce speed l F32.zero = F32.zero.
Proof.
  unfold maxReduce, for_each. induction l as [|xy l IH]; intros H; [reflexivity|].
  cbn [fold_left]. unfold std_max at 2. rewrite (H xy) by (left; reflexivity).
  apply IH. intros xy' Hin. apply H. right. exact Hin.
Qed.

(** the maximal wave speeds of the two sweeps are the maxima over the edges *)
Lemma sweeps_wave_speeds s :
  allocated s ->
  snd (xSweep s)
  = maxReduce (fun xy => waveSpeed (xEdge s (fst xy) (snd xy)))
      (collapse2 0 (nx s + 1) 1 (ny s + 1)) F32.zero /\
  snd (ySweep (fst (xSweep s)))
  = maxReduce (fun xy => waveSpeed (yEdge s (fst xy) (snd xy)))
      (collapse2 1 (nx s + 1) 0 (ny s + 1)) F32.zero.
Proof.
  intros Ha.
  destruct (xSweep_spec s Ha) as (Fx & Wx & _).
  destruct (xSweep_other_buffers s) as (B1 & B2 & B3 & B4).
  set (s1 := fst (xSweep s)) in *.
  assert (N1 : nx s1 = nx s) by (frame_of Fx nx; exact E).
  assert (M1 : ny s1 = ny s) by (frame_of Fx ny; exact E).
  destruct (ySweep_spec s1) as (_ & Wy & _);
    try (rewrite ?B1, ?B2, ?B3, ?B4, N1, M1; apply Ha).
  rewrite N1, M1 in Wy.
  split; [exact Wx|]. rewrite Wy. apply maxReduce_ext. intros xy.
  rewrite (yEdge_frame s s1) by exact Fx. reflexivity.
Qed.

(** X13. Without waves there is no time step: when no edge of the two sweeps
    reports a wave speed above zero and the cells have a positive finite
    size, both maximal wave speeds are zero, the quotients are infinite,
    maxTimestep becomes +infinity and the assertion of the CFL condition
    fails. *)
Theorem computeNumericalFluxes_without_waves (s : Block) :
  allocated s ->
  (forall x y, x <= nx s -> 1 <= y <= ny s ->
     F32.ltb F32.zero (waveSpeed (xEdge s x y)) = false) ->
  (forall x y, 1 <= x <= nx s -> y <= ny s ->
     F32.ltb F32.zero (waveSpeed (yEdge s x y)) = false) ->
  F32.ltb F32.zero (dx s) = true -> isfinite (dx s) = true ->
  F32.ltb F32.zero (dy s) = true -> isfinite (dy s) = true ->
  exists s', computeNumericalFluxes s = Aborted s' /\
             maxTimestep s' = S754_infinity false.
Proof.
  intros Ha Hxe Hye Hdx Fdx Hdy Fdy.
  destruct (sweeps_wave_speeds s Ha) as (Wx & Wy).
  rewrite maxReduce_no_waves in Wx, Wy.
  2:{ intros [x y] Hin. apply in_collapse2 in Hin. apply Hye; cbn [fst snd]; lia. }
  2:{ intros [x y] Hin. apply in_collapse2 in Hin. apply Hxe; cbn [fst snd]; lia. }
  destruct (sweeps_frame s) as (_ & _ & _ & _ & _ & _ & X & Y).
  unfold computeNumericalFluxes. cbv zeta.
  cbn [maxTimestep dx dy set_maxTimestep]. rewrite Wx, Wy, X, Y.
  destruct (dx s) as [[|]|[|]| |[|] mx ex]; try discriminate.
  destruct (dy s) as [[|]|[|]| |[|] my ey]; try discriminate.
  eexists. split; reflexivity.
Qed.

(** ** The neighbours of a block *)

Lemma int_wrap_id (z : Z) :
  (-2147483648 <= z <= INT_MAX)%Z -> int_wrap z = z.
Proof.
  unfold int_wrap, INT_MAX. intros Hz.
  rewrite Z.mod_small by lia. lia.
Qed.

Ltac unwrap :=
  repeat match goal with
    | |- context [int_wrap ?z] =>
        rewrite (int_wrap_id z) by (unfold INT_MAX; first [lia|nia])
    end.

Ltac split_tests :=
  repeat match goal with
    | |- context [(?a <? ?c)%Z] => destruct (Z.ltb_spec a c)
    | |- context [(?a <=? ?c)%Z] => destruct (Z.leb_spec a c)
    end.

(** the neighbour arithmetic on a lattice of at most INT_MAX blocks: no sum
    and no difference leaves the range of [int] *)
Lemma neighbours_lattice (g : Launcher) (posX posY : Z) (e : Boundary) :
  thisIndex g = chareAt g posX posY ->
  onLattice g posX posY = true ->
  (blockCountX g * blockCountY g <= INT_MAX)%Z ->
  let p := across e posX posY in
  neighbours g posX posY e
  = (if onLattice g (fst p) (snd p) then chareAt g (fst p) (snd p) else (-1)%Z) /\
  (onLattice g (fst p) (snd p) = true ->
   (0 <= neighbours g posX posY e < blockCountX g * blockCountY g)%Z /\
   neighbours (seenFrom (neighbours g posX posY e) g) (fst p) (snd p) (opposite e)
   = thisIndex g).
Proof.
  intros Hidx Hon Hmax. cbv zeta.
  unfold onLattice, chareAt in *.
  apply andb_prop in Hon as (Hon & H4). apply andb_prop in Hon as (Hon & H3).
  apply andb_prop in Hon as (H1 & H2).
  apply Z.leb_le in H1, H3. apply Z.ltb_lt in H2, H4.
  unfold INT_MAX in Hmax.
  assert (HP : (0 <= posX * blockCountY g)%Z /\
               (posX * blockCountY g + blockCountY g
                <= blockCountX g * blockCountY g)%Z) by nia.
  destruct HP as (HP0 & HP1).
  assert (HX : (blockCountX g <= blockCountX g * blockCountY g)%Z) by nia.
  assert (HY : (blockCountY g <= blockCountX g * blockCountY g)%Z) by nia.
  destruct e; cbn [across fst snd neighbours opposite seenFrom thisIndex
                   blockCountX blockCountY];
    rewrite Hidx;
    rewrite ?(int_wrap_id (blockCountX g - 1)),
      ?(int_wrap_id (blockCountY g - 1)) by (unfold INT_MAX; lia).
  all: split_tests; cbn [andb]; try lia; unwrap.
  all: split; [first [lia|nia]|].
  all: try (intros Habs; discriminate Habs).
  all: intros _; split; [first [lia|nia]|].
  all: split_tests; unwrap; try lia.
Qed.

(** X14. The neighbours that the constructor stores. For a block on a
    lattice of at most INT_MAX blocks whose index follows the numbering by
    columns, the neighbour at an edge is -1 when the position across the edge
    is off the lattice; otherwise it is the index of the block at that
    position, a valid index, and that block, constructed at its position, has
    this block as its neighbour at the opposite edge. *)
Theorem constructor_neighbours (g : Launcher) (uninit : float) (slv : Hybrid)
    (scenario : SWE_Scenario) (cx cy : nat) (csx csy oX oY : float)
    (posX posY : Z) (bnd : Boundary -> BoundaryType) (e : Boundary) :
  thisIndex g = chareAt g posX posY ->
  onLattice g posX posY = true ->
  (blockCountX g * blockCountY g <= INT_MAX)%Z ->
  let s :=
    SWE_DimensionalSplittingCharm_new g uninit slv scenario cx cy csx csy oX oY
      posX posY bnd in
  let p := across e posX posY in
  neighbourIndex s e
  = (if onLattice g (fst p) (snd p) then chareAt g (fst p) (snd p) else (-1)%Z) /\
  (onLattice g (fst p) (snd p) = true ->
   (0 <= neighbourIndex s e < blockCountX g * blockCountY g)%Z /\
   neighbourIndex
     (SWE_DimensionalSplittingCharm_new (seenFrom (neighbourIndex s e) g) uninit slv
        scenario cx cy csx csy oX oY (fst p) (snd p) bnd) (opposite e)
   = thisIndex g).
Proof.
  intros Hidx Hon Hmax. cbv zeta.
  destruct (constructor_geometry g uninit slv scenario cx cy csx csy oX oY posX posY
              bnd) as (_ & _ & _ & _ & _ & _ & _ & ->).
  match goal with
  | |- context [neighbourIndex (SWE_DimensionalSplittingCharm_new ?g' _ _ _ _ _ _ _
                                  _ _ ?x ?y _)] =>
      destruct (constructor_geometry g' uninit slv scenario cx cy csx csy oX oY x y
                  bnd) as (_ & _ & _ & _ & _ & _ & _ & ->)
  end.
  exact (neighbours_lattice g posX posY e Hidx Hon Hmax).
Qed.

(** ** The scenario *)

Lemma initScenarioCell_geometry scenario ij s :
  let s' := initScenarioCell scenario ij s in
  nx s' = nx s /\ ny s' = ny s /\ dx s' = dx s /\ dy s' = dy s /\
  originX s' = originX s /\ originY s' = originY s.
Proof. repeat split. Qed.

(** the loop of initScenario over the pairs [l] of a row and a column: a
    visited cell holds the scenario values of its centre, any other cell is
    as before *)
Lemma initScenario_loop scenario l : forall s,
  allocated s ->
  (forall ij, In ij l -> snd ij < nx s + 2 /\ fst ij < ny s + 2) ->
  let s' := for_each l (initScenarioCell scenario) s in
  allocated s' /\
  nx s' = nx s /\ ny s' = ny s /\ dx s' = dx s /\ dy s' = dy s /\
  originX s' = originX s /\ originY s' = originY s /\
  forall x y, y < ny s + 2 ->
    (In (y, x) l -> cellOf s' x y = scenarioCell scenario s x y) /\
    (~ In (y, x) l -> cellOf s' x y = cellOf s x y).
Proof.
  unfold for_each. induction l as [|[i j] l IH]; intros s Ha Hl; cbn [fold_left].
  - repeat (split; [reflexivity || exact Ha|]).
    intros x y _. split; [intros []|reflexivity].
  - pose proof (allocated_initScenarioCell scenario (i, j) s Ha) as Ha1.
    destruct (Hl (i, j) (or_introl eq_refl)) as (Hj & Hi). cbn [fst snd] in Hj, Hi.
    assert (Hhere : cellOf (initScenarioCell scenario (i, j) s) j i
                    = scenarioCell scenario s j i).
    { unfold cellOf, scenarioCell, initScenarioCell. cbv zeta.
      cbn [b h hu hv set_b set_h set_hu set_hv fst snd originX originY dx dy nx ny].
      rewrite !(get_set_eq _ (nx s + 2) (ny s + 2)) by (try lia; apply Ha).
      reflexivity. }
    assert (Hother : forall x y, y < ny s + 2 -> (j, i) <> (x, y) ->
              cellOf (initScenarioCell scenario (i, j) s) x y = cellOf s x y).
    { intros x y Hy Hne. unfold cellOf, initScenarioCell. cbv zeta.
      cbn [b h hu hv set_b set_h set_hu set_hv fst snd originX originY dx dy nx ny].
      rewrite !(get_set_ne _ (nx s + 2) (ny s + 2)) by (try lia; try apply Ha; exact Hne).
      reflexivity. }
    destruct (IH (initScenarioCell scenario (i, j) s) Ha1)
      as (A & N & M & X & Y & OX & OY & Hcells).
    { intros ij Hin. apply Hl. right. exact Hin. }
    cbn [nx ny dx dy originX originY] in N, M, X, Y, OX, OY.
    repeat (split; [assumption|]).
    intros x y Hy. destruct (Hcells x y Hy) as (Hin & Hout). split.
    + intros [Heq|Hin'].
      * inversion Heq; subst i j.
        destruct (in_dec edge_eq_dec (y, x) l) as [Hd|Hd].
        -- rewrite (Hin Hd). reflexivity.
        -- rewrite (Hout Hd). exact Hhere.
      * rewrite (Hin Hin'). reflexivity.
    + intros Hnot. rewrite Hout by (intros Hd; apply Hnot; right; exact Hd).
      apply Hother; [exact Hy|]. intros Heq. apply Hnot. left.
      inversion Heq. reflexivity.
Qed.

Lemma applyBoundaryConditions_interior_cell s x y :
  allocated s -> interior s x y ->
  cellOf (applyBoundaryConditions s) x y = cellOf s x y /\
  interior (applyBoundaryConditions s) x y.
Proof.
  intros Ha Hi.
  destruct (applyBoundaryConditions_cells s Ha) as (Hint & _);
    [destruct Hi; lia|destruct Hi; lia|].
  destruct (applyBoundaryConditions_frame s Ha) as (_ & F & Hb).
  specialize (Hint x y Hi).
  pose proof (sameButUnknowns_nx _ _ F) as N.
  pose proof (sameButUnknowns_ny _ _ F) as M.
  revert Hint Hb N M. generalize (applyBoundaryConditions s). intros s' Hint Hb N M.
  unfold unknownsAt in Hint. injection Hint as Eh Eu Ev.
  split; [|unfold interior in *; lia].
  unfold cellOf. rewrite Hb, Eh, Eu, Ev. reflexivity.
Qed.

Lemma applyBoundaryBathymetry_interior_cell s x y :
  allocated s -> interior s x y ->
  cellOf (applyBoundaryBathymetry s) x y = cellOf s x y.
Proof.
  intros Ha Hi. destruct (applyBoundaryBathymetry_stage s Ha) as (F & _ & I).
  specialize (I x y Hi).
  revert F I. generalize (applyBoundaryBathymetry s). intros s' F I.
  frame_of F h. frame_of F hu. frame_of F hv.
  unfold cellOf. rewrite I, E, E0, E1. reflexivity.
Qed.

Lemma ghost_passes_boundaryType s :
  allocated s ->
  boundaryType (applyBoundaryBathymetry (applyBoundaryConditions s)) = boundaryType s.
Proof.
  intros Ha. destruct (applyBoundaryConditions_frame s Ha) as (A & F & _).
  pose proof (applyBoundaryBathymetry_stage _ A) as (F' & _).
  rewrite (sameButBathymetry_boundaryType _ _ F').
  apply (sameButUnknowns_boundaryType _ _ F).
Qed.

Lemma initScenario_boundaryType scenario boundaries s :
  allocated s -> boundaryType (initScenario scenario boundaries s) = boundaries.
Proof.
  intros Ha. unfold initScenario. cbv zeta.
  assert (A0 : allocated (for_each (collapse2 1 (ny s + 1) 1 (nx s + 1))
                            (initScenarioCell scenario) s)).
  { apply for_each_inv; [exact Ha|].
    intros ij s1 _. apply allocated_initScenarioCell. }
  revert A0. generalize (for_each (collapse2 1 (ny s + 1) 1 (nx s + 1))
                           (initScenarioCell scenario) s).
  intros s0 A0.
  rewrite ghost_passes_boundaryType
    by (apply allocated_set_boundaryType; exact A0).
  reflexivity.
Qed.

(** X15. initScenario sets the boundary types to those given and fills every
    interior cell with the values of the scenario at the centre of the cell:
    the bathymetry, the water height, and as momenta the velocities
    multiplied, in single precision, by that water height. The centre of the
    cell in column [x] and row [y] is [origin + (index - 0.5) * size],
    computed in double precision. *)
Theorem initScenario_interior (scenario : SWE_Scenario)
    (boundaries : Boundary -> BoundaryType) (s : Block) :
  allocated s ->
  let s' := initScenario scenario boundaries s in
  boundaryType s' = boundaries /\
  forall x y, 1 <= x <= nx s -> 1 <= y <= ny s ->
    cellOf s' x y = scenarioCell scenario s x y.
Proof.
  intros Ha. cbv zeta. unfold initScenario. cbv zeta.
  destruct (initScenario_loop scenario (collapse2 1 (ny s + 1) 1 (nx s + 1)) s Ha)
    as (A0 & N0 & M0 & _ & _ & _ & _ & Hcells).
  { intros ij Hin. apply in_collapse2_pair in Hin. lia. }
  assert (Hvisited : forall x y, 1 <= x <= nx s -> 1 <= y <= ny s ->
            In (y, x) (collapse2 1 (ny s + 1) 1 (nx s + 1)))
    by (intros; apply in_collapse2; lia).
  revert A0 N0 M0 Hcells Hvisited.
  generalize (collapse2 1 (ny s + 1) 1 (nx s + 1)). intros l.
  generalize (for_each l (initScenarioCell scenario) s).
  intros s0 A0 N0 M0 Hcells Hvisited.
  pose proof (allocated_set_boundaryType boundaries s0 A0) as A1.
  split.
  - rewrite ghost_passes_boundaryType by exact A1. reflexivity.
  - intros x y Hx Hy.
    assert (Hi1 : interior (set_boundaryType boundaries s0) x y).
    { unfold interior. cbn [nx ny set_boundaryType]. lia. }
    destruct (applyBoundaryConditions_interior_cell _ x y A1 Hi1) as (E2 & Hi2).
    destruct (applyBoundaryConditions_frame _ A1) as (A2 & _).
    rewrite (applyBoundaryBathymetry_interior_cell _ x y A2 Hi2), E2.
    destruct (Hcells x y ltac:(lia)) as (Hin & _).
    rewrite <- (Hin (Hvisited x y Hx Hy)). reflexivity.
Qed.

(** ** What a run never changes *)

Lemma processCopyLayer_other {T : Type} (p : Block -> T) :
  (forall msg i xg yg s, p (unpackCell msg i xg yg s) = p s) ->
  forall msg s, p (processCopyLayer msg s) = p s.
Proof.
  intros Hp msg s. unfold processCopyLayer.
  repeat match goal with
    | |- context [if ?c then _ else _] => destruct c
    end;
    try reflexivity; apply (for_each_const p); intros; apply Hp.
Qed.

Lemma unpackCell_setting msg i xg yg s :
  setting (unpackCell msg i xg yg s) = setting s.
Proof. unfold unpackCell. destruct (copyLayer.containsBathymetry msg); reflexivity. Qed.

Lemma computeNumericalFluxes_setting s :
  setting (state_of (computeNumericalFluxes s)) = setting s.
Proof.
  rewrite computeNumericalFluxes_state.
  change (setting (set_maxTimestep ?v ?s1)) with (setting s1).
  unfold xSweep, ySweep.
  rewrite (for_each_const (fun st => setting (fst st))) by reflexivity.
  cbn [fst].
  apply (for_each_const (fun st => setting (fst st))). reflexivity.
Qed.

Lemma operation_setting s s' : operation s s' -> setting s' = setting s.
Proof.
  intros Hop. destruct Hop.
  - reflexivity.
  - apply (applyBoundaryBathymetry_other setting). reflexivity.
  - apply (applyBoundaryConditions_other setting). reflexivity.
  - apply (processCopyLayer_other setting). apply unpackCell_setting.
  - pose proof (computeNumericalFluxes_setting s) as E.
    rewrite H in E. exact E.
  - reflexivity.
  - apply updateUnknowns_Done in H as (_ & ->).
    apply (for_each_const setting). reflexivity.
  - reflexivity.
  - reflexivity.
  - reflexivity.
Qed.

Lemma run_setting s s' : run s s' -> setting s' = setting s.
Proof.
  induction 1 as [s|s1 s2 s3 Hop _ IH]; [reflexivity|].
  rewrite IH. apply operation_setting, Hop.
Qed.

(** X16. No operation of a run changes the setting of a block: in every state
    that a run reaches from a constructed block all the buffers are still
    allocated for the size given to the constructor, and the cell sizes, the
    neighbours and the checkpoint instants are those that the constructor
    has set. *)
Theorem run_keeps_setting (g : Launcher) (uninit : float) (slv : Hybrid)
    (scenario : SWE_Scenario) (cx cy : nat) (csx csy oX oY : float)
    (posX posY : Z) (bnd : Boundary -> BoundaryType) (s' : Block) :
  run (SWE_DimensionalSplittingCharm_new g uninit slv scenario cx cy csx csy oX oY
         posX posY bnd) s' ->
  allocated s' /\
  nx s' = cx /\ ny s' = cy /\ dx s' = csx /\ dy s' = csy /\
  neighbourIndex s' = neighbours g posX posY /\
  checkpointInstantOfTime s'
  = checkpointSchedule (simulationDuration g) (checkpointCount g).
Proof.
  intros Hrun.
  pose proof (constructor_allocated g uninit slv scenario cx cy csx csy oX oY posX
                posY bnd) as Ha.
  destruct (constructor_geometry g uninit slv scenario cx cy csx csy oX oY posX posY
              bnd) as (N & M & X & Y & _ & _ & _ & Hn).
  destruct (constructor_fields g uninit slv scenario cx cy csx csy oX oY posX posY
              bnd) as (Hc & _).
  pose proof (run_setting _ _ Hrun) as Hs.
  destruct (run_preserves _ _ Hrun Ha) as (Ha' & _).
  revert Hs N M X Y Hn Hc.
  generalize (SWE_DimensionalSplittingCharm_new g uninit slv scenario cx cy csx csy
                oX oY posX posY bnd).
  intros s0 Hs N M X Y Hn Hc. unfold setting in Hs.
  injection Hs as E1 E2 E3 E4 _ _ _ E5 E6.
  split; [exact Ha'|]. repeat split; congruence.
Qed.

(** ** Messages in any order *)

Lemma stripIndex_Some s e x y i :
  stripIndex s e x y = Some i ->
  i < copyLayerLength s (opposite e) /\ ghostCell s e i = (x, y).
Proof.
  destruct e; cbn [stripIndex copyLayerLength opposite ghostCell];
    match goal with |- context [if ?c then _ else _] => destruct c eqn:Hc end;
    try discriminate; intros [= <-];
    apply andb_prop in Hc as (Hc & H3); apply andb_prop in Hc as (H1 & H2);
    apply Nat.eqb_eq in H1; apply Nat.leb_le in H2, H3;
    (split; [lia|f_equal; lia]).
Qed.

Lemma stripIndex_None s e x y :
  stripIndex s e x y = None ->
  forall i, i < copyLayerLength s (opposite e) -> ghostCell s e i <> (x, y).
Proof.
  destruct e; cbn [stripIndex copyLayerLength opposite ghostCell];
    match goal with |- context [if ?c then _ else _] => destruct c eqn:Hc end;
    try discriminate; intros _ i Hi Heq; inversion Heq; subst;
    apply Bool.not_true_iff_false in Hc; apply Hc;
    rewrite !andb_true_iff, Nat.eqb_eq, !Nat.leb_le; lia.
Qed.

Lemma stripIndex_disjoint s e e' x y i :
  e <> e' -> stripIndex s e x y = Some i -> stripIndex s e' x y = None.
Proof.
  intros Hne Hs. destruct (stripIndex s e' x y) as [j|] eqn:Hs'; [|reflexivity].
  exfalso. apply stripIndex_Some in Hs as (Hi & Hc), Hs' as (Hj & Hc').
  destruct e, e'; try (apply Hne; reflexivity);
    cbn [ghostCell copyLayerLength opposite] in *;
    inversion Hc; inversion Hc'; lia.
Qed.

Lemma copyLayerLength_opposite s e :
  copyLayerLength s (opposite e) = copyLayerLength s e.
Proof. destruct e; reflexivity. Qed.

Lemma opposite_involutive e : opposite (opposite e) = e.
Proof. destruct e; reflexivity. Qed.

Lemma opposite_inj e e' : opposite e = opposite e' -> e = e'.
Proof. destruct e, e'; cbn; congruence. Qed.

(** a message that no CONNECT edge is paired with leaves the block as it is *)
Lemma processCopyLayer_not_paired msg s :
  boundaryType s (opposite (copyLayer.boundary msg)) <> CONNECT ->
  processCopyLayer msg s = s.
Proof.
  intros Hc. unfold processCopyLayer.
  destruct (copyLayer.boundary msg); cbn [opposite] in Hc;
    cbn [bool_decide decide_rel andb];
    rewrite ?bool_decide_eq_true_2 by reflexivity;
    rewrite ?bool_decide_eq_false_2 by discriminate;
    rewrite (bool_decide_eq_false_2 _ Hc); reflexivity.
Qed.

(** the block after a paired message, cell by cell *)
Lemma processCopyLayer_received msg s :
  allocated s ->
  boundaryType s (opposite (copyLayer.boundary msg)) = CONNECT ->
  let s' := processCopyLayer msg s in
  allocated s' /\ sameButUnknowns s s' /\
  forall x y, y < ny s + 2 -> cellOf s' x y = received msg s x y.
Proof.
  intros Ha Hc.
  destruct (processCopyLayer_unpacked msg s Ha Hc) as ((F & Hw & Hk & _) & Ha').
  cbv zeta. split; [exact Ha'|]. split; [exact F|].
  intros x y Hy. unfold received.
  destruct (stripIndex s (opposite (copyLayer.boundary msg)) x y) as [i|] eqn:Hs.
  - apply stripIndex_Some in Hs as (Hi & Hcell).
    rewrite opposite_involutive in Hi.
    destruct (Hw i Hi) as (Gh & Gu & Gv & Gb). rewrite Hcell in Gh, Gu, Gv, Gb.
    cbn [fst snd] in Gh, Gu, Gv, Gb.
    unfold cellOf. rewrite Gh, Gu, Gv, Gb. reflexivity.
  - pose proof (stripIndex_None _ _ _ _ Hs) as Hnone.
    rewrite opposite_involutive in Hnone.
    destruct (Hk x y Hy Hnone) as (Gh & Gu & Gv & Gb).
    unfold cellOf. rewrite Gh, Gu, Gv, Gb. reflexivity.
Qed.

Lemma sameButUnknowns_join s s1 s2 :
  sameButUnknowns s s1 -> sameButUnknowns s s2 ->
  h s1 = h s2 -> hu s1 = hu s2 -> hv s1 = hv s2 -> b s1 = b s2 -> s1 = s2.
Proof.
  unfold sameButUnknowns. destruct s, s1, s2. cbn.
  intros H1 H2 -> -> -> ->. injection H1. injection H2. intros. subst.
  reflexivity.
Qed.

Lemma cellOf_ext s1 s2 :
  allocated s1 -> allocated s2 -> nx s2 = nx s1 -> ny s2 = ny s1 ->
  (forall x y, x < nx s1 + 2 -> y < ny s1 + 2 -> cellOf s1 x y = cellOf s2 x y) ->
  h s1 = h s2 /\ hu s1 = hu s2 /\ hv s1 = hv s2 /\ b s1 = b s2.
Proof.
  intros A1 A2 N M Hc.
  destruct A2 as [Ah Au Av Ab _ _ _ _ _ _ _ _]. rewrite N, M in Ah, Au, Av, Ab.
  repeat split;
    (eapply Float2D_ext; [apply A1|eassumption|]);
    intros x y Hx Hy; specialize (Hc x y Hx Hy); unfold cellOf in Hc;
    injection Hc; auto.
Qed.

Lemma received_swap m1 m2 s s1 s2 x y :
  copyLayer.boundary m1 <> copyLayer.boundary m2 ->
  nx s1 = nx s -> ny s1 = ny s -> nx s2 = nx s -> ny s2 = ny s ->
  cellOf s1 x y = received m1 s x y ->
  cellOf s2 x y = received m2 s x y ->
  received m1 s2 x y = received m2 s1 x y.
Proof.
  intros Hne N1 M1 N2 M2 C1 C2.
  assert (Hne' : opposite (copyLayer.boundary m1) <> opposite (copyLayer.boundary m2))
    by (intros Heq; apply Hne, opposite_inj, Heq).
  assert (S1 : forall e, stripIndex s1 e x y = stripIndex s e x y)
    by (intros e; unfold stripIndex; rewrite N1, M1; reflexivity).
  assert (S2 : forall e, stripIndex s2 e x y = stripIndex s e x y)
    by (intros e; unfold stripIndex; rewrite N2, M2; reflexivity).
  unfold received in *. rewrite S1, S2.
  destruct (stripIndex s (opposite (copyLayer.boundary m1)) x y) as [i|] eqn:E1.
  - rewrite (stripIndex_disjoint s _ _ x y i Hne' E1) in C2 |- *.
    rewrite C1. unfold cellOf in C2. injection C2 as Eb _ _ _. rewrite Eb.
    reflexivity.
  - destruct (stripIndex s (opposite (copyLayer.boundary m2)) x y) as [j|] eqn:E2.
    + rewrite C2. unfold cellOf in C1. injection C1 as Eb _ _ _. rewrite Eb.
      reflexivity.
    + rewrite C1, C2. reflexivity.
Qed.

(** X17. Copy layers of different edges can be processed in either order:
    the two messages are unpacked into ghost strips that do not meet, so the
    block after both is the same block. *)
Theorem processCopyLayer_commutes (m1 m2 : copyLayer) (s : Block) :
  allocated s ->
  copyLayer.boundary m1 <> copyLayer.boundary m2 ->
  processCopyLayer m1 (processCopyLayer m2 s)
  = processCopyLayer m2 (processCopyLayer m1 s).
Proof.
  intros Ha Hne.
  destruct (processCopyLayer_frame m1 s Ha) as (A1 & F1 & _).
  destruct (processCopyLayer_frame m2 s Ha) as (A2 & F2 & _).
  pose proof (sameButUnknowns_boundaryType _ _ F1) as B1.
  pose proof (sameButUnknowns_boundaryType _ _ F2) as B2.
  pose proof (sameButUnknowns_nx _ _ F1) as N1.
  pose proof (sameButUnknowns_ny _ _ F1) as M1.
  pose proof (sameButUnknowns_nx _ _ F2) as N2.
  pose proof (sameButUnknowns_ny _ _ F2) as M2.
  destruct (decide (boundaryType s (opposite (copyLayer.boundary m1)) = CONNECT))
    as [C1|C1].
  2:{ rewrite (processCopyLayer_not_paired m1 s) by exact C1.
      apply processCopyLayer_not_paired. rewrite B2. exact C1. }
  destruct (decide (boundaryType s (opposite (copyLayer.boundary m2)) = CONNECT))
    as [C2|C2].
  2:{ rewrite (processCopyLayer_not_paired m2 s) by exact C2.
      symmetry. apply processCopyLayer_not_paired. rewrite B1. exact C2. }
  destruct (processCopyLayer_received m1 s Ha C1) as (_ & _ & R1).
  destruct (processCopyLayer_received m2 s Ha C2) as (_ & _ & R2).
  assert (C12 : boundaryType (processCopyLayer m2 s)
                  (opposite (copyLayer.boundary m1)) = CONNECT)
    by (rewrite B2; exact C1).
  assert (C21 : boundaryType (processCopyLayer m1 s)
                  (opposite (copyLayer.boundary m2)) = CONNECT)
    by (rewrite B1; exact C2).
  destruct (processCopyLayer_received m1 _ A2 C12) as (A12 & F12 & R12).
  destruct (processCopyLayer_received m2 _ A1 C21) as (A21 & F21 & R21).
  revert A12 F12 R12 A21 F21 R21.
  generalize (processCopyLayer m1 (processCopyLayer m2 s)).
  generalize (processCopyLayer m2 (processCopyLayer m1 s)).
  revert A1 F1 B1 N1 M1 R1 C21 A2 F2 B2 N2 M2 R2 C12.
  generalize (processCopyLayer m1 s). generalize (processCopyLayer m2 s).
  intros s2 s1 A1 F1 B1 N1 M1 R1 C21 A2 F2 B2 N2 M2 R2 C12
    s21 s12 A12 F12 R12 A21 F21 R21.
  pose proof (sameButUnknowns_trans _ _ _ F2 F12) as G12.
  pose proof (sameButUnknowns_trans _ _ _ F1 F21) as G21.
  pose proof (sameButUnknowns_nx _ _ G12) as N12.
  pose proof (sameButUnknowns_ny _ _ G12) as M12.
  pose proof (sameButUnknowns_nx _ _ G21) as N21.
  pose proof (sameButUnknowns_ny _ _ G21) as M21.
  destruct (cellOf_ext s12 s21 A12 A21) as (Eh & Eu & Ev & Eb); [congruence|congruence| |].
  - intros x y Hx Hy. rewrite R12, R21 by lia.
    apply (received_swap m1 m2 s s1 s2); try assumption.
    + apply R1. lia.
    + apply R2. lia.
  - apply (sameButUnknowns_join s); assumption.
Qed.

(** ** Facts for the sample data *)

Lemma sendCopyLayers_with_neighbours sb s :
  allocated s ->
  (forall e, boundaryType s e = CONNECT -> (-1 < neighbourIndex s e)%Z) ->
  exists sent, sendCopyLayers sb s = Done sent.
Proof.
  intros Ha Hall. pose proof (sendCopyLayers_progress sb s Ha) as Hp.
  destruct (sendCopyLayers sb s) as [sent|sent]; [eauto|].
  destruct Hp as (l1 & e & l2 & Hsplit & Hlt & _). exfalso.
  assert (He : boundaryType s e = CONNECT).
  { apply in_connected. unfold connected. rewrite Hsplit.
    apply in_app_iff. right. left. reflexivity. }
  specialize (Hall e He). lia.
Qed.

Lemma sendCopyLayers_without_left_neighbour sb s :
  boundaryType s BND_LEFT = CONNECT -> (neighbourIndex s BND_LEFT <= -1)%Z ->
  sendCopyLayers sb s = Aborted [].
Proof.
  intros Hc Hn. unfold sendCopyLayers. cbv zeta.
  rewrite (bool_decide_eq_true_2 _ Hc). unfold sendTo, assert.
  destruct (Z.ltb_spec (-1) (neighbourIndex s BND_LEFT)); [lia|]. reflexivity.
Qed.

Lemma Forall2_In_l {A B : Type} (R : A -> B -> Prop) l l' x :
  Forall2 R l l' -> In x l -> exists y, In y l' /\ R x y.
Proof.
  induction 1 as [|x0 y0 l l' Hxy _ IH]; intros Hin; [destruct Hin|].
  destruct Hin as [<-|Hin].
  - exists y0. split; [left; reflexivity|exact Hxy].
  - destruct (IH Hin) as (y & Hy & HR). exists y. split; [right; exact Hy|exact HR].
Qed.

Lemma boundaryType_writeTimestep s :
  boundaryType (writeTimestep s) = boundaryType s.
Proof. reflexivity. Qed.

Lemma constructor_boundaryType g uninit slv scenario cx cy csx csy oX oY posX posY
    bnd :
  boundaryType
    (SWE_DimensionalSplittingCharm_new g uninit slv scenario cx cy csx csy oX oY
       posX posY bnd)
  = bnd.
Proof.
  unfold SWE_DimensionalSplittingCharm_new. cbv zeta.
  rewrite boundaryType_writeTimestep.
  apply initScenario_boundaryType.
  constructor; cbn; apply allocated_new.
Qed.

Lemma sampleBlock_geometry cx cy t :
  nx (sampleBlock cx cy t) = cx /\ ny (sampleBlock cx cy t) = cy /\
  boundaryType (sampleBlock cx cy t) = allOf t /\
  neighbourIndex (sampleBlock cx cy t) = neighbours soloLauncher 0 0.
Proof.
  unfold sampleBlock.
  destruct (constructor_geometry soloLauncher F32.zero jumpSolver streamScenario
              cx cy (F32.of_int 1) (F32.of_int 4) F32.zero F32.zero 0 0 (allOf t))
    as (N & M & _ & _ & _ & _ & _ & Hn).
  split; [exact N|]. split; [exact M|]. split; [|exact Hn].
  apply constructor_boundaryType.
Qed.

Lemma centralBlock_geometry cx cy t :
  nx (centralBlock cx cy t) = cx /\ ny (centralBlock cx cy t) = cy /\
  boundaryType (centralBlock cx cy t) = allOf t /\
  neighbourIndex (centralBlock cx cy t) = neighbours latticeLauncher 1 1.
Proof.
  unfold centralBlock.
  destruct (constructor_geometry latticeLauncher F32.zero jumpSolver streamScenario
              cx cy (F32.of_int 1) (F32.of_int 4) F32.zero F32.zero 1 1 (allOf t))
    as (N & M & _ & _ & _ & _ & _ & Hn).
  split; [exact N|]. split; [exact M|]. split; [|exact Hn].
  apply constructor_boundaryType.
Qed.

Lemma stillBlock_geometry :
  nx stillBlock = 1 /\ ny stillBlock = 1 /\
  dx stillBlock = F32.of_int 1 /\ dy stillBlock = F32.of_int 4 /\
  solver stillBlock = stillSolver.
Proof.
  unfold stillBlock.
  destruct (constructor_geometry soloLauncher F32.zero stillSolver streamScenario
              1 1 (F32.of_int 1) (F32.of_int 4) F32.zero F32.zero 0 0 (allOf OUTFLOW))
    as (N & M & X & Y & _ & _ & S & _).
  repeat split; assumption.
Qed.

(** a completed sendCopyLayers has sent the layer of every CONNECT edge *)
Lemma sendCopyLayers_sent_for sb s sent e :
  allocated s -> sendCopyLayers sb s = Done sent ->
  boundaryType s e = CONNECT ->
  exists m, In m sent /\ layerOf sb s e m.
Proof.
  intros Ha Hd Hc. pose proof (sendCopyLayers_progress sb s Ha) as Hp.
  rewrite Hd in Hp. destruct Hp as (_ & Hl).
  apply (Forall2_In_l _ _ _ _ Hl). apply in_connected, Hc.
Qed.

(** * The further properties at the sample data *)

Lemma applyBoundaryConditions_corners_witness :
  let s := sampleBlock 2 2 WALL in
  allocated s /\ 1 <= nx s /\ 1 <= ny s /\
  unknownsAt (applyBoundaryConditions s) 0 0
  = unknownsAt (applyBoundaryConditions s) 1 1.
Proof.
  cbv zeta. destruct (sampleBlock_geometry 2 2 WALL) as (N & M & _).
  assert (Hnx : 1 <= nx (sampleBlock 2 2 WALL)) by (rewrite N; lia).
  assert (Hny : 1 <= ny (sampleBlock 2 2 WALL)) by (rewrite M; lia).
  split; [exact (sampleBlock_allocated 2 2 WALL)|].
  split; [exact Hnx|]. split; [exact Hny|].
  exact (proj1 (applyBoundaryConditions_corners _ (sampleBlock_allocated 2 2 WALL)
                  Hnx Hny)).
Defined.

Lemma applyBoundaryConditions_keeps_interior_witness :
  let s := sampleBlock 2 2 WALL in
  allocated s /\ b (applyBoundaryConditions s) = b s.
Proof.
  cbv zeta. split; [exact (sampleBlock_allocated 2 2 WALL)|].
  exact (proj1 (proj2 (applyBoundaryConditions_keeps_interior _
                         (sampleBlock_allocated 2 2 WALL)))).
Defined.

Lemma applyBoundaryConditions_idempotent_witness :
  let s := sampleBlock 2 2 WALL in
  allocated s /\ 1 <= nx s /\ 1 <= ny s /\
  applyBoundaryConditions (applyBoundaryConditions s) = applyBoundaryConditions s.
Proof.
  cbv zeta. destruct (sampleBlock_geometry 2 2 WALL) as (N & M & _).
  assert (Hnx : 1 <= nx (sampleBlock 2 2 WALL)) by (rewrite N; lia).
  assert (Hny : 1 <= ny (sampleBlock 2 2 WALL)) by (rewrite M; lia).
  split; [exact (sampleBlock_allocated 2 2 WALL)|].
  split; [exact Hnx|]. split; [exact Hny|].
  exact (applyBoundaryConditions_idempotent _ (sampleBlock_allocated 2 2 WALL)
           Hnx Hny).
Defined.

Lemma applyBoundaryBathymetry_ghost_layer_witness :
  let s := sampleBlock 2 2 WALL in
  allocated s /\ 1 <= nx s /\ 1 <= ny s /\
  Float2D.get (b (applyBoundaryBathymetry s)) 0 0 = Float2D.get (b s) 1 1.
Proof.
  cbv zeta. destruct (sampleBlock_geometry 2 2 WALL) as (N & M & _).
  assert (Hnx : 1 <= nx (sampleBlock 2 2 WALL)) by (rewrite N; lia).
  assert (Hny : 1 <= ny (sampleBlock 2 2 WALL)) by (rewrite M; lia).
  split; [exact (sampleBlock_allocated 2 2 WALL)|].
  split; [exact Hnx|]. split; [exact Hny|].
  destruct (applyBoundaryBathymetry_ghost_layer _ (sampleBlock_allocated 2 2 WALL)
              Hnx Hny) as (_ & _ & Hcorner & _).
  exact Hcorner.
Defined.

(** every edge of the central block of the lattice has a neighbour *)
Lemma centralBlock_neighbours cx cy t e :
  (-1 < neighbourIndex (centralBlock cx cy t) e)%Z.
Proof.
  destruct (centralBlock_geometry cx cy t) as (_ & _ & _ & ->).
  destruct e; vm_compute; reflexivity.
Qed.

Lemma sendCopyLayers_completes_iff_witness :
  let s := centralBlock 2 2 CONNECT in
  allocated s /\ exists sent, sendCopyLayers true s = Done sent.
Proof.
  cbv zeta. split; [exact (centralBlock_allocated 2 2 CONNECT)|].
  exact (proj2 (sendCopyLayers_completes_iff true _
                  (centralBlock_allocated 2 2 CONNECT))
           (fun e _ => centralBlock_neighbours 2 2 CONNECT e)).
Defined.

Lemma sendCopyLayers_messages_witness :
  let s := centralBlock 2 2 CONNECT in
  allocated s /\
  exists sent,
    sendCopyLayers true s = Done sent /\
    Forall2 (layerOf true s) (connected s) sent.
Proof.
  cbv zeta. split; [exact (centralBlock_allocated 2 2 CONNECT)|].
  destruct (sendCopyLayers_with_neighbours true _
              (centralBlock_allocated 2 2 CONNECT)
              (fun e _ => centralBlock_neighbours 2 2 CONNECT e)) as (sent & Hd).
  exists sent. split; [exact Hd|].
  exact (proj1 (sendCopyLayers_messages true _ sent
                  (centralBlock_allocated 2 2 CONNECT) Hd)).
Defined.

(** the single block of the solo launcher has no neighbour: with CONNECT
    edges the first assertion fails before anything is sent *)
Lemma sendCopyLayers_aborts_at_first_missing_witness :
  let s := sampleBlock 2 2 CONNECT in
  allocated s /\
  sendCopyLayers true s = Aborted [] /\
  exists before e after,
    connected s = before ++ e :: after /\
    (neighbourIndex s e <= -1)%Z /\
    (forall e', In e' before -> (-1 < neighbourIndex s e')%Z) /\
    Forall2 (layerOf true s) before [].
Proof.
  cbv zeta. destruct (sampleBlock_geometry 2 2 CONNECT) as (_ & _ & B & Hn).
  assert (Hd : sendCopyLayers true (sampleBlock 2 2 CONNECT) = Aborted []).
  { apply sendCopyLayers_without_left_neighbour.
    - rewrite B. reflexivity.
    - rewrite Hn. vm_compute. discriminate. }
  split; [exact (sampleBlock_allocated 2 2 CONNECT)|]. split; [exact Hd|].
  exact (sendCopyLayers_aborts_at_first_missing true _ []
           (sampleBlock_allocated 2 2 CONNECT) Hd).
Defined.

Lemma copy_layer_exchange_witness :
  let s := centralBlock 2 2 CONNECT in
  allocated s /\
  exists sent m,
    sendCopyLayers true s = Done sent /\ In m sent /\
    boundaryType s (entry m) = CONNECT /\
    entry m = opposite (copyLayer.boundary (payload m)).
Proof.
  cbv zeta. split; [exact (centralBlock_allocated 2 2 CONNECT)|].
  destruct (centralBlock_geometry 2 2 CONNECT) as (_ & _ & B & _).
  destruct (sendCopyLayers_with_neighbours true _
              (centralBlock_allocated 2 2 CONNECT)
              (fun e _ => centralBlock_neighbours 2 2 CONNECT e)) as (sent & Hd).
  assert (Hleft : boundaryType (centralBlock 2 2 CONNECT) BND_LEFT = CONNECT)
    by (rewrite B; reflexivity).
  destruct (sendCopyLayers_sent_for true _ sent BND_LEFT
              (centralBlock_allocated 2 2 CONNECT) Hd Hleft) as (m & Hin & _).
  assert (Hc : boundaryType (centralBlock 2 2 CONNECT) (entry m) = CONNECT).
  { rewrite B. reflexivity. }
  exists sent, m. split; [exact Hd|]. split; [exact Hin|]. split; [exact Hc|].
  exact (proj1 (proj2 (copy_layer_exchange true _ _ sent m
                         (centralBlock_allocated 2 2 CONNECT)
                         (centralBlock_allocated 2 2 CONNECT)
                         eq_refl eq_refl Hd Hin Hc))).
Defined.

Lemma updateUnknowns_keeps_ghost_layer_witness :
  let dt := F32.of_int 1 in
  let s := reduceWaveSpeed dt (sampleBlock 2 2 WALL) in
  allocated s /\
  exists s',
    updateUnknowns dt s = Done s' /\
    0 < nx s + 2 /\ 1 < ny s + 2 /\ ~ interior s 0 1 /\
    Float2D.get (h s') 0 1 = Float2D.get (h s) 0 1.
Proof.
  cbv zeta.
  pose proof (allocated_reduceWaveSpeed (F32.of_int 1) _
                (sampleBlock_allocated 2 2 WALL)) as Ha.
  split; [exact Ha|].
  assert (Hd : exists s',
            updateUnknowns (F32.of_int 1)
              (reduceWaveSpeed (F32.of_int 1) (sampleBlock 2 2 WALL)) = Done s').
  { unfold updateUnknowns. rewrite timestepAgrees_reduced. eexists. reflexivity. }
  destruct Hd as (s' & Hd). exists s'.
  assert (Hx : 0 < nx (reduceWaveSpeed (F32.of_int 1) (sampleBlock 2 2 WALL)) + 2)
    by lia.
  assert (Hy : 1 < ny (reduceWaveSpeed (F32.of_int 1) (sampleBlock 2 2 WALL)) + 2)
    by lia.
  assert (Hout : ~ interior (reduceWaveSpeed (F32.of_int 1) (sampleBlock 2 2 WALL))
                     0 1)
    by (unfold interior; lia).
  split; [exact Hd|]. split; [exact Hx|]. split; [exact Hy|]. split; [exact Hout|].
  exact (proj1 (updateUnknowns_keeps_ghost_layer (F32.of_int 1) _ s' Ha Hd 0 1
                  Hx Hy Hout)).
Defined.

Lemma time_step_interior_witness :
  let dt := F32.of_int 1 in
  let s := sampleBlock 1 1 OUTFLOW in
  allocated s /\
  computeNumericalFluxes s = Done fluxedBlock /\
  exists s2,
    updateUnknowns dt (reduceWaveSpeed dt fluxedBlock) = Done s2 /\
    Float2D.get (hu s2) 1 1
    = F32.sub (Float2D.get (hu s) 1 1)
        (F32.mul (F32.div dt (dx s))
           (F32.add (huUpdateRight (xEdge s (1 - 1) 1))
                    (huUpdateLeft (xEdge s 1 1)))).
Proof.
  cbv zeta. destruct (sampleBlock_geometry 1 1 OUTFLOW) as (N & M & _).
  assert (Hflux : computeNumericalFluxes (sampleBlock 1 1 OUTFLOW) = Done fluxedBlock).
  { vm_compute. reflexivity. }
  assert (Hupd : exists s2,
            updateUnknowns (F32.of_int 1) (reduceWaveSpeed (F32.of_int 1) fluxedBlock)
            = Done s2).
  { unfold updateUnknowns. rewrite timestepAgrees_reduced. eexists. reflexivity. }
  destruct Hupd as (s2 & Hupd).
  assert (Hx : 1 <= 1 <= nx (sampleBlock 1 1 OUTFLOW)) by (rewrite N; lia).
  assert (Hy : 1 <= 1 <= ny (sampleBlock 1 1 OUTFLOW)) by (rewrite M; lia).
  split; [exact (sampleBlock_allocated 1 1 OUTFLOW)|]. split; [exact Hflux|].
  exists s2. split; [exact Hupd|].
  exact (proj1 (proj2 (time_step_interior (F32.of_int 1) (F32.of_int 1) _ _ s2
                         (sampleBlock_allocated 1 1 OUTFLOW) Hflux Hupd 1 1 Hx Hy))).
Defined.

Lemma stillBlock_allocated : allocated stillBlock.
Proof. unfold stillBlock. apply constructor_allocated. Qed.

Lemma computeNumericalFluxes_without_waves_witness :
  allocated stillBlock /\
  F32.ltb F32.zero (dx stillBlock) = true /\ isfinite (dx stillBlock) = true /\
  F32.ltb F32.zero (dy stillBlock) = true /\ isfinite (dy stillBlock) = true /\
  exists s', computeNumericalFluxes stillBlock = Aborted s' /\
             maxTimestep s' = S754_infinity false.
Proof.
  destruct stillBlock_geometry as (_ & _ & X & Y & S).
  assert (Hxe : forall x y, x <= nx stillBlock -> 1 <= y <= ny stillBlock ->
            F32.ltb F32.zero (waveSpeed (xEdge stillBlock x y)) = false).
  { intros x y _ _. unfold xEdge. rewrite S. reflexivity. }
  assert (Hye : forall x y, 1 <= x <= nx stillBlock -> y <= ny stillBlock ->
            F32.ltb F32.zero (waveSpeed (yEdge stillBlock x y)) = false).
  { intros x y _ _. unfold yEdge. rewrite S. reflexivity. }
  assert (Hdx : F32.ltb F32.zero (dx stillBlock) = true)
    by (rewrite X; vm_compute; reflexivity).
  assert (Fdx : isfinite (dx stillBlock) = true)
    by (rewrite X; vm_compute; reflexivity).
  assert (Hdy : F32.ltb F32.zero (dy stillBlock) = true)
    by (rewrite Y; vm_compute; reflexivity).
  assert (Fdy : isfinite (dy stillBlock) = true)
    by (rewrite Y; vm_compute; reflexivity).
  split; [exact stillBlock_allocated|].
  split; [exact Hdx|]. split; [exact Fdx|]. split; [exact Hdy|]. split; [exact Fdy|].
  exact (computeNumericalFluxes_without_waves stillBlock stillBlock_allocated
           Hxe Hye Hdx Fdx Hdy Fdy).
Defined.

(** the central block of the lattice of 3 by 3 blocks has the index 4; the
    block to its left has the index 1 *)
Lemma constructor_neighbours_witness :
  thisIndex latticeLauncher = chareAt latticeLauncher 1 1 /\
  onLattice latticeLauncher 1 1 = true /\
  (blockCountX latticeLauncher * blockCountY latticeLauncher <= INT_MAX)%Z /\
  neighbourIndex (centralBlock 2 2 CONNECT) BND_LEFT = 1%Z.
Proof.
  assert (Hmax : (blockCountX latticeLauncher * blockCountY latticeLauncher
                  <= INT_MAX)%Z) by (vm_compute; discriminate).
  split; [reflexivity|]. split; [reflexivity|]. split; [exact Hmax|].
  exact (proj1 (constructor_neighbours latticeLauncher F32.zero jumpSolver
                  streamScenario 2 2 (F32.of_int 1) (F32.of_int 4) F32.zero F32.zero
                  1 1 (allOf CONNECT) BND_LEFT eq_refl eq_refl Hmax)).
Defined.

Lemma initScenario_interior_witness :
  let s := sampleBlock 2 2 WALL in
  allocated s /\ 1 <= 1 <= nx s /\ 1 <= 2 <= ny s /\
  cellOf (initScenario streamScenario (allOf OUTFLOW) s) 1 2
  = scenarioCell streamScenario s 1 2.
Proof.
  cbv zeta. destruct (sampleBlock_geometry 2 2 WALL) as (N & M & _).
  assert (Hx : 1 <= 1 <= nx (sampleBlock 2 2 WALL)) by (rewrite N; lia).
  assert (Hy : 1 <= 2 <= ny (sampleBlock 2 2 WALL)) by (rewrite M; lia).
  split; [exact (sampleBlock_allocated 2 2 WALL)|].
  split; [exact Hx|]. split; [exact Hy|].
  exact (proj2 (initScenario_interior streamScenario (allOf OUTFLOW) _
                  (sampleBlock_allocated 2 2 WALL)) 1 2 Hx Hy).
Defined.

Lemma run_keeps_setting_witness :
  let s := sampleBlock 2 2 WALL in
  let s' := nextCheckpoint (setGhostLayer s) in
  run s s' /\ allocated s' /\ nx s' = 2 /\ ny s' = 2.
Proof.
  cbv zeta.
  assert (Hrun : run (sampleBlock 2 2 WALL)
                   (nextCheckpoint (setGhostLayer (sampleBlock 2 2 WALL)))).
  { eapply run_next; [apply op_setGhostLayer|].
    eapply run_next; [apply op_nextCheckpoint|]. apply run_done. }
  split; [exact Hrun|].
  destruct (run_keeps_setting soloLauncher F32.zero jumpSolver streamScenario 2 2
              (F32.of_int 1) (F32.of_int 4) F32.zero F32.zero 0 0 (allOf WALL) _ Hrun)
    as (Ha & N & M & _).
  split; [exact Ha|]. split; [exact N|exact M].
Defined.

Lemma processCopyLayer_commutes_witness :
  let s := centralBlock 2 2 CONNECT in
  let m1 := sampleLayer BND_RIGHT true in
  let m2 := sampleLayer BND_TOP false in
  allocated s /\ copyLayer.boundary m1 <> copyLayer.boundary m2 /\
  processCopyLayer m1 (processCopyLayer m2 s)
  = processCopyLayer m2 (processCopyLayer m1 s).
Proof.
  cbv zeta.
  assert (Hne : copyLayer.boundary (sampleLayer BND_RIGHT true)
                <> copyLayer.boundary (sampleLayer BND_TOP false))
    by (cbn; discriminate).
  split; [exact (centralBlock_allocated 2 2 CONNECT)|]. split; [exact Hne|].
  exact (processCopyLayer_commutes _ _ _ (centralBlock_allocated 2 2 CONNECT) Hne).
Defined.
